(** * Fingerprint synthesis in [bff.js]: hash folding, canonical strings,
      probe execution and the combined CSS engine.

    The development embeds the parts of [src/bff.js] that decide how a
    fingerprint record is assembled and folded into an identifier:

    - the djb2 loop shared by the four [getHash]-like methods,
    - the JavaScript value operations those methods use (property reads,
      optional chaining, [||], template literals, [sort], [join],
      [slice], [Object.keys], [JSON.stringify], [toFixed], [toString]),
    - [AdvancedBrowserFingerprint.generate] / [getHash],
    - [CSSFingerprint.getHash], [AdvancedCSSFingerprint.getHash],
    - [CombinedCSSFingerprint.generate] / [getCombinedHash].
*)

From Stdlib Require Import String Ascii ZArith List Bool Lia Permutation Sorted.
Import ListNotations.

Local Open Scope Z_scope.
Set Warnings "-register-all".

(* ================================================================== *)
(** * JavaScript strings *)
(* ================================================================== *)

Module JsString.

(** A JavaScript string is a sequence of UTF-16 code units;
    [charCodeAt(i)] returns the [i]-th unit. *)
Definition jsstring := list Z.

(** String literals of the source, written in ASCII. *)
Definition lit (s : string) : jsstring :=
  map (fun a => Z.of_N (N_of_ascii a)) (list_ascii_of_string s).

Fixpoint str_eqb (a b : jsstring) : bool :=
  match a, b with
  | [], [] => true
  | x :: a', y :: b' => (x =? y) && str_eqb a' b'
  | _, _ => false
  end.

(** Code-unit-wise lexicographic order: the order the default comparator
    of [Array.prototype.sort] uses on strings. *)
Fixpoint str_ltb (a b : jsstring) : bool :=
  match a, b with
  | _, [] => false
  | [], _ :: _ => true
  | x :: a', y :: b' => (x <? y) || ((x =? y) && str_ltb a' b')
  end.

(** [parts.join(sep)] on an array of strings. *)
Fixpoint str_join (sep : jsstring) (parts : list jsstring) : jsstring :=
  match parts with
  | [] => []
  | [p] => p
  | p :: rest => p ++ sep ++ str_join sep rest
  end.

End JsString.
Export JsString.

(* ================================================================== *)
(** * Integers as the bit operators and [toString] see them *)
(* ================================================================== *)

Module Int32.

(** [ToInt32]: wrap to the signed 32-bit range. *)
Definition to_int32 (x : Z) : Z := (x + 2 ^ 31) mod 2 ^ 32 - 2 ^ 31.

(** [ToUint32], i.e. [x >>> 0]. *)
Definition to_uint32 (x : Z) : Z := x mod 2 ^ 32.

(** [x << k]: both operands go through the 32-bit conversions, the
    result is a signed 32-bit integer. *)
Definition shl (x k : Z) : Z := to_int32 (Z.shiftl (to_int32 x) (Z.land k 31)).

(** [x >>> 0]. *)
Definition ushr0 (x : Z) : Z := to_uint32 x.

End Int32.

Module Radix.

(** Digit characters ['0'..'9'], ['a'..'z'] as [toString(radix)] emits
    them. *)
Definition digit_char (d : Z) : Z := if d <? 10 then 48 + d else 87 + d.

Fixpoint digits_go (fuel : nat) (radix n : Z) (acc : jsstring) : jsstring :=
  match fuel with
  | O => acc
  | S fuel' =>
      if n <=? 0 then acc
      else digits_go fuel' radix (n / radix) (digit_char (n mod radix) :: acc)
  end.

(** Digits of a non-negative integer, most significant first; ["0"] for
    zero.  One unit of fuel per binary digit is more than enough for any
    radix of two or more. *)
Definition nat_digits (radix n : Z) : jsstring :=
  if n <=? 0 then [48] else digits_go (S (Z.to_nat (Z.log2 n))) radix n [].

(** [n.toString(radix)] for an integer [n]. *)
Definition int_toString (radix n : Z) : jsstring :=
  if n <? 0 then 45 :: nat_digits radix (- n) else nat_digits radix n.

(** Reading a string of lower-case digits back, used to state that the
    rendering loses nothing. *)
Definition digit_value (c : Z) : Z := if c <? 58 then c - 48 else c - 87.

Definition parse_digits (radix : Z) (s : jsstring) : Z :=
  fold_left (fun acc c => acc * radix + digit_value c) s 0.

Definition is_lower_hex (c : Z) : bool :=
  ((48 <=? c) && (c <=? 57)) || ((97 <=? c) && (c <=? 102)).

(** [h] is what [toString(16)] gives for some unsigned 32-bit integer:
    lower-case digits, no prefix, no padding. *)
Definition uint32_hex (h : jsstring) : Prop :=
  exists n, 0 <= n < 2 ^ 32 /\ h = int_toString 16 n.

End Radix.

(* ================================================================== *)
(** * The djb2 loop *)
(* ================================================================== *)

Module Djb2.
Import Int32 Radix.

(** Loop body, as written in all four copies of the loop:
<<
    hash = ((hash << 5) + hash) + str.charCodeAt(i);
    hash = hash >>> 0;
>>  *)
Definition step (hash c : Z) : Z := ushr0 ((shl hash 5 + hash) + c).

(** [let hash = 5381; for (let i = 0; i < str.length; i++) { ... }] *)
Definition loop (str : jsstring) : Z := fold_left step str 5381.

(** The loop followed by [return hash.toString(16)]. *)
Definition hashString (str : jsstring) : jsstring := int_toString 16 (loop str).

(** The reference djb2 variant: [h := (33 * h + c) mod 2^32] from 5381. *)
Definition djb2_step (h c : Z) : Z := (33 * h + c) mod 2 ^ 32.
Definition djb2 (str : jsstring) : Z := fold_left djb2_step str 5381.

End Djb2.

(* ================================================================== *)
(** * JavaScript values *)
(* ================================================================== *)

(** Numbers that are integers in the exactly representable range are
    carried as [Z]; every other double (fractions, [NaN], the
    infinities) is opaque, with the host's formatting routines as an
    interface.  [-0] behaves as [0] for every operation used here. *)
Class Float64 : Type := {
  double : Type;
  (** [Number.prototype.toString()] *)
  double_toString : double -> jsstring;
  (** [Number.prototype.toFixed(digits)] *)
  double_toFixed : nat -> double -> jsstring;
  (** [ToBoolean]: false exactly for [NaN] *)
  double_truthy : double -> bool;
  (** [isFinite] *)
  double_finite : double -> bool
}.

(** The smallest host: its only non-integer number is [NaN]. *)
#[global] Instance nan_only : Float64 := {
  double := unit;
  double_toString := fun _ => lit "NaN";
  double_toFixed := fun _ _ => lit "NaN";
  double_truthy := fun _ => false;
  double_finite := fun _ => false
}.

Module Js.
Import Radix.

Inductive exn : Type :=
| TypeError
| ReferenceError
| HostError (name : string).

(** Result of evaluating an expression or a function body. *)
Inductive completion (A : Type) : Type :=
| Normal (a : A)
| Throw (e : exn).
Arguments Normal {A} a.
Arguments Throw {A} e.

Definition bind {A B : Type} (c : completion A) (k : A -> completion B)
  : completion B :=
  match c with
  | Normal a => k a
  | Throw e => Throw e
  end.

Notation "x <- c ;; k" := (bind c (fun x => k))
  (at level 61, c at next level, right associativity).

Section Values.
Context {F : Float64}.

(** Data values: primitives, arrays, and plain objects given by their
    own enumerable properties in enumeration order (the order
    [Object.keys] and [JSON.stringify] traverse; keys are distinct). *)
Inductive value : Type :=
| VUndefined
| VNull
| VBool (b : bool)
| VInt (z : Z)
| VDouble (d : double)
| VStr (s : jsstring)
| VArr (elems : list value)
| VObj (props : list (jsstring * value)).

Definition nullish (v : value) : bool :=
  match v with
  | VUndefined | VNull => true
  | _ => false
  end.

(** [ToBoolean] *)
Definition truthy (v : value) : bool :=
  match v with
  | VUndefined | VNull => false
  | VBool b => b
  | VInt z => negb (z =? 0)
  | VDouble d => double_truthy d
  | VStr s => match s with [] => false | _ => true end
  | VArr _ | VObj _ => true
  end.

(** [a || b] *)
Definition or_else (a b : value) : value := if truthy a then a else b.

(** [ToString], as template literals, [join] and [sort] apply it, of a
    value in which the conversion finds its method: an object is
    rendered by the inherited [Object.prototype.toString].  An object
    with an own property named [toString] makes the conversion raise
    instead; [ToStringErrors.ToString] has that case, and
    [ToStringErrors.plain] tells the values free of it. *)
Fixpoint toString (v : value) : jsstring :=
  match v with
  | VUndefined => lit "undefined"
  | VNull => lit "null"
  | VBool true => lit "true"
  | VBool false => lit "false"
  | VInt z => int_toString 10 z
  | VDouble d => double_toString d
  | VStr s => s
  | VArr l =>
      str_join (lit ",")
        (map (fun x => match x with
                       | VUndefined | VNull => []
                       | _ => toString x
                       end) l)
  | VObj _ => lit "[object Object]"
  end.

(** Element rendering inside [Array.prototype.join]. *)
Definition join_elem (x : value) : jsstring :=
  match x with
  | VUndefined | VNull => []
  | _ => toString x
  end.

(** A template literal: the concatenation of its parts. *)
Definition template (parts : list value) : value :=
  VStr (concat (map toString parts)).

(** *** Property access *)

Fixpoint lookup (k : jsstring) (ps : list (jsstring * value)) : option value :=
  match ps with
  | [] => None
  | (k', x) :: ps' => if str_eqb k k' then Some x else lookup k ps'
  end.

Fixpoint indexed_from (i : nat) (l : list value) : list (jsstring * value) :=
  match l with
  | [] => []
  | x :: l' => (int_toString 10 (Z.of_nat i), x) :: indexed_from (S i) l'
  end.

(** Own enumerable properties: those of an object, the indices of an
    array, the indices of a string. *)
Definition own_props (v : value) : list (jsstring * value) :=
  match v with
  | VObj ps => ps
  | VArr l => indexed_from 0 l
  | VStr s => indexed_from 0 (map (fun c => VStr [c]) s)
  | _ => []
  end.

(** [Object.keys(v)] for a non-nullish [v]. *)
Definition object_keys (v : value) : list jsstring := map fst (own_props v).

Definition lookup_or_undefined (k : jsstring) (ps : list (jsstring * value))
  : value :=
  match lookup k ps with
  | Some x => x
  | None => VUndefined
  end.

(** [v[k]] / [v.k] for a non-nullish [v]: the [length] of an array or a
    string, otherwise an own enumerable property; every other name read
    by the source is absent from the built-in prototypes and yields
    [undefined]. *)
Definition get (v : value) (k : jsstring) : value :=
  match v with
  | VArr l =>
      if str_eqb k (lit "length") then VInt (Z.of_nat (length l))
      else lookup_or_undefined k (own_props v)
  | VStr s =>
      if str_eqb k (lit "length") then VInt (Z.of_nat (length s))
      else lookup_or_undefined k (own_props v)
  | _ => lookup_or_undefined k (own_props v)
  end.

(** [v?.k] *)
Definition opt_get (v : value) (k : jsstring) : value :=
  if nullish v then VUndefined else get v k.

(** [v.k] where a nullish [v] raises. *)
Definition strict_get (v : value) (k : jsstring) : completion value :=
  if nullish v then Throw TypeError else Normal (get v k).

(** In-place update of an existing own property of an object. *)
Fixpoint replace_prop (k : jsstring) (x : value) (ps : list (jsstring * value))
  : list (jsstring * value) :=
  match ps with
  | [] => []
  | (k', y) :: ps' =>
      if str_eqb k k' then (k', x) :: ps' else (k', y) :: replace_prop k x ps'
  end.

Definition set_prop (v : value) (k : jsstring) (x : value) : value :=
  match v with
  | VObj ps => VObj (replace_prop k x ps)
  | _ => v
  end.

(** *** Array methods *)

Definition is_array (v : value) : bool :=
  match v with
  | VArr _ => true
  | _ => false
  end.

Definition is_number (v : value) : bool :=
  match v with
  | VInt _ | VDouble _ => true
  | _ => false
  end.

Definition is_undefined (v : value) : bool :=
  match v with
  | VUndefined => true
  | _ => false
  end.

(** Default comparator of [sort]: [undefined] goes last, everything else
    is ordered by the code units of its [ToString]. *)
Definition sort_before (x y : value) : bool :=
  if is_undefined x then false
  else if is_undefined y then true
  else str_ltb (toString x) (toString y).

(** [sort] is stable: an element is placed after the sorted elements
    that order strictly before it, and before everything else. *)
Fixpoint sort_insert (x : value) (l : list value) : list value :=
  match l with
  | [] => [x]
  | y :: l' => if sort_before y x then y :: sort_insert x l' else x :: y :: l'
  end.

Definition sort_list (l : list value) : list value := fold_right sort_insert [] l.

(** No element is followed by one that sorts strictly before it. *)
Definition ordered : list value -> Prop :=
  Sorted (fun a b => sort_before b a = false).

(** [v.sort()]: only arrays have the method. *)
Definition array_sort (v : value) : completion value :=
  match v with
  | VArr l => Normal (VArr (sort_list l))
  | _ => Throw TypeError
  end.

(** [v.join(sep)] *)
Definition array_join (sep : jsstring) (v : value) : completion value :=
  match v with
  | VArr l => Normal (VStr (str_join sep (map join_elem l)))
  | _ => Throw TypeError
  end.

(** [v.toFixed(digits)] for a non-nullish [v]: only numbers have the
    method. *)
Definition toFixed (digits : nat) (v : value) : completion value :=
  match v with
  | VInt z =>
      Normal (VStr (int_toString 10 z ++
                    match digits with
                    | O => []
                    | S _ => 46 :: repeat 48 digits
                    end))
  | VDouble d => Normal (VStr (double_toFixed digits d))
  | _ => Throw TypeError
  end.

(** *** [JSON.stringify] *)

Definition hex4 (c : Z) : jsstring :=
  let d := nat_digits 16 c in repeat 48 (4 - length d) ++ d.

Definition unicode_escape (c : Z) : jsstring := lit "\u" ++ hex4 c.

Definition escape_unit (c : Z) : jsstring :=
  if c =? 8 then lit "\b"
  else if c =? 9 then lit "\t"
  else if c =? 10 then lit "\n"
  else if c =? 12 then lit "\f"
  else if c =? 13 then lit "\r"
  else if c =? 34 then [92; 34]
  else if c =? 92 then [92; 92]
  else if c <? 32 then unicode_escape c
  else [c].

Definition high_surrogate (c : Z) : bool := (55296 <=? c) && (c <=? 56319).
Definition low_surrogate (c : Z) : bool := (56320 <=? c) && (c <=? 57343).

(** Well-formed [JSON.stringify]: a surrogate pair is kept, a lone
    surrogate is escaped. *)
Fixpoint quote_units (s : jsstring) : jsstring :=
  match s with
  | [] => []
  | c :: rest =>
      if high_surrogate c then
        match rest with
        | d :: rest' =>
            if low_surrogate d then c :: d :: quote_units rest'
            else unicode_escape c ++ quote_units rest
        | [] => unicode_escape c
        end
      else if low_surrogate c then unicode_escape c ++ quote_units rest
      else escape_unit c ++ quote_units rest
  end.

Definition json_quote (s : jsstring) : jsstring := [34] ++ quote_units s ++ [34].

(** [None] stands for the [undefined] that [JSON.stringify(undefined)]
    returns. *)
Fixpoint json (v : value) : option jsstring :=
  match v with
  | VUndefined => None
  | VNull => Some (lit "null")
  | VBool true => Some (lit "true")
  | VBool false => Some (lit "false")
  | VInt z => Some (int_toString 10 z)
  | VDouble d => Some (if double_finite d then double_toString d else lit "null")
  | VStr s => Some (json_quote s)
  | VArr l =>
      Some (lit "[" ++
            str_join (lit ",")
              (map (fun x => match json x with
                             | Some s => s
                             | None => lit "null"
                             end) l) ++
            lit "]")
  | VObj ps =>
      Some (lit "{" ++
            str_join (lit ",")
              (concat
                 (map (fun p => match json (snd p) with
                                | Some s => [json_quote (fst p) ++ lit ":" ++ s]
                                | None => []
                                end) ps)) ++
            lit "}")
  end.

Definition JSON_stringify (v : value) : value :=
  match json v with
  | Some s => VStr s
  | None => VUndefined
  end.

(** [xs.map(f)] where [f] may raise. *)
Fixpoint map_c {A B : Type} (f : A -> completion B) (xs : list A)
  : completion (list B) :=
  match xs with
  | [] => Normal []
  | x :: xs' => y <- f x ;; ys <- map_c f xs' ;; Normal (y :: ys)
  end.

End Values.
End Js.

(* ================================================================== *)
(** * Promises *)
(* ================================================================== *)

Module Promise.
Import Js.

(** The settled state of a promise. *)
Inductive settled (A : Type) : Type :=
| Fulfilled (a : A)
| Rejected (e : exn).
Arguments Fulfilled {A} a.
Arguments Rejected {A} e.

(** What running the statements of an [async] probe body amounts to. *)
Inductive body_result (V : Type) : Type :=
| Returns (v : V)
    (** the body returns [v], or a promise that fulfils with [v] *)
| Raises (e : exn)
    (** a statement throws, or an awaited promise rejects *)
| ReturnsRejected (e : exn).
    (** the body returns, without awaiting it, a promise that rejects *)
Arguments Returns {V} v.
Arguments Raises {V} e.
Arguments ReturnsRejected {V} e.

(** The promise of an [async] function whose body is, or is not, wrapped
    in [try { ... } catch (e) { return null; }].  A promise returned
    without [await] settles outside the [try]. *)
Definition settle_async {V : Type} (null : V) (guarded : bool)
  (r : body_result V) : settled V :=
  match r with
  | Returns v => Fulfilled v
  | Raises e => if guarded then Fulfilled null else Rejected e
  | ReturnsRejected e => Rejected e
  end.

(** [Promise.all]: fulfils with all values in array order, or rejects
    as soon as one input rejects.  Which reason is reported depends on
    settling order; the first rejected input in array order stands for
    it here. *)
Fixpoint promise_all {A : Type} (ps : list (settled A)) : settled (list A) :=
  match ps with
  | [] => Fulfilled []
  | Rejected e :: _ => Rejected e
  | Fulfilled v :: rest =>
      match promise_all rest with
      | Fulfilled vs => Fulfilled (v :: vs)
      | Rejected e => Rejected e
      end
  end.

(** The promise of an [async] function whose body completes with [c]. *)
Definition async_return {A : Type} (c : completion A) : settled A :=
  match c with
  | Normal a => Fulfilled a
  | Throw e => Rejected e
  end.

End Promise.

(* ================================================================== *)
(** * [class AdvancedBrowserFingerprint] *)
(* ================================================================== *)

Module AdvancedBrowserFingerprint.
Import Js Promise Djb2.

(** The thirty probes, in the order [generate] lists them. *)
Inductive probe : Type :=
| detectWebGLFingerprint | detectAudioContext | detectCanvasFingerprint
| detectWebRTCFingerprint | detectHardwareConcurrency | detectDeviceMemory
| detectBatteryAPI | detectTimezoneOffset | detectLanguages | detectPlugins
| detectMimeTypes | detectTouchSupport | detectMaxTouchPoints
| detectScreenDetails | detectNavigatorProperties | detectPerformanceMetrics
| detectWebGLRenderer | detectWebGLVendor | detectCanvasTextMetrics
| detectMathConstants | detectErrorStackTrace | detectDOMRectPrecision
| detectSpeechSynthesis | detectMediaDevices | detectGamepadAPI
| detectVibrationAPI | detectNetworkInformation | detectStorageQuota
| detectIndexedDBQuirks | detectWebAssemblySupport.

Definition probes : list probe :=
  [ detectWebGLFingerprint; detectAudioContext; detectCanvasFingerprint;
    detectWebRTCFingerprint; detectHardwareConcurrency; detectDeviceMemory;
    detectBatteryAPI; detectTimezoneOffset; detectLanguages; detectPlugins;
    detectMimeTypes; detectTouchSupport; detectMaxTouchPoints;
    detectScreenDetails; detectNavigatorProperties; detectPerformanceMetrics;
    detectWebGLRenderer; detectWebGLVendor; detectCanvasTextMetrics;
    detectMathConstants; detectErrorStackTrace; detectDOMRectPrecision;
    detectSpeechSynthesis; detectMediaDevices; detectGamepadAPI;
    detectVibrationAPI; detectNetworkInformation; detectStorageQuota;
    detectIndexedDBQuirks; detectWebAssemblySupport ].

(** Whether the statements of the method sit inside
    [try { ... } catch (e) { return null; }].  [detectErrorStackTrace]
    computes its result inside a [catch] handler, which nothing guards. *)
Definition guarded (p : probe) : bool :=
  match p with
  | detectWebGLFingerprint | detectAudioContext | detectCanvasFingerprint
  | detectWebRTCFingerprint | detectBatteryAPI | detectWebGLRenderer
  | detectWebGLVendor | detectCanvasTextMetrics | detectDOMRectPrecision
  | detectSpeechSynthesis | detectMediaDevices | detectGamepadAPI
  | detectNetworkInformation | detectStorageQuota | detectIndexedDBQuirks
  | detectWebAssemblySupport => true
  | detectHardwareConcurrency | detectDeviceMemory | detectTimezoneOffset
  | detectLanguages | detectPlugins | detectMimeTypes | detectTouchSupport
  | detectMaxTouchPoints | detectScreenDetails | detectNavigatorProperties
  | detectPerformanceMetrics | detectMathConstants | detectErrorStackTrace
  | detectVibrationAPI => false
  end.

(** Field names of the record, in the order of the object literal. *)
Definition schema : list jsstring :=
  map lit
    [ "webgl"; "audio"; "canvas"; "webrtc"; "hardwareConcurrency";
      "deviceMemory"; "battery"; "timezone"; "languages"; "plugins";
      "mimeTypes"; "touchSupport"; "maxTouchPoints"; "screen"; "navigator";
      "performance"; "webglRenderer"; "webglVendor"; "canvasTextMetrics";
      "mathConstants"; "errorStack"; "domRect"; "speechSynthesis";
      "mediaDevices"; "gamepad"; "vibration"; "network"; "storageQuota";
      "indexedDB"; "webAssembly" ]%string.

(** The fields the comment at the end of [stableFeatures] lists as
    excluded: battery, network, performance (which holds
    [performance.memory]), storageQuota. *)
Definition volatile : list jsstring :=
  map lit [ "battery"; "network"; "performance"; "storageQuota" ]%string.

(** The fields [getHash] reads besides [webgl]. *)
Definition read_fields : list jsstring :=
  map lit
    [ "webglRenderer"; "webglVendor"; "audio"; "canvas";
      "hardwareConcurrency"; "deviceMemory"; "screen"; "timezone";
      "languages"; "mathConstants"; "canvasTextMetrics"; "navigator";
      "maxTouchPoints"; "speechSynthesis"; "plugins"; "errorStack";
      "domRect" ]%string.

Section Engine.
Context {F : Float64}.

(** [constructor() { this.fingerprint = {}; }] *)
Definition constructor : value := VObj [].

(** The host as the probes see it: the value of [navigator.plugins]
    ([None] when the property is undefined, otherwise the entries of the
    array-like [PluginArray]) and, for every other probe, what running
    its body amounts to. *)
Record host : Type := {
  navigator_plugins : option (list value);
  run_body : probe -> body_result value
}.

(** [detectPlugins]: the loop reads [navigator.plugins.length] and, for
    each index, three properties of [navigator.plugins[i]]. *)
Definition plugin_entry (plugin : value) : completion value :=
  name <- strict_get plugin (lit "name") ;;
  description <- strict_get plugin (lit "description") ;;
  filename <- strict_get plugin (lit "filename") ;;
  Normal (VObj [ (lit "name", name);
                 (lit "description", description);
                 (lit "filename", filename) ]).

Definition detectPlugins_body (h : host) : body_result value :=
  match navigator_plugins h with
  | None => Raises TypeError
  | Some entries =>
      match map_c plugin_entry entries with
      | Normal plugins => Returns (VArr plugins)
      | Throw e => Raises e
      end
  end.

Definition body (h : host) (p : probe) : body_result value :=
  match p with
  | detectPlugins => detectPlugins_body h
  | _ => run_body h p
  end.

(** The promise the call of the method returns. *)
Definition detect (h : host) (p : probe) : settled value :=
  settle_async VNull (guarded p) (body h p).

(** What a probe that does not reject contributes to [results]: the
    value its body returns, or the [null] of the [catch] clause. *)
Definition settled_value (h : host) (p : probe) : value :=
  match body h p with
  | Returns v => v
  | _ => VNull
  end.

(** The probe does not reject on this host: its body returns, or it
    throws inside a [try]. *)
Definition contained (h : host) (p : probe) : bool :=
  match body h p with
  | Returns _ => true
  | Raises _ => guarded p
  | ReturnsRejected _ => false
  end.

(** [results[i]] *)
Definition at_index (results : list value) (i : nat) : value :=
  nth i results VUndefined.

(** The object literal assigned to [this.fingerprint]. *)
Definition assemble (results : list value) : value :=
  VObj
    [ (lit "webgl", at_index results 0);
      (lit "audio", at_index results 1);
      (lit "canvas", at_index results 2);
      (lit "webrtc", at_index results 3);
      (lit "hardwareConcurrency", at_index results 4);
      (lit "deviceMemory", at_index results 5);
      (lit "battery", at_index results 6);
      (lit "timezone", at_index results 7);
      (lit "languages", at_index results 8);
      (lit "plugins", at_index results 9);
      (lit "mimeTypes", at_index results 10);
      (lit "touchSupport", at_index results 11);
      (lit "maxTouchPoints", at_index results 12);
      (lit "screen", at_index results 13);
      (lit "navigator", at_index results 14);
      (lit "performance", at_index results 15);
      (lit "webglRenderer", at_index results 16);
      (lit "webglVendor", at_index results 17);
      (lit "canvasTextMetrics", at_index results 18);
      (lit "mathConstants", at_index results 19);
      (lit "errorStack", at_index results 20);
      (lit "domRect", at_index results 21);
      (lit "speechSynthesis", at_index results 22);
      (lit "mediaDevices", at_index results 23);
      (lit "gamepad", at_index results 24);
      (lit "vibration", at_index results 25);
      (lit "network", at_index results 26);
      (lit "storageQuota", at_index results 27);
      (lit "indexedDB", at_index results 28);
      (lit "webAssembly", at_index results 29) ].

(** [generate]: the settled promise it returns and the new value of
    [this.fingerprint].  A rejection leaves [this.fingerprint] alone. *)
Definition generate (h : host) (this_fingerprint : value)
  : settled value * value :=
  match promise_all (map (detect h) probes) with
  | Rejected e => (Rejected e, this_fingerprint)
  | Fulfilled results =>
      let fingerprint := assemble results in
      (Fulfilled fingerprint, fingerprint)
  end.

(** *** [getHash] *)

(** [this.fingerprint.webgl?.extensions] *)
Definition webgl_extensions (fp : value) : value :=
  opt_get (get fp (lit "webgl")) (lit "extensions").

(** [sort] works in place: when the operand is the array stored in the
    record (an array is truthy, so [||] keeps it), the record afterwards
    holds the sorted array.  The fresh [[]] leaves the record as it is. *)
Definition store_extensions (fp extensions : value) : value :=
  set_prop fp (lit "webgl")
    (set_prop (get fp (lit "webgl")) (lit "extensions") extensions).

Definition after_sort (fp sorted : value) : value :=
  match webgl_extensions fp with
  | VArr _ => store_extensions fp sorted
  | _ => fp
  end.

(** [this.fingerprint.audio?.audioSum?.toFixed(2)] *)
Definition audioSum_toFixed (fp : value) : completion value :=
  let audio := get fp (lit "audio") in
  if nullish audio then Normal VUndefined
  else
    let audioSum := get audio (lit "audioSum") in
    if nullish audioSum then Normal VUndefined else toFixed 2 audioSum.

(** The array literal [stableFeatures], with the state of the record
    after its elements have been evaluated. *)
Definition stableFeatures (fp : value) : completion (list value) * value :=
  if nullish fp then (Throw TypeError, fp)
  else
    match array_sort (or_else (webgl_extensions fp) (VArr [])) with
    | Throw e => (Throw e, fp)
    | Normal sorted =>
        let webgl := get fp (lit "webgl") in
        let audio := get fp (lit "audio") in
        let screen := get fp (lit "screen") in
        let timezone := get fp (lit "timezone") in
        let mathConstants := get fp (lit "mathConstants") in
        let navigator := get fp (lit "navigator") in
        let domRect := get fp (lit "domRect") in
        (extensions <- array_join (lit ",") sorted ;;
         audioSum <- audioSum_toFixed fp ;;
         languages <-
           array_join (lit ",")
             (or_else (opt_get (get fp (lit "languages")) (lit "languages"))
                      (VArr [])) ;;
         Normal
           [ template [VStr (lit "webgl:"); get fp (lit "webglRenderer")];
             template [VStr (lit "webgl_vendor:"); get fp (lit "webglVendor")];
             or_else (opt_get webgl (lit "version")) (VStr []);
             or_else (opt_get webgl (lit "shadingLanguageVersion")) (VStr []);
             extensions;
             template [VStr (lit "audio:"); or_else audioSum (VStr [])];
             template [VStr (lit "audio_sr:");
                       or_else (opt_get audio (lit "sampleRate")) (VStr [])];
             template [VStr (lit "audio_ch:");
                       or_else (opt_get audio (lit "maxChannelCount")) (VStr [])];
             template [VStr (lit "canvas:");
                       or_else (opt_get (get fp (lit "canvas")) (lit "hash"))
                               (VStr [])];
             template [VStr (lit "hw_cores:");
                       or_else (get fp (lit "hardwareConcurrency")) (VStr [])];
             template [VStr (lit "hw_mem:");
                       or_else (get fp (lit "deviceMemory")) (VStr [])];
             template [VStr (lit "screen:"); opt_get screen (lit "width");
                       VStr (lit "x"); opt_get screen (lit "height")];
             template [VStr (lit "screen_depth:");
                       opt_get screen (lit "colorDepth")];
             template [VStr (lit "screen_dpr:");
                       opt_get screen (lit "devicePixelRatio")];
             template [VStr (lit "tz:");
                       or_else (opt_get timezone (lit "timezone")) (VStr [])];
             template [VStr (lit "tz_offset:");
                       or_else (opt_get timezone (lit "offset")) (VStr [])];
             template [VStr (lit "lang:"); languages];
             template [VStr (lit "math_tan:");
                       or_else (opt_get mathConstants (lit "tan")) (VStr [])];
             template [VStr (lit "math_sin:");
                       or_else (opt_get mathConstants (lit "sin")) (VStr [])];
             template [VStr (lit "math_acos:");
                       or_else (opt_get mathConstants (lit "acos")) (VStr [])];
             JSON_stringify
               (or_else (get fp (lit "canvasTextMetrics")) (VObj []));
             template [VStr (lit "platform:");
                       or_else (opt_get navigator (lit "platform")) (VStr [])];
             template [VStr (lit "vendor:");
                       or_else (opt_get navigator (lit "vendor")) (VStr [])];
             template [VStr (lit "touch:");
                       or_else (get fp (lit "maxTouchPoints")) (VInt 0)];
             template [VStr (lit "speech:");
                       get (or_else (get fp (lit "speechSynthesis")) (VArr []))
                           (lit "length")];
             template [VStr (lit "plugins:");
                       get (or_else (get fp (lit "plugins")) (VArr []))
                           (lit "length")];
             template [VStr (lit "error:");
                       or_else (opt_get (get fp (lit "errorStack")) (lit "format"))
                               (VStr [])];
             template [VStr (lit "rect:");
                       or_else (opt_get domRect (lit "width")) (VStr []);
                       VStr (lit "x");
                       or_else (opt_get domRect (lit "height")) (VStr [])] ],
         after_sort fp sorted)
    end.

(** [stableFeatures.join('|')] *)
Definition canonical (features : list value) : jsstring :=
  str_join (lit "|") (map join_elem features).

(** The three method calls of [stableFeatures] find their method: the
    operands of [sort] and [join] are arrays and [audioSum], when
    present, is a number. *)
Definition audioSum_ok (fp : value) : bool :=
  let audio := get fp (lit "audio") in
  nullish audio ||
  (let audioSum := get audio (lit "audioSum") in
   nullish audioSum || is_number audioSum).

Definition hashable (fp : value) : bool :=
  negb (nullish fp)
  && is_array (or_else (webgl_extensions fp) (VArr []))
  && audioSum_ok fp
  && is_array (or_else (opt_get (get fp (lit "languages")) (lit "languages"))
                       (VArr [])).

(** [getHash()]: the completion of the call and the state of
    [this.fingerprint] it leaves behind. *)
Definition getHash (fp : value) : completion jsstring * value :=
  let (features, fp') := stableFeatures fp in
  (fs <- features ;; Normal (hashString (canonical fs)), fp').

End Engine.
End AdvancedBrowserFingerprint.

(* ================================================================== *)
(** * [class CSSFingerprint] *)
(* ================================================================== *)

Module CSSFingerprint.
Import Js Djb2.

(** The fields [getHash] reads as a whole or through one property. *)
Definition scalar_fields : list jsstring :=
  map lit
    [ "scrollbar"; "cssGrid"; "cssVariables"; "fontList"; "boxShadow";
      "borderRadius" ]%string.

(** The fields [getHash] traverses by sorted key. *)
Definition keyed_fields : list jsstring :=
  map lit
    [ "cssProperties"; "mediaQueries"; "cssFilters"; "cssBlending";
      "emojiRendering" ]%string.

Definition map_fields : list jsstring := keyed_fields ++ [lit "fontMetrics"].

Section Engine.
Context {F : Float64}.

(** [constructor() { this.fingerprint = {}; }] *)
Definition constructor : value := VObj [].

(** [Object.keys(m || {}).sort()] *)
Definition sorted_keys (m : value) : list value :=
  sort_list (map VStr (object_keys (or_else m (VObj [])))).

(** [...Object.keys(m || {}).sort().map(key => `label:${key}:${m[key]}`)] *)
Definition keyed (label : string) (m : value) : list value :=
  map (fun key =>
         template [VStr (lit label); key; VStr (lit ":");
                   get m (toString key)])
      (sorted_keys m).

(** [this.fingerprint.fontMetrics[key].width.toFixed(1)] *)
Definition fontMetric_width (fontMetrics key : value) : completion value :=
  width <- strict_get (get fontMetrics (toString key)) (lit "width") ;;
  if nullish width then Throw TypeError else toFixed 1 width.

(** [...Object.keys(m || {}).sort().map(key =>
        `fm:${key}:${m[key].width.toFixed(1)}`)] *)
Definition fontMetric_features (fontMetrics : value) : completion (list value) :=
  map_c (fun key =>
           width <- fontMetric_width fontMetrics key ;;
           Normal (template [VStr (lit "fm:"); key; VStr (lit ":"); width]))
        (sorted_keys fontMetrics).

(** The array literal [stableFeatures]. *)
Definition stableFeatures (fp : value) : completion (list value) :=
  if nullish fp then Throw TypeError
  else
    let scrollbar := get fp (lit "scrollbar") in
    let cssGrid := get fp (lit "cssGrid") in
    fm <- fontMetric_features (get fp (lit "fontMetrics")) ;;
    Normal
      ([ template [VStr (lit "sb:");
                   or_else (opt_get scrollbar (lit "width")) (VInt 0);
                   VStr (lit "x");
                   or_else (opt_get scrollbar (lit "height")) (VInt 0)];
         template [VStr (lit "grid:");
                   or_else (opt_get cssGrid (lit "supported")) (VBool false)];
         template [VStr (lit "subgrid:");
                   or_else (opt_get cssGrid (lit "subgrid")) (VBool false)];
         template [VStr (lit "vars:");
                   or_else (opt_get (get fp (lit "cssVariables")) (lit "supported"))
                           (VBool false)];
         template [VStr (lit "fonts:");
                   or_else (opt_get (get fp (lit "fontList")) (lit "length"))
                           (VInt 0)] ]
       ++ keyed "prop:" (get fp (lit "cssProperties"))
       ++ keyed "mq:" (get fp (lit "mediaQueries"))
       ++ keyed "filter:" (get fp (lit "cssFilters"))
       ++ keyed "blend:" (get fp (lit "cssBlending"))
       ++ fm
       ++ keyed "emoji:" (get fp (lit "emojiRendering"))
       ++ [ template [VStr (lit "shadow:");
                      or_else (get fp (lit "boxShadow")) (VStr [])];
            template [VStr (lit "radius:");
                      or_else (opt_get (get fp (lit "borderRadius"))
                                       (lit "borderRadius"))
                              (VStr [])] ]).

(** [stableFeatures.join('|')] *)
Definition canonical (features : list value) : jsstring :=
  str_join (lit "|") (map join_elem features).

Definition getHash (fp : value) : completion jsstring :=
  fs <- stableFeatures fp ;; Normal (hashString (canonical fs)).

End Engine.
End CSSFingerprint.

(* ================================================================== *)
(** * [class AdvancedCSSFingerprint] *)
(* ================================================================== *)

Module AdvancedCSSFingerprint.
Import Js Djb2.

(** The fields [getHash] reads besides [fonts]. *)
Definition read_fields : list jsstring :=
  map lit
    [ "colorScheme"; "prefersReducedMotion"; "prefersContrast";
      "forcedColors"; "invertedColors"; "orientation"; "pointerType";
      "hoverCapability"; "displayMode"; "screenResolution";
      "devicePixelRatio"; "colorGamut"; "dynamicRange"; "monochrome";
      "grid"; "update" ]%string.

Section Engine.
Context {F : Float64}.

(** [constructor() { this.results = {}; ... }]; the two counters are
    never read. *)
Definition constructor : value := VObj [].

(** [v.slice(0, 10)] followed by [.sort()]: an array yields the sorted
    copy of its first ten elements; a string survives [slice] and fails
    at [sort]; anything else already fails at [slice]. *)
Definition slice10_sort (v : value) : completion (list value) :=
  match v with
  | VArr l => Normal (sort_list (firstn 10 l))
  | _ => Throw TypeError
  end.

(** The array literal [features]. *)
Definition features (results : value) : completion (list value) :=
  if nullish results then Throw TypeError
  else
    let screenResolution := get results (lit "screenResolution") in
    fonts <- slice10_sort (or_else (get results (lit "fonts")) (VArr [])) ;;
    Normal
      ([ template [VStr (lit "fonts:");
                   or_else (opt_get (get results (lit "fonts")) (lit "length"))
                           (VInt 0)];
         template [VStr (lit "colorScheme:"); get results (lit "colorScheme")];
         template [VStr (lit "reducedMotion:");
                   get results (lit "prefersReducedMotion")];
         template [VStr (lit "contrast:"); get results (lit "prefersContrast")];
         template [VStr (lit "forcedColors:"); get results (lit "forcedColors")];
         template [VStr (lit "invertedColors:");
                   get results (lit "invertedColors")];
         template [VStr (lit "orientation:"); get results (lit "orientation")];
         template [VStr (lit "pointer:"); get results (lit "pointerType")];
         template [VStr (lit "hover:"); get results (lit "hoverCapability")];
         template [VStr (lit "displayMode:"); get results (lit "displayMode")];
         template [VStr (lit "resolution:");
                   opt_get screenResolution (lit "width");
                   VStr (lit "x");
                   opt_get screenResolution (lit "height")];
         template [VStr (lit "dpr:"); get results (lit "devicePixelRatio")];
         template [VStr (lit "colorGamut:"); get results (lit "colorGamut")];
         template [VStr (lit "dynamicRange:"); get results (lit "dynamicRange")];
         template [VStr (lit "monochrome:"); get results (lit "monochrome")];
         template [VStr (lit "grid:"); get results (lit "grid")];
         template [VStr (lit "update:"); get results (lit "update")] ]
       ++ map (fun f => template [VStr (lit "font:"); f]) fonts).

(** [features.join('|')] *)
Definition canonical (fs : list value) : jsstring :=
  str_join (lit "|") (map join_elem fs).

(** [slice] and [sort] find their method. *)
Definition hashable (results : value) : bool :=
  negb (nullish results)
  && is_array (or_else (get results (lit "fonts")) (VArr [])).

Definition getHash (results : value) : completion jsstring :=
  fs <- features results ;; Normal (hashString (canonical fs)).

End Engine.
End AdvancedCSSFingerprint.

(* ================================================================== *)
(** * [class CombinedCSSFingerprint] *)
(* ================================================================== *)

Module CombinedCSSFingerprint.
Import Js Promise Djb2.

Section Engine.
Context {F : Float64}.

(** [getCombinedHash(basic, advanced)]: each argument is installed in a
    new engine instance, whose [getHash] is then called. *)
Definition getCombinedHash (basic advanced : value) : completion jsstring :=
  basicHash <- CSSFingerprint.getHash basic ;;
  advancedHash <- AdvancedCSSFingerprint.getHash advanced ;;
  let combined := basicHash ++ lit "|" ++ advancedHash in
  Normal (hashString combined).

(** [generate()].  The arguments are the promises returned by
    [new CSSFingerprint().generate()] and
    [new AdvancedCSSFingerprint().generate()], already settled. *)
Definition generate (basic_run advanced_run : settled value) : settled value :=
  match promise_all [basic_run; advanced_run] with
  | Rejected e => Rejected e
  | Fulfilled results =>
      let basic := nth 0 results VUndefined in
      let advanced := nth 1 results VUndefined in
      async_return
        (basic_hash <- CSSFingerprint.getHash CSSFingerprint.constructor ;;
         advanced_hash <-
           AdvancedCSSFingerprint.getHash AdvancedCSSFingerprint.constructor ;;
         combined <- getCombinedHash basic advanced ;;
         Normal
           (VObj [ (lit "basic",
                    VObj [ (lit "data", basic);
                           (lit "hash", VStr basic_hash) ]);
                   (lit "advanced",
                    VObj [ (lit "data", advanced);
                           (lit "hash", VStr advanced_hash) ]);
                   (lit "combined", VStr combined) ]))
  end.

End Engine.
End CombinedCSSFingerprint.

(* ================================================================== *)
(** * Sample records *)
(* ================================================================== *)

Module Samples.
Import Js Promise AdvancedBrowserFingerprint.

Section Records.
Context {F : Float64}.

Definition strings (l : list string) : value := VArr (map (fun s => VStr (lit s)) l).

(** What [detectWebGLFingerprint] returns on a host with the given
    supported extensions (the fields [getHash] does not read are left
    out). *)
Definition sample_webgl (extensions : list string) : value :=
  VObj [ (lit "vendor", VStr (lit "WebKit"));
         (lit "version", VStr (lit "WebGL 1.0"));
         (lit "shadingLanguageVersion", VStr (lit "WebGL GLSL ES 1.0"));
         (lit "extensions", strings extensions) ].

(** The thirty probe results of a desktop host without audio, canvas or
    sensors, for a given core count, language list, battery reading and
    extension list. *)
Definition sample_results (cores : Z) (languages : list string)
  (battery : value) (extensions : list string) : list value :=
  [ sample_webgl extensions;                          (* webgl *)
    VNull; VNull; VNull;                              (* audio, canvas, webrtc *)
    VInt cores;                                       (* hardwareConcurrency *)
    VInt 8;                                           (* deviceMemory *)
    battery;                                          (* battery *)
    VObj [ (lit "offset", VInt (-60));
           (lit "timezone", VStr (lit "Europe/Berlin"));
           (lit "locale", VStr (lit "en-US")) ];      (* timezone *)
    VObj [ (lit "languages", strings languages);
           (lit "language", VStr (lit "en")) ];       (* languages *)
    VArr []; VArr [];                                 (* plugins, mimeTypes *)
    VObj [ (lit "maxTouchPoints", VInt 0);
           (lit "touchEvent", VBool false);
           (lit "touchPoints", VBool false) ];        (* touchSupport *)
    VInt 0;                                           (* maxTouchPoints *)
    VObj [ (lit "width", VInt 1920);
           (lit "height", VInt 1080);
           (lit "colorDepth", VInt 24);
           (lit "devicePixelRatio", VInt 1) ];        (* screen *)
    VObj [ (lit "platform", VStr (lit "Linux x86_64"));
           (lit "vendor", VStr (lit "Google Inc.")) ];(* navigator *)
    VNull;                                            (* performance *)
    VStr (lit "Mesa Intel(R) UHD Graphics");          (* webglRenderer *)
    VStr (lit "Intel");                               (* webglVendor *)
    VNull;                                            (* canvasTextMetrics *)
    VObj [ (lit "tan", VStr (lit "-4.987183803371025"));
           (lit "sin", VStr (lit "-0.8178819121159085"));
           (lit "acos", VStr (lit "1.4474840516030247")) ];
    VObj [ (lit "format", VStr (lit "Error: test")) ];(* errorStack *)
    VNull; VArr []; VNull; VNull;                     (* domRect .. gamepad *)
    VBool false;                                      (* vibration *)
    VNull; VNull; VNull; VNull ].                     (* network .. webAssembly *)

Definition sample_battery (level : Z) : value :=
  VObj [ (lit "charging", VBool false); (lit "level", VInt level) ].

Definition sample_record (cores : Z) (languages : list string)
  (battery : value) (extensions : list string) : value :=
  assemble (sample_results cores languages battery extensions).

(** A host in which every probe body returns [null] and
    [navigator.plugins] is undefined, as where the deprecated property
    has been removed. *)
Definition host_without_plugins : host :=
  {| navigator_plugins := None; run_body := fun _ => Returns VNull |}.

(** The same host with an empty [PluginArray]. *)
Definition host_with_plugins : host :=
  {| navigator_plugins := Some []; run_body := fun _ => Returns VNull |}.

(** A host in which every guarded probe body throws. *)
Definition host_all_guarded_fail : host :=
  {| navigator_plugins := Some [];
     run_body := fun p => if guarded p then Raises (HostError "NotSupportedError")
                          else Returns VNull |}.

(** Results of the CSS engines that differ in one computed style. *)
Definition css_data (boxShadow : string) : value :=
  VObj [ (lit "scrollbar", VObj [ (lit "width", VInt 15); (lit "height", VInt 15) ]);
         (lit "boxShadow", VStr (lit boxShadow)) ].

(** Results of the CSS engine with two media queries, in either order
    of insertion. *)
Definition css_media (queries : list (jsstring * value)) : value :=
  VObj [ (lit "scrollbar", VObj [ (lit "width", VInt 15); (lit "height", VInt 15) ]);
         (lit "mediaQueries", VObj queries) ].

Definition hover_then_pointer : list (jsstring * value) :=
  [ (lit "(hover: hover)", VBool true); (lit "(pointer: fine)", VBool false) ].

Definition pointer_then_hover : list (jsstring * value) :=
  [ (lit "(pointer: fine)", VBool false); (lit "(hover: hover)", VBool true) ].

(** Text metrics of two strings, in either order of insertion. *)
Definition metrics_ab : value :=
  VObj [ (lit "Arial:a", VObj [ (lit "width", VStr (lit "8.898")) ]);
         (lit "Arial:b", VObj [ (lit "width", VStr (lit "8.898")) ]) ].

Definition metrics_ba : value :=
  VObj [ (lit "Arial:b", VObj [ (lit "width", VStr (lit "8.898")) ]);
         (lit "Arial:a", VObj [ (lit "width", VStr (lit "8.898")) ]) ].

(** The same results with a field that [getHash] does not read. *)
Definition css_data_stamped (boxShadow : string) (stamp : Z) : value :=
  VObj [ (lit "timestamp", VInt stamp);
         (lit "scrollbar", VObj [ (lit "width", VInt 15); (lit "height", VInt 15) ]);
         (lit "boxShadow", VStr (lit boxShadow)) ].

Definition advanced_css_data (fonts : list string) : value :=
  VObj [ (lit "fonts", strings fonts); (lit "colorScheme", VStr (lit "light")) ].

(** What [AdvancedCSSFingerprint.generate] returns on a desktop host
    with the given detected fonts. *)
Definition advanced_results (fonts : list string) : value :=
  VObj [ (lit "fonts", strings fonts);
         (lit "colorScheme", VStr (lit "light"));
         (lit "prefersReducedMotion", VBool false);
         (lit "prefersContrast", VStr (lit "no-preference"));
         (lit "forcedColors", VStr (lit "none"));
         (lit "invertedColors", VStr (lit "none"));
         (lit "orientation", VStr (lit "landscape"));
         (lit "pointerType", VStr (lit "fine"));
         (lit "hoverCapability", VStr (lit "hover"));
         (lit "displayMode", VStr (lit "browser"));
         (lit "screenResolution",
          VObj [ (lit "width", VInt 1920); (lit "height", VInt 1080);
                 (lit "availWidth", VInt 1920); (lit "availHeight", VInt 1040);
                 (lit "colorDepth", VInt 24); (lit "pixelDepth", VInt 24) ]);
         (lit "devicePixelRatio", VInt 1);
         (lit "colorGamut", VStr (lit "srgb"));
         (lit "dynamicRange", VStr (lit "standard"));
         (lit "monochrome", VBool false);
         (lit "grid", VBool false);
         (lit "update", VStr (lit "fast"));
         (lit "overflowBlock", VStr (lit "scroll"));
         (lit "overflowInline", VStr (lit "scroll"));
         (lit "scan", VStr (lit "unknown"));
         (lit "scripting", VStr (lit "enabled")) ].

(** Eleven detected fonts, and the same fonts with the last one moved to
    the front. *)
Definition eleven_fonts : list string :=
  [ "Arial"; "Arial Black"; "Calibri"; "Cambria"; "Candara"; "Consolas";
    "Courier New"; "Georgia"; "Impact"; "Tahoma"; "Verdana" ]%string.

Definition eleven_fonts_rotated : list string :=
  [ "Verdana"; "Arial"; "Arial Black"; "Calibri"; "Cambria"; "Candara";
    "Consolas"; "Courier New"; "Georgia"; "Impact"; "Tahoma" ]%string.

End Records.
End Samples.

(* ================================================================== *)
(** * The remaining bitwise operators *)
(* ================================================================== *)

Module Bitwise.
Import Int32.

(** [x >>> k] *)
Definition ushr (x k : Z) : Z := Z.shiftr (to_uint32 x) (Z.land k 31).

(** [x & y], [x | y], [x ^ y]: both operands go through [ToInt32]. *)
Definition band (x y : Z) : Z := Z.land (to_int32 x) (to_int32 y).
Definition bor (x y : Z) : Z := Z.lor (to_int32 x) (to_int32 y).
Definition bxor (x y : Z) : Z := Z.lxor (to_int32 x) (to_int32 y).

End Bitwise.

(* ================================================================== *)
(** * The bundled FingerprintJS library: 64-bit arithmetic on pairs of
      32-bit words and the MurmurHash3 fold built on it *)
(* ================================================================== *)

Module FingerprintJS.
Import Int32 Bitwise Radix.

(** The bundle is minified: a definition is named by the letter the
    function or constant has there, followed by what it is ([m_add] is
    [m], [w_] is [w]).  A 64-bit quantity is an array [[hi, lo]] of two
    numbers; the functions overwrite their first argument and are
    modelled by the pair they leave in it. *)
Definition x64 : Type := Z * Z.

(** The unsigned 64-bit integer a pair stands for. *)
Definition u64 (t : x64) : Z := to_uint32 (fst t) * 2 ^ 32 + to_uint32 (snd t).

(** [function m(t,e)]: addition.
<<
    const n=t[0]>>>16,o=65535&t[0],i=t[1]>>>16,r=65535&t[1],
          a=e[0]>>>16,c=65535&e[0],s=e[1]>>>16;
    let u=0,l=0,d=0,m=0;
    m+=r+(65535&e[1]),d+=m>>>16,m&=65535,d+=i+s,l+=d>>>16,d&=65535,
    l+=o+c,u+=l>>>16,l&=65535,u+=n+a,u&=65535,
    t[0]=u<<16|l,t[1]=d<<16|m
>>  *)
Definition m_add (t e : x64) : x64 :=
  let n := ushr (fst t) 16 in
  let o := band 65535 (fst t) in
  let i := ushr (snd t) 16 in
  let r := band 65535 (snd t) in
  let a := ushr (fst e) 16 in
  let c := band 65535 (fst e) in
  let s := ushr (snd e) 16 in
  let m1 := 0 + (r + band 65535 (snd e)) in
  let d1 := 0 + ushr m1 16 in
  let m2 := band m1 65535 in
  let d2 := d1 + (i + s) in
  let l1 := 0 + ushr d2 16 in
  let d3 := band d2 65535 in
  let l2 := l1 + (o + c) in
  let u1 := 0 + ushr l2 16 in
  let l3 := band l2 65535 in
  let u2 := u1 + (n + a) in
  let u3 := band u2 65535 in
  (bor (shl u3 16) l3, bor (shl d3 16) m2).

(** [function f(t,e)]: multiplication.
<<
    const n=t[0]>>>16,o=65535&t[0],i=t[1]>>>16,r=65535&t[1],
          a=e[0]>>>16,c=65535&e[0],s=e[1]>>>16,u=65535&e[1];
    let l=0,d=0,m=0,f=0;
    f+=r*u,m+=f>>>16,f&=65535,m+=i*u,d+=m>>>16,m&=65535,
    m+=r*s,d+=m>>>16,m&=65535,d+=o*u,l+=d>>>16,d&=65535,
    d+=i*s,l+=d>>>16,d&=65535,d+=r*c,l+=d>>>16,d&=65535,
    l+=n*u+o*s+i*c+r*a,l&=65535,t[0]=l<<16|d,t[1]=m<<16|f
>>  *)
Definition f_mul (t e : x64) : x64 :=
  let n := ushr (fst t) 16 in
  let o := band 65535 (fst t) in
  let i := ushr (snd t) 16 in
  let r := band 65535 (snd t) in
  let a := ushr (fst e) 16 in
  let c := band 65535 (fst e) in
  let s := ushr (snd e) 16 in
  let u := band 65535 (snd e) in
  let f1 := 0 + r * u in
  let m1 := 0 + ushr f1 16 in
  let f2 := band f1 65535 in
  let m2 := m1 + i * u in
  let d1 := 0 + ushr m2 16 in
  let m3 := band m2 65535 in
  let m4 := m3 + r * s in
  let d2 := d1 + ushr m4 16 in
  let m5 := band m4 65535 in
  let d3 := d2 + o * u in
  let l1 := 0 + ushr d3 16 in
  let d4 := band d3 65535 in
  let d5 := d4 + i * s in
  let l2 := l1 + ushr d5 16 in
  let d6 := band d5 65535 in
  let d7 := d6 + r * c in
  let l3 := l2 + ushr d7 16 in
  let d8 := band d7 65535 in
  let l4 := l3 + (n * u + o * s + i * c + r * a) in
  let l5 := band l4 65535 in
  (bor (shl l5 16) d8, bor (shl m5 16) f2).

(** [function p(t,e)]: rotation to the left.
<<
    const n=t[0];
    32===(e%=64) ? (t[0]=t[1],t[1]=n)
    : e<32 ? (t[0]=n<<e|t[1]>>>32-e, t[1]=t[1]<<e|n>>>32-e)
    : (e-=32, t[0]=t[1]<<e|n>>>32-e, t[1]=n<<e|t[1]>>>32-e)
>>  *)
Definition p_rotl (t : x64) (e : Z) : x64 :=
  let n := fst t in
  let e1 := Z.rem e 64 in
  if e1 =? 32 then (snd t, n)
  else if e1 <? 32 then
    (bor (shl n e1) (ushr (snd t) (32 - e1)),
     bor (shl (snd t) e1) (ushr n (32 - e1)))
  else
    let e2 := e1 - 32 in
    (bor (shl (snd t) e2) (ushr n (32 - e2)),
     bor (shl n e2) (ushr (snd t) (32 - e2))).

(** [function h(t,e)]: shift to the left.
<<
    0!==(e%=64) && (e<32 ? (t[0]=t[1]>>>32-e, t[1]=t[1]<<e)
                        : (t[0]=t[1]<<e-32, t[1]=0))
>>  *)
Definition h_shl (t : x64) (e : Z) : x64 :=
  let e1 := Z.rem e 64 in
  if e1 =? 0 then t
  else if e1 <? 32 then (ushr (snd t) (32 - e1), shl (snd t) e1)
  else (shl (snd t) (e1 - 32), 0).

(** [function y(t,e){t[0]^=e[0],t[1]^=e[1]}] *)
Definition y_xor (t e : x64) : x64 := (bxor (fst t) (fst e), bxor (snd t) (snd e)).

(** [const b=[4283543511,3981806797], v=[3301882366,444984403]] *)
Definition b_ : x64 := (4283543511, 3981806797).
Definition v_ : x64 := (3301882366, 444984403).

(** [function g(t)]: the final mix.
<<
    const e=[0,t[0]>>>1];
    y(t,e),f(t,b),e[1]=t[0]>>>1,y(t,e),f(t,v),e[1]=t[0]>>>1,y(t,e)
>>  *)
Definition g_fmix (t : x64) : x64 :=
  let t1 := y_xor t (0, ushr (fst t) 1) in
  let t2 := f_mul t1 b_ in
  let t3 := y_xor t2 (0, ushr (fst t2) 1) in
  let t4 := f_mul t3 v_ in
  y_xor t4 (0, ushr (fst t4) 1).

(** [const w=[2277735313,289559509], L=[1291169091,658871167], k=[0,5],
     V=[0,1390208809], S=[0,944331445]] *)
Definition w_ : x64 := (2277735313, 289559509).
Definition L_ : x64 := (1291169091, 658871167).
Definition k_ : x64 := (0, 5).
Definition V_ : x64 := (0, 1390208809).
Definition S_ : x64 := (0, 944331445).

(** *** The bytes of the key *)

(** [TextEncoder.encode]: UTF-8 of the code points of the string, a
    surrogate without its partner counting as U+FFFD. *)
Definition utf8_of_code_point (cp : Z) : list Z :=
  if cp <? 128 then [cp]
  else if cp <? 2048 then [192 + cp / 64; 128 + cp mod 64]
  else if cp <? 65536 then
    [224 + cp / 4096; 128 + (cp / 64) mod 64; 128 + cp mod 64]
  else
    [240 + cp / 262144; 128 + (cp / 4096) mod 64;
     128 + (cp / 64) mod 64; 128 + cp mod 64].

Fixpoint utf8_encode (s : jsstring) : list Z :=
  match s with
  | [] => []
  | c :: rest =>
      if (55296 <=? c) && (c <=? 56319) then
        match rest with
        | d :: rest' =>
            if (56320 <=? d) && (d <=? 57343) then
              utf8_of_code_point (65536 + (c - 55296) * 1024 + (d - 56320))
                ++ utf8_encode rest'
            else utf8_of_code_point 65533 ++ utf8_encode rest
        | [] => utf8_of_code_point 65533
        end
      else if (56320 <=? c) && (c <=? 57343) then
        utf8_of_code_point 65533 ++ utf8_encode rest
      else utf8_of_code_point c ++ utf8_encode rest
  end.

(** The inner function of [W]: the code units themselves while they are
    all at most 127, the UTF-8 encoding of the whole string as soon as
    one is larger. *)
Definition key_bytes (t : jsstring) : list Z :=
  if forallb (fun o => negb (127 <? o)) t then t else utf8_encode t.

(** *** The body of [W] *)

(** [n[i]] *)
Definition byte_at (n : list Z) (i : nat) : Z := nth i n 0.

(** [n[l+j] | n[l+j+1]<<8 | n[l+j+2]<<16 | n[l+j+3]<<24] *)
Definition word_at (n : list Z) (l j : nat) : Z :=
  bor (bor (bor (byte_at n (l + j)) (shl (byte_at n (l + j + 1)) 8))
           (shl (byte_at n (l + j + 2)) 16))
      (shl (byte_at n (l + j + 3)) 24).

(** The arrays [a], [c], [s], [u], [d] of [W]. *)
Record lanes : Type := {
  la : x64;
  lc : x64;
  ls : x64;
  lu : x64;
  ld : x64
}.

(** One turn of [for(l=0;l<r;l+=16)]. *)
Definition block (n : list Z) (l : nat) (st : lanes) : lanes :=
  let s0 : x64 := (word_at n l 4, word_at n l 0) in
  let u0 : x64 := (word_at n l 12, word_at n l 8) in
  let s1 := f_mul (p_rotl (f_mul s0 w_) 31) L_ in
  let a1 := m_add (f_mul (m_add (p_rotl (y_xor (la st) s1) 27) (lc st)) k_) V_ in
  let u1 := f_mul (p_rotl (f_mul u0 L_) 33) w_ in
  let c1 := m_add (f_mul (m_add (p_rotl (y_xor (lc st) u1) 31) a1) k_) S_ in
  {| la := a1; lc := c1; ls := s1; lu := u1; ld := ld st |}.

Fixpoint blocks (n : list Z) (l count : nat) (st : lanes) : lanes :=
  match count with
  | O => st
  | S count' => blocks n (l + 16) count' (block n l st)
  end.

(** [d[1]=n[l+j],h(d,bits),y(u,d)] and [d[1]=n[l+j],h(d,bits),y(s,d)] *)
Definition into_u (n : list Z) (l j : nat) (bits : Z) (st : lanes) : lanes :=
  let d1 := h_shl (fst (ld st), byte_at n (l + j)) bits in
  {| la := la st; lc := lc st; ls := ls st; lu := y_xor (lu st) d1; ld := d1 |}.

Definition into_s (n : list Z) (l j : nat) (bits : Z) (st : lanes) : lanes :=
  let d1 := h_shl (fst (ld st), byte_at n (l + j)) bits in
  {| la := la st; lc := lc st; ls := y_xor (ls st) d1; lu := lu st; ld := d1 |}.

(** [d[1]=n[l+8],y(u,d),f(u,L),p(u,33),f(u,w),y(c,u)] *)
Definition finish_u (n : list Z) (l : nat) (st : lanes) : lanes :=
  let d1 : x64 := (fst (ld st), byte_at n (l + 8)) in
  let u1 := f_mul (p_rotl (f_mul (y_xor (lu st) d1) L_) 33) w_ in
  {| la := la st; lc := y_xor (lc st) u1; ls := ls st; lu := u1; ld := d1 |}.

(** [d[1]=n[l],y(s,d),f(s,w),p(s,31),f(s,L),y(a,s)] *)
Definition finish_s (n : list Z) (l : nat) (st : lanes) : lanes :=
  let d1 : x64 := (fst (ld st), byte_at n l) in
  let s1 := f_mul (p_rotl (f_mul (y_xor (ls st) d1) w_) 31) L_ in
  {| la := y_xor (la st) s1; lc := lc st; ls := s1; lu := lu st; ld := d1 |}.

(** The body of one [case] label of [switch(i)]. *)
Definition tail_case (n : list Z) (l : nat) (label : nat) (st : lanes) : lanes :=
  match label with
  | 15 => into_u n l 14 48 st
  | 14 => into_u n l 13 40 st
  | 13 => into_u n l 12 32 st
  | 12 => into_u n l 11 24 st
  | 11 => into_u n l 10 16 st
  | 10 => into_u n l 9 8 st
  | 9 => finish_u n l st
  | 8 => into_s n l 7 56 st
  | 7 => into_s n l 6 48 st
  | 6 => into_s n l 5 40 st
  | 5 => into_s n l 4 32 st
  | 4 => into_s n l 3 24 st
  | 3 => into_s n l 2 16 st
  | 2 => into_s n l 1 8 st
  | 1 => finish_s n l st
  | _ => st
  end%nat.

(** [switch(i)] without [break]: the labels from [i] down to 1. *)
Fixpoint tail (n : list Z) (l : nat) (i : nat) (st : lanes) : lanes :=
  match i with
  | O => st
  | S i' => tail n l i' (tail_case n l i st)
  end.

(** [("00000000"+(x>>>0).toString(16)).slice(-8)] *)
Definition hex8 (x : Z) : jsstring :=
  let padded := lit "00000000" ++ int_toString 16 (ushr x 0) in
  skipn (length padded - 8) padded.

(** The four words [W] renders, for the bytes [n] and the seed [e]. *)
Definition murmur_words (n : list Z) (e : Z) : x64 * x64 :=
  let o : x64 := (0, Z.of_nat (length n)) in
  let i := (length n mod 16)%nat in
  let r := (length n - i)%nat in
  let st0 := {| la := (0, e); lc := (0, e); ls := (0, 0); lu := (0, 0);
                ld := (0, 0) |} in
  let st1 := blocks n 0 (r / 16) st0 in
  (* s[0]=0,s[1]=0,u[0]=0,u[1]=0; const d=[0,0] *)
  let st2 := {| la := la st1; lc := lc st1; ls := (0, 0); lu := (0, 0);
                ld := (0, 0) |} in
  let st3 := tail n r i st2 in
  let a1 := y_xor (la st3) o in
  let c1 := y_xor (lc st3) o in
  let a2 := m_add a1 c1 in
  let c2 := m_add c1 a2 in
  let a3 := g_fmix a2 in
  let c3 := g_fmix c2 in
  let a4 := m_add a3 c3 in
  let c4 := m_add c3 a4 in
  (a4, c4).

(** [function W(t,e)], with [e=e||0] already applied to the seed. *)
Definition W_murmur (t : jsstring) (e : Z) : jsstring :=
  let '(a, c) := murmur_words (key_bytes t) e in
  hex8 (fst a) ++ hex8 (snd a) ++ hex8 (fst c) ++ hex8 (snd c).

End FingerprintJS.

(* ================================================================== *)
(** * Loops inside the probes *)
(* ================================================================== *)

(** ** The two pixel hashes *)

Module PixelHash.
Import Int32 Bitwise Radix.

(** [detectCanvasFingerprint]:
<<
    hash = ((hash << 5) - hash) + imageData.data[i];
    hash = hash & hash;
>>  *)
Definition canvas_step (hash d : Z) : Z :=
  let hash1 := (shl hash 5 - hash) + d in
  band hash1 hash1.

(** [let hash = 0; for (let i = 0; i < imageData.data.length; i++) ...] *)
Definition canvas_loop (data : list Z) : Z := fold_left canvas_step data 0.

(** [hash.toString(16)], the [hash] property of the result. *)
Definition canvas_hash (data : list Z) : jsstring :=
  int_toString 16 (canvas_loop data).

(** [detectEmojiRendering]:
<<
    for (let i = 0; i < imageData.length; i += 4) {
        hash = ((hash << 5) - hash)
               + imageData[i] + imageData[i+1] + imageData[i+2];
        hash = hash & hash;
    }
>>
    An index past the end reads [undefined]; the sum is then [NaN], and
    [NaN & NaN] is 0.  This can only happen in the last turn. *)
Definition emoji_step (hash r g b : Z) : Z :=
  let hash1 := (shl hash 5 - hash) + r + g + b in
  band hash1 hash1.

Fixpoint emoji_loop (imageData : list Z) (hash : Z) : Z :=
  match imageData with
  | [] => hash
  | r :: g :: b :: _ :: rest => emoji_loop rest (emoji_step hash r g b)
  | [r; g; b] => emoji_step hash r g b
  | _ => 0
  end.

(** [results[emoji]] for the pixels read back. *)
Definition emoji_hash (imageData : list Z) : Z := emoji_loop imageData 0.

(** The bytes [getImageData] lays out for a list of RGBA pixels. *)
Definition rgba_bytes (pixels : list (Z * Z * Z * Z)) : list Z :=
  flat_map (fun '(r, g, b, a) => [r; g; b; a]) pixels.

End PixelHash.

(** ** Font detection by text width *)

Module FontProbe.

(** [const baseFonts = ['monospace', 'sans-serif', 'serif']] *)
Definition baseFonts : list jsstring :=
  map lit [ "monospace"; "sans-serif"; "serif" ]%string.

(** [CSSFingerprint.detectAvailableFonts]: [testFonts] *)
Definition testFonts : list jsstring :=
  map lit
  [
    "Arial"; "Verdana"; "Helvetica"; "Tahoma"; "Trebuchet MS";
    "Times New Roman"; "Georgia"; "Garamond"; "Courier New";
    "Brush Script MT"; "Comic Sans MS"; "Impact"; "Lucida Sans Unicode";
    "Calibri"; "Cambria"; "Consolas"; "Segoe UI"; "Candara";
    "Franklin Gothic Medium"; "Arial Black"; "Palatino Linotype";
    "Book Antiqua"; "Lucida Console"; "MS Sans Serif"; "MS Serif";
    "Roboto"; "Open Sans"; "Montserrat"; "Lato"; "Source Sans Pro";
    "Noto Sans"; "Ubuntu"; "Raleway"; "Oswald"; "PT Sans";
    "Apple Color Emoji"; "Segoe UI Emoji"; "Noto Color Emoji"
  ]%string.

(** [AdvancedCSSFingerprint.detectFonts]: [commonFonts] *)
Definition commonFonts : list jsstring :=
  map lit
  [
    "Arial"; "Arial Black"; "Bahnschrift"; "Calibri"; "Cambria";
    "Cambria Math"; "Candara"; "Comic Sans MS"; "Consolas"; "Constantia";
    "Corbel"; "Courier New"; "Ebrima"; "Franklin Gothic Medium";
    "Gabriola"; "Gadugi"; "Georgia"; "HoloLens MDL2 Assets"; "Impact";
    "Ink Free"; "Javanese Text"; "Leelawadee UI"; "Lucida Console";
    "Lucida Sans Unicode"; "Malgun Gothic"; "Marlett";
    "Microsoft Himalaya"; "Microsoft JhengHei"; "Microsoft New Tai Lue";
    "Microsoft PhagsPa"; "Microsoft Sans Serif"; "Microsoft Tai Le";
    "Microsoft YaHei"; "Microsoft Yi Baiti"; "MingLiU-ExtB";
    "Mongolian Baiti"; "MS Gothic"; "MV Boli"; "Myanmar Text";
    "Nirmala UI"; "Palatino Linotype"; "Segoe MDL2 Assets"; "Segoe Print";
    "Segoe Script"; "Segoe UI"; "Segoe UI Historic"; "Segoe UI Emoji";
    "Segoe UI Symbol"; "SimSun"; "Sitka"; "Sylfaen"; "Symbol"; "Tahoma";
    "Times New Roman"; "Trebuchet MS"; "Verdana"; "Webdings"; "Wingdings";
    "Yu Gothic"; "American Typewriter"; "Andale Mono"; "Apple Chancery";
    "Apple Color Emoji"; "Apple SD Gothic Neo"; "Arial Hebrew";
    "Arial Rounded MT Bold"; "Avenir"; "Avenir Next";
    "Avenir Next Condensed"; "Baskerville"; "Big Caslon"; "Bodoni 72";
    "Bodoni 72 Oldstyle"; "Bodoni 72 Smallcaps"; "Bradley Hand";
    "Brush Script MT"; "Chalkboard"; "Chalkboard SE"; "Chalkduster";
    "Charter"; "Cochin"; "Copperplate"; "Courier"; "Didot";
    "DIN Alternate"; "DIN Condensed"; "Futura"; "Geneva"; "Gill Sans";
    "Helvetica"; "Helvetica Neue"; "Herculanum"; "Hoefler Text";
    "Lucida Grande"; "Luminari"; "Marker Felt"; "Menlo"; "Monaco";
    "Noteworthy"; "Optima"; "Palatino"; "Papyrus"; "Phosphate"; "Rockwell";
    "Savoye LET"; "SignPainter"; "Skia"; "Snell Roundhand"; "Tahoma";
    "Times"; "Trattatello"; "Zapfino"; "Ubuntu"; "Ubuntu Condensed";
    "Ubuntu Mono"; "DejaVu Sans"; "DejaVu Sans Mono"; "DejaVu Serif";
    "Droid Sans"; "Droid Sans Mono"; "Droid Serif"; "FreeMono"; "FreeSans";
    "FreeSerif"; "Liberation Mono"; "Liberation Sans"; "Liberation Serif";
    "Noto Sans"; "Noto Serif"; "Roboto"; "Roboto Condensed"; "Roboto Mono";
    "Roboto Slab"; "Open Sans"; "Lato"; "Montserrat"; "Source Sans Pro";
    "Raleway"; "PT Sans"; "Oswald"; "Merriweather"; "Playfair Display";
    "Poppins"; "Inter"; "Nunito"
  ]%string.

(** [`${fontSize} ${baseFont}`] with a size of ['72px'] *)
Definition base_font (baseFont : jsstring) : jsstring :=
  lit "72px " ++ baseFont.

(** [`${fontSize} "${testFont}", ${baseFont}`]; 34 is the double quote. *)
Definition fallback_font (testFont baseFont : jsstring) : jsstring :=
  lit "72px " ++ [34] ++ testFont ++ [34] ++ lit ", " ++ baseFont.

Section Canvas.

(** What [ctx.measureText(testString).width] yields, as a function of
    the value last assigned to [ctx.font], and [!==] on such widths. *)
Variable width : Type.
Variable measure : jsstring -> width.
Variable strict_neq : width -> width -> bool.

(** [baseMeasurements] / [baselines]: one property per base font. *)
Definition baselines : list (jsstring * width) :=
  map (fun baseFont => (baseFont, measure (base_font baseFont))) baseFonts.

Fixpoint baseline (baseFont : jsstring) (bs : list (jsstring * width))
  : option width :=
  match bs with
  | [] => None
  | (k, w) :: bs' =>
      if str_eqb baseFont k then Some w else baseline baseFont bs'
  end.

(** [width !== baselines[baseFont]]; a missing property reads
    [undefined], which differs from every width. *)
Definition differs (testFont baseFont : jsstring) : bool :=
  match baseline baseFont baselines with
  | Some w => strict_neq (measure (fallback_font testFont baseFont)) w
  | None => true
  end.

(** [detectAvailableFonts]: the inner [forEach] visits every base font
    and raises a flag. *)
Definition detected_forEach (testFont : jsstring) : bool :=
  fold_left (fun detected baseFont =>
               if differs testFont baseFont then true else detected)
            baseFonts false.

Definition detectAvailableFonts : list jsstring :=
  fold_left (fun availableFonts testFont =>
               if detected_forEach testFont
               then availableFonts ++ [testFont]
               else availableFonts)
            testFonts [].

(** [detectFonts]: the inner [for ... of] leaves at the first
    difference. *)
Fixpoint detected_break (font : jsstring) (bases : list jsstring) : bool :=
  match bases with
  | [] => false
  | baseFont :: rest =>
      if differs font baseFont then true else detected_break font rest
  end.

Definition detectFonts : list jsstring :=
  fold_left (fun detectedFonts font =>
               if detected_break font baseFonts
               then detectedFonts ++ [font]
               else detectedFonts)
            commonFonts [].

End Canvas.
End FontProbe.

(** ** Splitting a string *)

Module StringOps.

(** [s.split(sep)] for a separator of one code unit. *)
Fixpoint split_from (sep : Z) (s current : jsstring) : list jsstring :=
  match s with
  | [] => [current]
  | c :: rest =>
      if c =? sep then current :: split_from sep rest []
      else split_from sep rest (current ++ [c])
  end.

Definition split (sep : Z) (s : jsstring) : list jsstring := split_from sep s [].

(** [s.includes(c)] for one code unit. *)
Definition includes (c : Z) (s : jsstring) : bool := existsb (Z.eqb c) s.

End StringOps.

(** ** [detectErrorStackTrace] *)

Module ErrorStack.
Import Js StringOps.

Section Probe.
Context {F : Float64}.

(** The [catch] block, given the value of [e.stack]:
<<
    const stack = e.stack || '';
    return { format: stack.split('\n')[0], length: stack.length,
             hasColumn: stack.includes(':') };
>>
    Only a string has [split]. *)
Definition detectErrorStackTrace (e_stack : value) : completion value :=
  match or_else e_stack (VStr []) with
  | VStr stack =>
      Normal
        (VObj [ (lit "format", nth 0 (map VStr (split 10 stack)) VUndefined);
                (lit "length", VInt (Z.of_nat (length stack)));
                (lit "hasColumn", VBool (includes 58 stack)) ])
  | _ => Throw TypeError
  end.

End Probe.
End ErrorStack.

(** ** [detectWebRTCFingerprint]: the candidate handler *)

Module WebRTC.
Import Js StringOps.

(** [s.split(' ')] *)
Definition split_space (s : jsstring) : list jsstring := split 32 s.

(** [ips.indexOf(ip) === -1] *)
Definition absent (ip : jsstring) (ips : list jsstring) : bool :=
  negb (existsb (str_eqb ip) ips).

Section Handler.
Context {F : Float64}.

(** One call of [pc.onicecandidate]: the array [ips] afterwards, and
    whether the call resolved the promise.  A candidate that is truthy
    but not a string has no [split]. *)
Definition onicecandidate (ips : list jsstring) (ice : value)
  : completion (list jsstring * bool) :=
  if negb (truthy ice)
     || negb (truthy (get ice (lit "candidate")))
     || negb (truthy (get (get ice (lit "candidate")) (lit "candidate")))
  then Normal (ips, true)
  else
    match get (get ice (lit "candidate")) (lit "candidate") with
    | VStr s =>
        match nth_error (split_space s) 4 with
        | Some ip =>
            if truthy (VStr ip) && absent ip ips
            then Normal (ips ++ [ip], false)
            else Normal (ips, false)
        | None => Normal (ips, false)
        end
    | _ => Throw TypeError
    end.

(** The array after a sequence of events; an exception inside a handler
    is reported to the host and leaves the array as it was. *)
Definition deliver (ips : list jsstring) (ice : value) : list jsstring :=
  match onicecandidate ips ice with
  | Normal (ips', _) => ips'
  | Throw _ => ips
  end.

Definition localIPs (events : list value) : list jsstring :=
  fold_left deliver events [].

End Handler.
End WebRTC.

(* ================================================================== *)
(** * [ToString] of an object *)
(* ================================================================== *)

(** [ToString] of an object calls the object's [toString].  A data value
    holds no function: an object with an own property named [toString]
    therefore has no callable [toString], the inherited [valueOf] gives
    back the object itself, and the conversion raises a [TypeError].
    Every other object inherits [Object.prototype.toString]; an array
    inherits [Array.prototype.toString], which joins the conversions of
    its elements. *)
Module ToStringErrors.
Import Js.

Section Values.
Context {F : Float64}.

(** [Object.hasOwn(VObj ps, k)] *)
Definition owns (k : jsstring) (ps : list (jsstring * value)) : bool :=
  match lookup k ps with
  | Some _ => true
  | None => false
  end.

(** [ToString], with the case in which it raises. *)
Fixpoint ToString (v : value) : completion jsstring :=
  match v with
  | VArr l =>
      parts <- map_c (fun x => match x with
                               | VUndefined | VNull => Normal []
                               | _ => ToString x
                               end) l ;;
      Normal (str_join (lit ",") parts)
  | VObj ps =>
      if owns (lit "toString") ps then Throw TypeError
      else Normal (lit "[object Object]")
  | _ => Normal (toString v)
  end.

(** No object inside [v], at any depth, has an own property named
    [toString]: whichever part of [v] a template literal, [join] or
    [sort] converts, the conversion returns. *)
Fixpoint plain (v : value) : bool :=
  match v with
  | VArr l => forallb plain l
  | VObj ps =>
      negb (owns (lit "toString") ps) && forallb (fun p => plain (snd p)) ps
  | _ => true
  end.

End Values.
End ToStringErrors.

(** ** The probes of [AdvancedCSSFingerprint] *)

Module AdvancedCSSProbes.
Import Js Promise ToStringErrors.

Section Engine.
Context {F : Float64}.
Variable width : Type.

(** The host, a page: [document] and [window] are bound.  It gives the
    2d context of a new canvas ([None] when [getContext] returns
    [null]) as the width it measures for a font, [!==] on widths,
    [window.matchMedia] ([None] when it is missing) as the [matches]
    flag of a query, the binding of the global [screen] ([None] when
    the host binds no global of that name) and
    [window.devicePixelRatio]. *)
Record host : Type := {
  context2d : option (jsstring -> width);
  strict_neq : width -> width -> bool;
  matchMedia : option (jsstring -> bool);
  screen : option value;
  devicePixelRatio : value
}.

(** [window.matchMedia(query).matches] *)
Definition matches (h : host) (query : jsstring) : completion bool :=
  match matchMedia h with
  | Some m => Normal (m query)
  | None => Throw TypeError
  end.

(** [detectFonts] *)
Definition detectFonts (h : host) : completion value :=
  match context2d h with
  | Some measure =>
      Normal
        (VArr (map VStr (FontProbe.detectFonts width measure (strict_neq h))))
  | None => Throw TypeError
  end.

(** The loop shared by twelve probes:
<<
    for (const option of options) {
        if (window.matchMedia(`(feature: ${option})`).matches) {
            return option;
        }
    }
    return fallback;
>>  *)
Fixpoint first_match (h : host) (feature : string) (options : list string)
  (fallback : string) : completion value :=
  match options with
  | [] => Normal (VStr (lit fallback))
  | choice :: rest =>
      m <- matches h
             (lit "(" ++ lit feature ++ lit ": " ++ lit choice ++ lit ")") ;;
      if m then Normal (VStr (lit choice))
      else first_match h feature rest fallback
  end.

(** [window.matchMedia(query).matches ? yes : no] *)
Definition choose (h : host) (query yes no : string) : completion value :=
  m <- matches h (lit query) ;;
  Normal (VStr (lit (if m then yes else no))).

(** [window.matchMedia(query).matches] *)
Definition flag (h : host) (query : string) : completion value :=
  m <- matches h (lit query) ;; Normal (VBool m).

Definition detectColorScheme (h : host) :=
  first_match h "prefers-color-scheme"
    ["light"; "dark"; "no-preference"]%string "unknown".
Definition detectPrefersReducedMotion (h : host) :=
  flag h "(prefers-reduced-motion: reduce)".
Definition detectPrefersContrast (h : host) :=
  first_match h "prefers-contrast"
    ["no-preference"; "more"; "less"; "custom"]%string "unknown".
Definition detectForcedColors (h : host) :=
  choose h "(forced-colors: active)" "active" "none".
Definition detectInvertedColors (h : host) :=
  choose h "(inverted-colors: inverted)" "inverted" "none".
Definition detectOrientation (h : host) :=
  choose h "(orientation: portrait)" "portrait" "landscape".
Definition detectPointerType (h : host) :=
  first_match h "pointer" ["none"; "coarse"; "fine"]%string "unknown".
Definition detectHoverCapability (h : host) :=
  first_match h "hover" ["none"; "hover"]%string "unknown".
Definition detectDisplayMode (h : host) :=
  first_match h "display-mode"
    ["fullscreen"; "standalone"; "minimal-ui"; "browser"]%string "unknown".

(** [screen.k]: the bare identifier is resolved first, which raises a
    [ReferenceError] where no such global is bound; reading a property
    of [null] or [undefined] raises a [TypeError]. *)
Definition screen_get (h : host) (k : jsstring) : completion value :=
  match screen h with
  | None => Throw ReferenceError
  | Some s => strict_get s k
  end.

(** [detectScreenResolution]: six properties of [screen]. *)
Definition detectScreenResolution (h : host) : completion value :=
  width <- screen_get h (lit "width") ;;
  height <- screen_get h (lit "height") ;;
  availWidth <- screen_get h (lit "availWidth") ;;
  availHeight <- screen_get h (lit "availHeight") ;;
  colorDepth <- screen_get h (lit "colorDepth") ;;
  pixelDepth <- screen_get h (lit "pixelDepth") ;;
  Normal
    (VObj [ (lit "width", width);
            (lit "height", height);
            (lit "availWidth", availWidth);
            (lit "availHeight", availHeight);
            (lit "colorDepth", colorDepth);
            (lit "pixelDepth", pixelDepth) ]).

(** [return window.devicePixelRatio || 1;] *)
Definition detectDevicePixelRatio (h : host) : completion value :=
  Normal (or_else (devicePixelRatio h) (VInt 1)).

(** Neither [screen] nor [window.devicePixelRatio] holds an object with
    an own property named [toString]. *)
Definition plain_host (h : host) : bool :=
  match screen h with
  | Some s => plain s
  | None => true
  end
  && plain (devicePixelRatio h).

Definition detectColorGamut (h : host) :=
  first_match h "color-gamut" ["srgb"; "p3"; "rec2020"]%string "unknown".
Definition detectDynamicRange (h : host) :=
  first_match h "dynamic-range" ["standard"; "high"]%string "unknown".
Definition detectMonochrome (h : host) := flag h "(monochrome)".
Definition detectGrid (h : host) := flag h "(grid)".
Definition detectUpdate (h : host) :=
  first_match h "update" ["none"; "slow"; "fast"]%string "unknown".
Definition detectOverflowBlock (h : host) :=
  first_match h "overflow-block"
    ["none"; "scroll"; "optional-paged"; "paged"]%string "unknown".
Definition detectOverflowInline (h : host) :=
  first_match h "overflow-inline" ["none"; "scroll"]%string "unknown".
Definition detectScan (h : host) :=
  first_match h "scan" ["interlace"; "progressive"]%string "unknown".
Definition detectScripting (h : host) :=
  first_match h "scripting"
    ["none"; "initial-only"; "enabled"]%string "enabled".

(** The array passed to [Promise.all]: each probe is an [async] method
    without a [try], so its promise rejects when its body throws. *)
Definition probes (h : host) : list (settled value) :=
  map async_return
    [ detectFonts h; detectColorScheme h; detectPrefersReducedMotion h;
      detectPrefersContrast h; detectForcedColors h; detectInvertedColors h;
      detectOrientation h; detectPointerType h; detectHoverCapability h;
      detectDisplayMode h; detectScreenResolution h; detectDevicePixelRatio h;
      detectColorGamut h; detectDynamicRange h; detectMonochrome h;
      detectGrid h; detectUpdate h; detectOverflowBlock h;
      detectOverflowInline h; detectScan h; detectScripting h ].

(** [results[i]] *)
Definition at_index (results : list value) (i : nat) : value :=
  nth i results VUndefined.

(** The object literal assigned to [this.results]. *)
Definition assemble (results : list value) : value :=
  VObj
    [ (lit "fonts", at_index results 0);
      (lit "colorScheme", at_index results 1);
      (lit "prefersReducedMotion", at_index results 2);
      (lit "prefersContrast", at_index results 3);
      (lit "forcedColors", at_index results 4);
      (lit "invertedColors", at_index results 5);
      (lit "orientation", at_index results 6);
      (lit "pointerType", at_index results 7);
      (lit "hoverCapability", at_index results 8);
      (lit "displayMode", at_index results 9);
      (lit "screenResolution", at_index results 10);
      (lit "devicePixelRatio", at_index results 11);
      (lit "colorGamut", at_index results 12);
      (lit "dynamicRange", at_index results 13);
      (lit "monochrome", at_index results 14);
      (lit "grid", at_index results 15);
      (lit "update", at_index results 16);
      (lit "overflowBlock", at_index results 17);
      (lit "overflowInline", at_index results 18);
      (lit "scan", at_index results 19);
      (lit "scripting", at_index results 20) ].

(** [generate]: the settled promise it returns and the new value of
    [this.results].  A rejection leaves [this.results] alone. *)
Definition generate (h : host) (this_results : value)
  : settled value * value :=
  match promise_all (probes h) with
  | Rejected e => (Rejected e, this_results)
  | Fulfilled results =>
      let r := assemble results in (Fulfilled r, r)
  end.

End Engine.
End AdvancedCSSProbes.

(* ================================================================== *)
(** * Records the CSS hashes accept *)
(* ================================================================== *)

Module CSSErrors.
Import Js.

Section Engine.
Context {F : Float64}.

(** [fontMetrics[key].width.toFixed(1)] finds every property and method
    it reaches for: the entry is not [null] or [undefined] and its
    [width] is a number. *)
Definition fontMetric_ok (fontMetrics key : value) : bool :=
  let entry := get fontMetrics (toString key) in
  negb (nullish entry) && is_number (get entry (lit "width")).

(** The same for every key that [CSSFingerprint.getHash] visits. *)
Definition hashable (fp : value) : bool :=
  negb (nullish fp)
  && forallb (fontMetric_ok (get fp (lit "fontMetrics")))
       (CSSFingerprint.sorted_keys (get fp (lit "fontMetrics"))).

(** The value a promise fulfilled with, if it did, holds no object with
    an own property named [toString]. *)
Definition plain_run (run : Promise.settled value) : bool :=
  match run with
  | Promise.Fulfilled v => ToStringErrors.plain v
  | Promise.Rejected _ => true
  end.

End Engine.
End CSSErrors.

(* ================================================================== *)
(** * MurmurHash3, x64 variant with 128 bits, on 64-bit integers *)
(* ================================================================== *)

(** The algorithm as published, with unsigned 64-bit integers as [Z]
    and every operation wrapped at 2^64.  It is what the pair arithmetic
    of the bundled library is compared with. *)
Module MurmurHash3.

Definition add64 (x y : Z) : Z := (x + y) mod 2 ^ 64.
Definition mul64 (x y : Z) : Z := (x * y) mod 2 ^ 64.
Definition rotl64 (x r : Z) : Z := (x * 2 ^ r) mod 2 ^ 64 + x / 2 ^ (64 - r).

(** [0x87c37b91114253d5] and [0x4cf5ad432745937f] *)
Definition c1 : Z := 9782798678568883157.
Definition c2 : Z := 5545529020109919103.

Definition mix_k1 (k1 : Z) : Z := mul64 (rotl64 (mul64 k1 c1) 31) c2.
Definition mix_k2 (k2 : Z) : Z := mul64 (rotl64 (mul64 k2 c2) 33) c1.

(** The finaliser, with [0xff51afd7ed558ccd] and [0xc4ceb9fe1a85ec53]. *)
Definition fmix64 (k : Z) : Z :=
  let k := Z.lxor k (k / 2 ^ 33) in
  let k := mul64 k 18397679294719823053 in
  let k := Z.lxor k (k / 2 ^ 33) in
  let k := mul64 k 14181476777654086739 in
  Z.lxor k (k / 2 ^ 33).

(** The little-endian integer of [len] bytes from offset [off]. *)
Fixpoint getblock (data : list Z) (off len : nat) : Z :=
  match len with
  | O => 0
  | S len' =>
      getblock data off len' + nth (off + len') data 0 * 2 ^ (8 * Z.of_nat len')
  end.

(** One 16-byte block. *)
Definition body_step (data : list Z) (off : nat) (h : Z * Z) : Z * Z :=
  let k1 := getblock data off 8 in
  let k2 := getblock data (off + 8) 8 in
  let h1 := Z.lxor (fst h) (mix_k1 k1) in
  let h1 := add64 (mul64 (add64 (rotl64 h1 27) (snd h)) 5) 1390208809 in
  let h2 := Z.lxor (snd h) (mix_k2 k2) in
  let h2 := add64 (mul64 (add64 (rotl64 h2 31) h1) 5) 944331445 in
  (h1, h2).

Fixpoint body (data : list Z) (off nblocks : nat) (h : Z * Z) : Z * Z :=
  match nblocks with
  | O => h
  | S nblocks' => body data (off + 16) nblocks' (body_step data off h)
  end.

(** [k ^= tail[j] << 8 * j], from byte [count - 1] down to byte 0. *)
Fixpoint xor_bytes (data : list Z) (off count : nat) (k : Z) : Z :=
  match count with
  | O => k
  | S count' =>
      xor_bytes data off count'
        (Z.lxor k (nth (off + count') data 0 * 2 ^ (8 * Z.of_nat count')))
  end.

(** The last [len mod 16] bytes. *)
Definition tail (data : list Z) (off len : nat) (h : Z * Z) : Z * Z :=
  let h2 :=
    if (8 <? len)%nat
    then Z.lxor (snd h) (mix_k2 (xor_bytes data (off + 8) (len - 8) 0))
    else snd h in
  let h1 :=
    if (0 <? len)%nat
    then Z.lxor (fst h) (mix_k1 (xor_bytes data off (Nat.min len 8) 0))
    else fst h in
  (h1, h2).

Definition finalize (len : Z) (h : Z * Z) : Z * Z :=
  let h1 := Z.lxor (fst h) len in
  let h2 := Z.lxor (snd h) len in
  let h1 := add64 h1 h2 in
  let h2 := add64 h2 h1 in
  let h1 := fmix64 h1 in
  let h2 := fmix64 h2 in
  let h1 := add64 h1 h2 in
  let h2 := add64 h2 h1 in
  (h1, h2).

(** [MurmurHash3_x64_128(data, len, seed)] as the pair [(h1, h2)]. *)
Definition x64_128 (data : list Z) (seed : Z) : Z * Z :=
  let len := length data in
  let nblocks := (len / 16)%nat in
  finalize (Z.of_nat len)
    (tail data (nblocks * 16) (len mod 16)
       (body data 0 nblocks (seed, seed))).

End MurmurHash3.

(* ================================================================== *)
(** * How the state of [W] is read as a state of MurmurHash3 *)
(* ================================================================== *)

Module MurmurRefinement.
Import Int32 FingerprintJS.

(** The lanes [a], [c], [s], [u] of [W] stand for [h1], [h2], [k1],
    [k2]; [clean] records that the high word of the scratch pair [d] is
    zero. *)
Definition lanes_hold (st : lanes) (h1 h2 k1 k2 : Z) (clean : bool) : Prop :=
  u64 (la st) = h1 /\ u64 (lc st) = h2 /\ u64 (ls st) = k1 /\ u64 (lu st) = k2 /\
  (clean = true -> to_uint32 (fst (ld st)) = 0).

End MurmurRefinement.

(* ================================================================== *)
(** * The bundled library: from the components to the visitor id *)
(* ================================================================== *)

Module HashComponents.
Import Js FingerprintJS.

Section Engine.
Context {F : Float64}.

(** [n.replace(/([:|\\])/g, "\\$1")]: a backslash in front of every
    colon (58), bar (124) and backslash (92). *)
Definition escape_key (n : jsstring) : jsstring :=
  flat_map (fun c => if (c =? 58) || (c =? 124) || (c =? 92) then [92; c]
                     else [c]) n.

(** ["error" in o]: only an object can stand to the right of [in]; an
    array has no such property. *)
Definition has_error (o : value) : completion bool :=
  match o with
  | VObj ps =>
      Normal (match lookup (lit "error") ps with
              | Some _ => true
              | None => false
              end)
  | VArr _ => Normal false
  | _ => Throw TypeError
  end.

(** One turn of the loop of [Mt]:
<<
    const o=t[n], i="error"in o?"error":JSON.stringify(o.value);
    e+=`${e?"|":""}${n.replace(/([:|\\])/g,"\\$1")}:${i}`
>>  *)
Definition append_component (t : value) (e : jsstring) (n : value)
  : completion jsstring :=
  let o := get t (toString n) in
  failed <- has_error o ;;
  let i := if failed then VStr (lit "error")
           else JSON_stringify (get o (lit "value")) in
  Normal (e ++ toString
                 (template [ VStr (if truthy (VStr e) then lit "|" else []);
                             VStr (escape_key (toString n));
                             VStr (lit ":"); i ])).

Fixpoint append_components (t : value) (keys : list value) (e : jsstring)
  : completion jsstring :=
  match keys with
  | [] => Normal e
  | n :: rest =>
      e' <- append_component t e n ;; append_components t rest e'
  end.

(** The inner function of [Mt]: [for (const n of Object.keys(t).sort())]. *)
Definition canonical (t : value) : completion jsstring :=
  if nullish t then Throw TypeError
  else append_components t (sort_list (map VStr (object_keys t))) [].

(** [function Mt(t){return W(...(t))}]; [W] is called without a seed. *)
Definition Mt (t : value) : completion jsstring :=
  e <- canonical t ;; Normal (W_murmur e 0).

End Engine.
End HashComponents.

(* ================================================================== *)
(** * A sample host for the media probes *)
(* ================================================================== *)

Module ProbeSamples.
Import Js AdvancedCSSProbes.

(** The media queries that match on a desktop with a mouse and a dark
    theme. *)
Definition desktop_queries : list jsstring :=
  map lit
    [ "(prefers-color-scheme: dark)"; "(prefers-contrast: no-preference)";
      "(pointer: fine)"; "(hover: hover)"; "(display-mode: browser)";
      "(color-gamut: srgb)"; "(color-gamut: p3)"; "(dynamic-range: standard)";
      "(update: fast)"; "(overflow-block: scroll)"; "(overflow-inline: scroll)";
      "(scan: progressive)"; "(scripting: enabled)" ]%string.

Definition desktop_matches (query : jsstring) : bool :=
  existsb (str_eqb query) desktop_queries.

(** Its canvas measures a text by the length of the font string, so that
    every font put in front of a base font changes the width. *)
Definition desktop : @host nan_only nat :=
  {| context2d := Some (@length Z);
     strict_neq := fun a b => negb (Nat.eqb a b);
     matchMedia := Some desktop_matches;
     screen := Some (VObj [ (lit "width", VInt 1920);
                            (lit "height", VInt 1080);
                            (lit "availWidth", VInt 1920);
                            (lit "availHeight", VInt 1040);
                            (lit "colorDepth", VInt 24);
                            (lit "pixelDepth", VInt 24) ]);
     devicePixelRatio := VInt 2 |}.

(** The same host where no global named [screen] is bound, and where it
    is bound to [undefined]. *)
Definition desktop_unbound_screen : @host nan_only nat :=
  {| context2d := context2d nat desktop;
     strict_neq := strict_neq nat desktop;
     matchMedia := matchMedia nat desktop;
     screen := None;
     devicePixelRatio := devicePixelRatio nat desktop |}.

Definition desktop_undefined_screen : @host nan_only nat :=
  {| context2d := context2d nat desktop;
     strict_neq := strict_neq nat desktop;
     matchMedia := matchMedia nat desktop;
     screen := Some VUndefined;
     devicePixelRatio := devicePixelRatio nat desktop |}.

(** A record whose extension list is not in order. *)
Definition unsorted_record : @value nan_only :=
  VObj [ (lit "webgl",
          VObj [ (lit "vendor", VStr (lit "WebKit"));
                 (lit "extensions",
                  VArr [ VStr (lit "OES_texture_float");
                         VStr (lit "ANGLE_instanced_arrays") ]) ]);
         (lit "hardwareConcurrency", VInt 8) ].

(** A record whose [audioSum] is a text. *)
Definition record_with_text_audioSum : @value nan_only :=
  VObj [ (lit "audio", VObj [ (lit "audioSum", VStr (lit "124.04")) ]);
         (lit "hardwareConcurrency", VInt 8) ].

(** Results of [CSSFingerprint] with one measured font, its width as a
    number and as a text. *)
Definition css_with_metrics : @value nan_only :=
  VObj [ (lit "fontMetrics",
          VObj [ (lit "Arial", VObj [ (lit "width", VInt 120);
                                      (lit "height", VInt 18) ]) ]);
         (lit "boxShadow", VStr (lit "none")) ].

Definition css_with_text_width : @value nan_only :=
  VObj [ (lit "fontMetrics",
          VObj [ (lit "Arial", VObj [ (lit "width", VStr (lit "120px")) ]) ]);
         (lit "boxShadow", VStr (lit "none")) ].

(** Results of [AdvancedCSSFingerprint] whose [fonts] is a text. *)
Definition advanced_with_text_fonts : @value nan_only :=
  VObj [ (lit "fonts", VStr (lit "Arial"));
         (lit "colorScheme", VStr (lit "light")) ].

(** A record of one plugin, and another plugin. *)
Definition record_with_plugin : @value nan_only :=
  VObj [ (lit "hardwareConcurrency", VInt 8);
         (lit "plugins",
          VArr [ VObj [ (lit "name", VStr (lit "PDF Viewer"));
                        (lit "description", VStr (lit "Portable Document Format"));
                        (lit "filename", VStr (lit "internal-pdf-viewer")) ] ]) ].

Definition other_plugin : @value nan_only :=
  VObj [ (lit "name", VStr (lit "Chromium PDF Viewer"));
         (lit "description", VStr (lit "Portable Document Format"));
         (lit "filename", VStr (lit "internal-pdf-viewer")) ].

(** A host whose [navigator.plugins] holds that other plugin. *)
Definition host_one_plugin : @AdvancedBrowserFingerprint.host nan_only :=
  {| AdvancedBrowserFingerprint.navigator_plugins := Some [other_plugin];
     AdvancedBrowserFingerprint.run_body := fun _ => Promise.Returns VNull |}.

(** Two components in the two possible orders. *)
Definition components : list (jsstring * @value nan_only) :=
  [ (lit "timezone",
     VObj [ (lit "value", VStr (lit "Europe/Paris")); (lit "duration", VInt 1) ]);
    (lit "audio",
     VObj [ (lit "error", VStr (lit "timeout")); (lit "duration", VInt 3) ]) ].

Definition components_reversed : list (jsstring * @value nan_only) :=
  [ (lit "audio",
     VObj [ (lit "error", VStr (lit "timeout")); (lit "duration", VInt 3) ]);
    (lit "timezone",
     VObj [ (lit "value", VStr (lit "Europe/Paris")); (lit "duration", VInt 1) ]) ].

(** The same components measured another time: other durations, and
    another error object. *)
Definition components_again : list (jsstring * @value nan_only) :=
  [ (lit "timezone",
     VObj [ (lit "value", VStr (lit "Europe/Paris")); (lit "duration", VInt 7) ]);
    (lit "audio",
     VObj [ (lit "error", VObj [ (lit "name", VStr (lit "Error")) ]);
            (lit "duration", VInt 9) ]) ].

End ProbeSamples.

(* ================================================================== *)
(** * Facts about strings *)
(* ================================================================== *)

Module JsStringFacts.

Lemma str_eqb_refl (a : jsstring) : str_eqb a a = true.
Proof.
  induction a as [|x a IH]; simpl; [reflexivity|].
  now rewrite Z.eqb_refl.
Qed.

Lemma str_eqb_eq (a b : jsstring) : str_eqb a b = true <-> a = b.
Proof.
  split.
  - revert b; induction a as [|x a IH]; intros [|y b]; simpl;
      try discriminate; try reflexivity.
    intros H; apply andb_prop in H as [Hx Hab].
    apply Z.eqb_eq in Hx; subst; f_equal; auto.
  - intros ->; apply str_eqb_refl.
Qed.

Lemma str_ltb_irrefl (a : jsstring) : str_ltb a a = false.
Proof.
  induction a as [|x a IH]; simpl; [reflexivity|].
  rewrite Z.ltb_irrefl, Z.eqb_refl; simpl; exact IH.
Qed.

Lemma str_ltb_asym (a b : jsstring) :
  str_ltb a b = true -> str_ltb b a = false.
Proof.
  revert b; induction a as [|x a IH]; intros [|y b]; simpl;
    try discriminate; try reflexivity.
  intros H. apply orb_prop in H as [H|H].
  - apply Z.ltb_lt in H.
    replace (y <? x) with false by (symmetry; apply Z.ltb_ge; lia).
    replace (y =? x) with false by (symmetry; apply Z.eqb_neq; lia).
    reflexivity.
  - apply andb_prop in H as [Hx Hab]. apply Z.eqb_eq in Hx; subst y.
    rewrite Z.ltb_irrefl, Z.eqb_refl; simpl; auto.
Qed.

Lemma str_ltb_trans (a b c : jsstring) :
  str_ltb a b = true -> str_ltb b c = true -> str_ltb a c = true.
Proof.
  revert b c; induction a as [|x a IH]; intros [|y b] [|z c]; simpl;
    try discriminate; try reflexivity.
  intros H1 H2.
  apply orb_prop in H1 as [H1|H1]; apply orb_prop in H2 as [H2|H2].
  - apply Z.ltb_lt in H1, H2.
    replace (x <? z) with true by (symmetry; apply Z.ltb_lt; lia).
    reflexivity.
  - apply andb_prop in H2 as [H2 _]. apply Z.eqb_eq in H2; subst z.
    rewrite H1; reflexivity.
  - apply andb_prop in H1 as [H1 _]. apply Z.eqb_eq in H1; subst y.
    rewrite H2; reflexivity.
  - apply andb_prop in H1 as [H1 H1']; apply andb_prop in H2 as [H2 H2'].
    apply Z.eqb_eq in H1, H2; subst y z.
    rewrite Z.eqb_refl, (IH _ _ H1' H2'); simpl.
    apply orb_true_r.
Qed.

(** Two strings neither of which sorts before the other are equal. *)
Lemma str_ltb_total (a b : jsstring) :
  str_ltb a b = false -> str_ltb b a = false -> a = b.
Proof.
  revert b; induction a as [|x a IH]; intros [|y b]; simpl;
    try discriminate; try reflexivity.
  intros H1 H2.
  apply orb_false_elim in H1 as [H1 H1'].
  apply orb_false_elim in H2 as [H2 H2'].
  apply Z.ltb_ge in H1, H2.
  assert (x = y) by lia; subst y.
  rewrite Z.eqb_refl in H1', H2'; simpl in *.
  f_equal; auto.
Qed.

End JsStringFacts.

(* ================================================================== *)
(** * Facts about the 32-bit operators and digit strings *)
(* ================================================================== *)

Module Int32Facts.
Import Int32.

Lemma to_int32_wraps (x : Z) : exists q, to_int32 x = x + q * 2 ^ 32.
Proof.
  unfold to_int32.
  exists (- ((x + 2 ^ 31) / 2 ^ 32)).
  pose proof (Z.div_mod (x + 2 ^ 31) (2 ^ 32) ltac:(lia)).
  lia.
Qed.

Lemma shl_5_wraps (x : Z) : exists q, shl x 5 = 32 * x + q * 2 ^ 32.
Proof.
  unfold shl.
  change (Z.land 5 31) with 5.
  rewrite Z.shiftl_mul_pow2 by lia.
  destruct (to_int32_wraps x) as [q1 H1].
  destruct (to_int32_wraps (to_int32 x * 2 ^ 5)) as [q2 H2].
  exists (32 * q1 + q2).
  rewrite H2, H1. lia.
Qed.

Lemma to_uint32_range (x : Z) : 0 <= to_uint32 x < 2 ^ 32.
Proof. unfold to_uint32. apply Z.mod_pos_bound. lia. Qed.

End Int32Facts.

Module RadixFacts.
Import Radix.

Lemma digit_value_char (d : Z) :
  0 <= d < 36 -> digit_value (digit_char d) = d.
Proof.
  intros H. unfold digit_value, digit_char.
  destruct (d <? 10) eqn:E.
  - apply Z.ltb_lt in E.
    replace (48 + d <? 58) with true by (symmetry; apply Z.ltb_lt; lia). lia.
  - apply Z.ltb_ge in E.
    replace (87 + d <? 58) with false by (symmetry; apply Z.ltb_ge; lia). lia.
Qed.

Lemma digit_char_hex (d : Z) :
  0 <= d < 16 -> is_lower_hex (digit_char d) = true.
Proof.
  intros H. unfold is_lower_hex, digit_char.
  destruct (d <? 10) eqn:E.
  - apply Z.ltb_lt in E. apply orb_true_iff; left.
    apply andb_true_iff; split; apply Z.leb_le; lia.
  - apply Z.ltb_ge in E. apply orb_true_iff; right.
    apply andb_true_iff; split; apply Z.leb_le; lia.
Qed.

Lemma digits_go_acc (fuel : nat) (radix n : Z) (acc : jsstring) :
  digits_go fuel radix n acc = digits_go fuel radix n [] ++ acc.
Proof.
  revert n acc; induction fuel as [|fuel IH]; intros n acc; simpl.
  - reflexivity.
  - destruct (n <=? 0); [reflexivity|].
    rewrite IH, (IH _ [_]), <- app_assoc. reflexivity.
Qed.

Lemma digits_go_step (fuel : nat) (radix n : Z) :
  0 < n ->
  digits_go (S fuel) radix n [] =
  digits_go fuel radix (n / radix) [] ++ [digit_char (n mod radix)].
Proof.
  intros H. simpl.
  replace (n <=? 0) with false by (symmetry; apply Z.leb_gt; lia).
  apply digits_go_acc.
Qed.

Lemma parse_digits_snoc (radix : Z) (s : jsstring) (c : Z) :
  parse_digits radix (s ++ [c]) = parse_digits radix s * radix + digit_value c.
Proof. unfold parse_digits. rewrite fold_left_app. reflexivity. Qed.

Lemma div_radix_bound (radix n : Z) (fuel : nat) :
  2 <= radix -> 0 < n < 2 ^ Z.of_nat (S fuel) ->
  0 <= n / radix < 2 ^ Z.of_nat fuel.
Proof.
  intros Hr [Hn Hlt].
  rewrite Nat2Z.inj_succ, Z.pow_succ_r in Hlt by lia.
  split; [apply Z.div_pos; lia|].
  apply Z.div_lt_upper_bound; [lia|].
  assert (0 < 2 ^ Z.of_nat fuel) by (apply Z.pow_pos_nonneg; lia).
  nia.
Qed.

Lemma parse_digits_go (fuel : nat) (radix n : Z) :
  2 <= radix <= 36 -> 0 <= n < 2 ^ Z.of_nat fuel ->
  parse_digits radix (digits_go fuel radix n []) = n.
Proof.
  intros Hr. revert n; induction fuel as [|fuel IH]; intros n Hn.
  - simpl in *. assert (n = 0) by lia. subst. reflexivity.
  - destruct (Z.eq_dec n 0) as [->|Hnz]; [reflexivity|].
    rewrite digits_go_step by lia.
    rewrite parse_digits_snoc, IH by (apply div_radix_bound; lia).
    rewrite digit_value_char
      by (pose proof (Z.mod_pos_bound n radix ltac:(lia)); lia).
    pose proof (Z.div_mod n radix ltac:(lia)). lia.
Qed.

Lemma fuel_enough (n : Z) :
  0 < n -> 0 <= n < 2 ^ Z.of_nat (S (Z.to_nat (Z.log2 n))).
Proof.
  intros H. split; [lia|].
  rewrite Nat2Z.inj_succ, Z2Nat.id by apply Z.log2_nonneg.
  apply Z.log2_spec; assumption.
Qed.

(** Reading the digits back gives the number: the rendering is exact. *)
Lemma parse_nat_digits (radix n : Z) :
  2 <= radix <= 36 -> 0 <= n -> parse_digits radix (nat_digits radix n) = n.
Proof.
  intros Hr Hn. unfold nat_digits.
  destruct (n <=? 0) eqn:E.
  - apply Z.leb_le in E. assert (n = 0) by lia. subst. reflexivity.
  - apply Z.leb_gt in E. apply parse_digits_go; [assumption|].
    apply fuel_enough; assumption.
Qed.

Lemma digits_go_length (fuel k : nat) (n : Z) :
  n < 16 ^ Z.of_nat k -> (length (digits_go fuel 16 n []) <= k)%nat.
Proof.
  revert k n; induction fuel as [|fuel IH]; intros k n Hn; simpl.
  - lia.
  - destruct (n <=? 0) eqn:E; simpl; [lia|].
    apply Z.leb_gt in E.
    destruct k as [|k]; [simpl in Hn; lia|].
    rewrite digits_go_acc, length_app; simpl.
    enough (length (digits_go fuel 16 (n / 16) []) <= k)%nat by lia.
    apply IH.
    rewrite Nat2Z.inj_succ, Z.pow_succ_r in Hn by lia.
    apply Z.div_lt_upper_bound; lia.
Qed.

Lemma digits_go_hex (fuel : nat) (n : Z) :
  Forall (fun c => is_lower_hex c = true) (digits_go fuel 16 n []).
Proof.
  revert n; induction fuel as [|fuel IH]; intros n; simpl.
  - constructor.
  - destruct (n <=? 0); [constructor|].
    rewrite digits_go_acc. apply Forall_app; split; [apply IH|].
    constructor; [|constructor].
    apply digit_char_hex. apply Z.mod_pos_bound. lia.
Qed.

Lemma nat_digits_nonempty (radix n : Z) : nat_digits radix n <> [].
Proof.
  unfold nat_digits. destruct (n <=? 0) eqn:E; [discriminate|].
  apply Z.leb_gt in E. rewrite digits_go_step by assumption.
  intros H. apply app_eq_nil in H as [_ H]. discriminate.
Qed.

(** A value below [2^32] needs between one and eight hex digits. *)
Lemma hex_uint32_length (n : Z) :
  0 <= n < 2 ^ 32 -> (1 <= length (int_toString 16 n) <= 8)%nat.
Proof.
  intros Hn. unfold int_toString.
  replace (n <? 0) with false by (symmetry; apply Z.ltb_ge; lia).
  split.
  - pose proof (nat_digits_nonempty 16 n).
    destruct (nat_digits 16 n); [congruence|simpl; lia].
  - unfold nat_digits. destruct (n <=? 0); [simpl; lia|].
    apply digits_go_length. change (16 ^ Z.of_nat 8) with (2 ^ 32). lia.
Qed.

Lemma hex_uint32_chars (n : Z) :
  0 <= n -> Forall (fun c => is_lower_hex c = true) (int_toString 16 n).
Proof.
  intros Hn. unfold int_toString.
  replace (n <? 0) with false by (symmetry; apply Z.ltb_ge; lia).
  unfold nat_digits. destruct (n <=? 0).
  - constructor; [reflexivity|constructor].
  - apply digits_go_hex.
Qed.

End RadixFacts.

(* ================================================================== *)
(** * The hash fold *)
(* ================================================================== *)

Module Djb2Facts.
Import Int32 Radix Djb2 Int32Facts RadixFacts.

Lemma step_spec (hash c : Z) : step hash c = (33 * hash + c) mod 2 ^ 32.
Proof.
  unfold step, ushr0, to_uint32.
  destruct (shl_5_wraps hash) as [q Hq]. rewrite Hq.
  replace (32 * hash + q * 2 ^ 32 + hash + c)
    with (33 * hash + c + q * 2 ^ 32) by lia.
  apply Z_mod_plus_full.
Qed.

Lemma fold_step_djb2 (str : jsstring) (h : Z) :
  fold_left step str h = fold_left djb2_step str h.
Proof.
  revert h; induction str as [|c str IH]; intros h; simpl; [reflexivity|].
  rewrite step_spec. apply IH.
Qed.

Lemma fold_step_range (str : jsstring) (h : Z) :
  0 <= h < 2 ^ 32 -> 0 <= fold_left step str h < 2 ^ 32.
Proof.
  revert h; induction str as [|c str IH]; intros h Hh; simpl; [assumption|].
  apply IH. apply to_uint32_range.
Qed.

Lemma loop_range (str : jsstring) : 0 <= loop str < 2 ^ 32.
Proof. apply fold_step_range. lia. Qed.

Lemma hashString_length (str : jsstring) :
  (1 <= length (hashString str) <= 8)%nat.
Proof. apply hex_uint32_length, loop_range. Qed.

Lemma hashString_chars (str : jsstring) :
  Forall (fun c => is_lower_hex c = true) (hashString str).
Proof. apply hex_uint32_chars, loop_range. Qed.

Lemma hashString_parse (str : jsstring) :
  parse_digits 16 (hashString str) = loop str.
Proof.
  unfold hashString, int_toString.
  pose proof (loop_range str) as H.
  replace (loop str <? 0) with false by (symmetry; apply Z.ltb_ge; lia).
  apply parse_nat_digits; lia.
Qed.

(** The loop is the reference djb2 variant, and its rendering is the
    lower-case hexadecimal of the folded integer. *)
Lemma loop_is_djb2 (str : jsstring) :
  (forall hash c, step hash c = (33 * hash + c) mod 2 ^ 32) /\
  loop str = djb2 str /\
  0 <= djb2 str < 2 ^ 32 /\
  hashString str = int_toString 16 (djb2 str) /\
  parse_digits 16 (hashString str) = djb2 str /\
  Forall (fun c => is_lower_hex c = true) (hashString str).
Proof.
  assert (E : loop str = djb2 str) by apply fold_step_djb2.
  repeat split.
  - apply step_spec.
  - exact E.
  - rewrite <- E. apply loop_range.
  - rewrite <- E. apply loop_range.
  - unfold hashString. now rewrite E.
  - rewrite <- E. apply hashString_parse.
  - apply hashString_chars.
Qed.

End Djb2Facts.

(* ================================================================== *)
(** * Facts about values: properties, [sort] *)
(* ================================================================== *)

Module JsFacts.
Import Js JsStringFacts.

Section Values.
Context {F : Float64}.

(** *** Reading after an in-place update *)

Lemma lookup_replace_other (k k' : jsstring) (x : value) ps :
  str_eqb k' k = false -> lookup k' (replace_prop k x ps) = lookup k' ps.
Proof.
  intros Hk. induction ps as [|[k0 y] ps IH]; simpl; [reflexivity|].
  destruct (str_eqb k k0) eqn:E; simpl.
  - apply str_eqb_eq in E; subst k0. now rewrite Hk.
  - destruct (str_eqb k' k0); [reflexivity|exact IH].
Qed.

Lemma lookup_replace_same (k : jsstring) (x y : value) ps :
  lookup k ps = Some y -> lookup k (replace_prop k x ps) = Some x.
Proof.
  induction ps as [|[k0 z] ps IH]; simpl; [discriminate|].
  destruct (str_eqb k k0) eqn:E; simpl; rewrite E; auto.
Qed.

Lemma lookup_replace_none (k : jsstring) (x : value) ps :
  lookup k ps = None -> lookup k (replace_prop k x ps) = None.
Proof.
  induction ps as [|[k0 z] ps IH]; simpl; [reflexivity|].
  destruct (str_eqb k k0) eqn:E; simpl; rewrite E; [discriminate|auto].
Qed.

Lemma replace_prop_twice (k : jsstring) (x y : value) ps :
  replace_prop k x (replace_prop k y ps) = replace_prop k x ps.
Proof.
  induction ps as [|[k0 z] ps IH]; simpl; [reflexivity|].
  destruct (str_eqb k k0) eqn:E; simpl; rewrite E; [reflexivity|].
  now rewrite IH.
Qed.

Lemma replace_prop_same (k : jsstring) (x : value) ps :
  lookup k ps = Some x -> replace_prop k x ps = ps.
Proof.
  induction ps as [|[k0 z] ps IH]; simpl; [reflexivity|].
  destruct (str_eqb k k0) eqn:E.
  - intros [= ->]. reflexivity.
  - intros H. now rewrite IH.
Qed.

Lemma get_set_prop_other (v : value) (k k' : jsstring) (x : value) :
  str_eqb k' k = false -> get (set_prop v k x) k' = get v k'.
Proof.
  intros Hk. destruct v; try reflexivity.
  unfold get, lookup_or_undefined; simpl. now rewrite lookup_replace_other.
Qed.

Lemma get_obj (ps : list (jsstring * value)) (k : jsstring) :
  get (VObj ps) k = match lookup k ps with Some x => x | None => VUndefined end.
Proof. reflexivity. Qed.

Lemma nullish_set_prop (v : value) (k : jsstring) (x : value) :
  nullish (set_prop v k x) = nullish v.
Proof. destruct v; reflexivity. Qed.

(** A property that reads as something other than [undefined] on an
    object is an own property. *)
Lemma get_obj_defined ps (k : jsstring) :
  is_undefined (get (VObj ps) k) = false -> lookup k ps = Some (get (VObj ps) k).
Proof.
  rewrite get_obj. destruct (lookup k ps); [reflexivity|discriminate].
Qed.

(** *** The default comparator *)

Lemma sort_before_asym (x y : value) :
  sort_before x y = true -> sort_before y x = false.
Proof.
  unfold sort_before.
  destruct (is_undefined x), (is_undefined y); try discriminate; try reflexivity.
  apply str_ltb_asym.
Qed.

Lemma str_ltb_neg_trans (a b c : jsstring) :
  str_ltb a b = false -> str_ltb a c = true -> str_ltb b c = true.
Proof.
  intros Hab Hac. destruct (str_ltb b a) eqn:Hba.
  - eapply str_ltb_trans; eassumption.
  - now rewrite <- (str_ltb_total a b Hab Hba).
Qed.

Lemma sort_before_neg_trans (x y z : value) :
  sort_before z x = false -> sort_before z y = true -> sort_before x y = true.
Proof.
  unfold sort_before.
  destruct (is_undefined z), (is_undefined x), (is_undefined y);
    try discriminate; try reflexivity.
  apply str_ltb_neg_trans.
Qed.

(** *** [sort] returns an ordered list and leaves an ordered list alone *)

Lemma sort_insert_ordered (x : value) (l : list value) :
  ordered l -> ordered (sort_insert x l).
Proof.
  unfold ordered. induction 1 as [|y l Hl IH Hhd]; simpl.
  - repeat constructor.
  - destruct (sort_before y x) eqn:E.
    + constructor; [exact IH|].
      destruct l as [|z l]; simpl.
      * constructor. now apply sort_before_asym.
      * inversion Hhd; subst.
        destruct (sort_before z x); constructor;
          [assumption | now apply sort_before_asym].
    + constructor; [constructor; assumption|]. constructor. exact E.
Qed.

Lemma sort_list_ordered (l : list value) : ordered (sort_list l).
Proof.
  induction l as [|x l IH]; simpl; [constructor|].
  now apply sort_insert_ordered.
Qed.

Lemma sort_list_fixed (l : list value) : ordered l -> sort_list l = l.
Proof.
  unfold ordered. induction 1 as [|x l Hl IH Hhd]; simpl; [reflexivity|].
  rewrite IH. destruct Hhd as [|y l E]; simpl; [reflexivity|].
  now rewrite E.
Qed.

(** Sorting twice is sorting once. *)
Lemma sort_list_idem (l : list value) : sort_list (sort_list l) = sort_list l.
Proof. apply sort_list_fixed, sort_list_ordered. Qed.

(** *** [sort] and permutations *)

Lemma sort_insert_comm (x y : value) (l : list value) :
  (sort_before x y = false -> sort_before y x = false -> x = y) ->
  sort_insert x (sort_insert y l) = sort_insert y (sort_insert x l).
Proof.
  intros Heq. induction l as [|z l IH]; simpl.
  - destruct (sort_before y x) eqn:Eyx, (sort_before x y) eqn:Exy;
      try reflexivity.
    + apply sort_before_asym in Eyx. congruence.
    + now rewrite (Heq eq_refl eq_refl).
  - destruct (sort_before z y) eqn:Ezy, (sort_before z x) eqn:Ezx; simpl;
      rewrite ?Ezy, ?Ezx.
    + now rewrite IH.
    + rewrite (sort_before_neg_trans _ _ _ Ezx Ezy). simpl.
      now rewrite ?Ezy.
    + rewrite (sort_before_neg_trans _ _ _ Ezy Ezx). simpl.
      now rewrite ?Ezx.
    + destruct (sort_before y x) eqn:Eyx, (sort_before x y) eqn:Exy; simpl;
        rewrite ?Ezx, ?Ezy; try reflexivity.
      * apply sort_before_asym in Eyx. congruence.
      * now rewrite (Heq eq_refl eq_refl).
Qed.

Lemma sort_before_strings (a b : jsstring) :
  sort_before (VStr a) (VStr b) = str_ltb a b.
Proof. reflexivity. Qed.

(** On arrays of strings the result of [sort] does not depend on the
    order of the input. *)
Lemma sort_list_strings_perm (l l' : list jsstring) :
  Permutation l l' -> sort_list (map VStr l) = sort_list (map VStr l').
Proof.
  induction 1 as [|a l l' _ IH|a b l|l1 l2 l3 _ IH1 _ IH2]; simpl.
  - reflexivity.
  - now rewrite IH.
  - apply sort_insert_comm. rewrite !sort_before_strings.
    intros H1 H2. f_equal. symmetry. now apply str_ltb_total.
  - congruence.
Qed.

(** *** [join] *)

Lemma join_elem_string (s : jsstring) : join_elem (VStr s) = s.
Proof. reflexivity. Qed.

End Values.
End JsFacts.

(* ================================================================== *)
(** * [AdvancedBrowserFingerprint.getHash]: what it reads and writes *)
(* ================================================================== *)

Module AdvancedBrowserHashFacts.
Import Js Djb2 JsStringFacts JsFacts AdvancedBrowserFingerprint.

Ltac in_fields :=
  apply in_map; simpl; repeat first [left; reflexivity | right].

Ltac not_volatile :=
  let H := fresh in intro H; vm_compute in H; intuition discriminate.

Section Engine.
Context {F : Float64}.

Lemma fst_getHash (fp : value) :
  fst (getHash fp) =
  (fs <- fst (stableFeatures fp) ;; Normal (hashString (canonical fs))).
Proof. unfold getHash. destruct (stableFeatures fp). reflexivity. Qed.

Lemma snd_getHash (fp : value) : snd (getHash fp) = snd (stableFeatures fp).
Proof. unfold getHash. destruct (stableFeatures fp). reflexivity. Qed.

(** The features are determined by the seventeen fields of
    [read_fields], by two properties of [webgl], and by the sorted
    extension list. *)
Lemma stableFeatures_cong (fp1 fp2 : value) :
  nullish fp1 = nullish fp2 ->
  (forall k, In k read_fields -> get fp1 k = get fp2 k) ->
  opt_get (get fp1 (lit "webgl")) (lit "version") =
  opt_get (get fp2 (lit "webgl")) (lit "version") ->
  opt_get (get fp1 (lit "webgl")) (lit "shadingLanguageVersion") =
  opt_get (get fp2 (lit "webgl")) (lit "shadingLanguageVersion") ->
  array_sort (or_else (webgl_extensions fp1) (VArr [])) =
  array_sort (or_else (webgl_extensions fp2) (VArr [])) ->
  fst (stableFeatures fp1) = fst (stableFeatures fp2).
Proof.
  intros Hnull H Hver Hshad Hsort.
  unfold stableFeatures. rewrite Hnull.
  destruct (nullish fp2); [reflexivity|].
  rewrite Hsort.
  destruct (array_sort (or_else (webgl_extensions fp2) (VArr [])))
    as [sorted|e]; [|reflexivity].
  unfold fst, audioSum_toFixed. cbv zeta.
  rewrite Hver, Hshad.
  rewrite ?(H (lit "webglRenderer")) by in_fields.
  rewrite ?(H (lit "webglVendor")) by in_fields.
  rewrite ?(H (lit "audio")) by in_fields.
  rewrite ?(H (lit "canvas")) by in_fields.
  rewrite ?(H (lit "hardwareConcurrency")) by in_fields.
  rewrite ?(H (lit "deviceMemory")) by in_fields.
  rewrite ?(H (lit "screen")) by in_fields.
  rewrite ?(H (lit "timezone")) by in_fields.
  rewrite ?(H (lit "languages")) by in_fields.
  rewrite ?(H (lit "mathConstants")) by in_fields.
  rewrite ?(H (lit "canvasTextMetrics")) by in_fields.
  rewrite ?(H (lit "navigator")) by in_fields.
  rewrite ?(H (lit "maxTouchPoints")) by in_fields.
  rewrite ?(H (lit "speechSynthesis")) by in_fields.
  rewrite ?(H (lit "plugins")) by in_fields.
  rewrite ?(H (lit "errorStack")) by in_fields.
  rewrite ?(H (lit "domRect")) by in_fields.
  reflexivity.
Qed.

Lemma read_fields_not_webgl (k : jsstring) :
  In k read_fields -> str_eqb k (lit "webgl") = false.
Proof.
  unfold read_fields. simpl.
  intros H. repeat destruct H as [<-|H]; try reflexivity. contradiction.
Qed.

Lemma read_fields_not_volatile (k : jsstring) :
  In k read_fields -> ~ In k volatile.
Proof.
  unfold read_fields. simpl.
  intros H. repeat destruct H as [<-|H]; try not_volatile.
Qed.

Lemma webgl_not_volatile : ~ In (lit "webgl") volatile.
Proof. not_volatile. Qed.

(** *** Storing an extension list in the record *)

Lemma get_store_other (fp x : value) (k : jsstring) :
  str_eqb k (lit "webgl") = false -> get (store_extensions fp x) k = get fp k.
Proof. intros H. unfold store_extensions. now apply get_set_prop_other. Qed.

Lemma nullish_store (fp x : value) :
  nullish (store_extensions fp x) = nullish fp.
Proof. apply nullish_set_prop. Qed.

Lemma set_prop_twice (v : value) (k : jsstring) (x y : value) :
  set_prop (set_prop v k x) k y = set_prop v k y.
Proof. destruct v; try reflexivity. simpl. now rewrite replace_prop_twice. Qed.

Lemma get_store_webgl ps (x : value) :
  get (store_extensions (VObj ps) x) (lit "webgl") =
  set_prop (get (VObj ps) (lit "webgl")) (lit "extensions") x.
Proof.
  unfold store_extensions. simpl set_prop at 1. rewrite !get_obj.
  unfold lookup_or_undefined.
  destruct (lookup (lit "webgl") ps) as [w|] eqn:E.
  - now rewrite (lookup_replace_same _ _ _ _ E).
  - now rewrite (lookup_replace_none _ _ _ E).
Qed.

Lemma store_twice (fp x y : value) :
  store_extensions (store_extensions fp x) y = store_extensions fp y.
Proof.
  destruct fp as [| | | | | | |ps]; try reflexivity.
  unfold store_extensions at 1. rewrite get_store_webgl, set_prop_twice.
  unfold store_extensions. simpl. now rewrite replace_prop_twice.
Qed.

(** When the record holds an extension array, storing another array
    either changes nothing at all or makes that array the one read
    back. *)
Lemma store_extensions_cases (fp : value) (l0 l1 : list value) :
  webgl_extensions fp = VArr l0 ->
  store_extensions fp (VArr l1) = fp \/
  (webgl_extensions (store_extensions fp (VArr l1)) = VArr l1 /\
   forall k, str_eqb k (lit "extensions") = false ->
     opt_get (get (store_extensions fp (VArr l1)) (lit "webgl")) k =
     opt_get (get fp (lit "webgl")) k).
Proof.
  intros Hext.
  destruct fp as [| | | | | | |ps]; try (left; reflexivity).
  unfold webgl_extensions, opt_get in Hext.
  destruct (nullish (get (VObj ps) (lit "webgl"))) eqn:Hn; [discriminate|].
  assert (Hw : lookup (lit "webgl") ps = Some (get (VObj ps) (lit "webgl"))).
  { apply get_obj_defined.
    destruct (get (VObj ps) (lit "webgl")); try reflexivity; discriminate. }
  destruct (get (VObj ps) (lit "webgl")) as [| | | | | | |qs] eqn:Ew;
    try (left; unfold store_extensions; rewrite Ew; simpl;
         now rewrite replace_prop_same).
  right.
  assert (Hq : lookup (lit "extensions") qs = Some (VArr l0)).
  { rewrite <- Hext. apply get_obj_defined. now rewrite Hext. }
  unfold webgl_extensions.
  rewrite get_store_webgl, Ew. simpl set_prop.
  split.
  - unfold opt_get. simpl nullish. rewrite get_obj.
    now rewrite (lookup_replace_same _ _ _ _ Hq).
  - intros k Hk. unfold opt_get. simpl nullish.
    rewrite !get_obj. now rewrite lookup_replace_other.
Qed.

(** Replacing the stored extension list by one with the same sorted
    form does not change the features. *)
Lemma stableFeatures_store (fp : value) (l0 l1 : list value) :
  webgl_extensions fp = VArr l0 ->
  sort_list l1 = sort_list l0 ->
  fst (stableFeatures (store_extensions fp (VArr l1))) = fst (stableFeatures fp).
Proof.
  intros Hext Hsort.
  destruct (store_extensions_cases fp l0 l1 Hext) as [->|[Hnew Hother]];
    [reflexivity|].
  apply stableFeatures_cong.
  - apply nullish_store.
  - intros k Hk. apply get_store_other. now apply read_fields_not_webgl.
  - now apply Hother.
  - now apply Hother.
  - rewrite Hnew, Hext. unfold or_else; simpl. now rewrite Hsort.
Qed.

(** The state [getHash] leaves behind. *)
Lemma snd_stableFeatures (fp : value) :
  snd (stableFeatures fp) = fp \/
  exists l0, webgl_extensions fp = VArr l0 /\
             snd (stableFeatures fp) = store_extensions fp (VArr (sort_list l0)).
Proof.
  unfold stableFeatures.
  destruct (nullish fp); [left; reflexivity|].
  destruct (webgl_extensions fp) as [| | | | | |l0|] eqn:E;
    try (left;
         match goal with
         | |- snd (match ?c with _ => _ end) = _ => destruct c
         end; unfold snd, after_sort; rewrite ?E; reflexivity).
  right. exists l0. split; [reflexivity|].
  unfold or_else; simpl. unfold after_sort. now rewrite E.
Qed.

End Engine.
End AdvancedBrowserHashFacts.

(* ================================================================== *)
(** * [AdvancedBrowserFingerprint]: the hash *)
(* ================================================================== *)

Module AdvancedBrowserHash.
Import Js Radix Djb2 JsStringFacts JsFacts Djb2Facts.
Import AdvancedBrowserFingerprint AdvancedBrowserHashFacts Samples.

Section Engine.
Context {F : Float64}.

(** Agreement of two property lists outside a set of keys. *)
Lemma lookup_agree (skip : list jsstring) ps1 ps2 :
  Forall2 (fun p q : jsstring * value =>
             fst p = fst q /\ (In (fst p) skip \/ snd p = snd q)) ps1 ps2 ->
  forall k, ~ In k skip -> lookup k ps1 = lookup k ps2.
Proof.
  induction 1 as [|[k1 x1] [k2 x2] ps1 ps2 [Hk Hx] _ IH]; intros k Hnot;
    simpl in *; [reflexivity|].
  subst k2. destruct (str_eqb k k1) eqn:E.
  - apply str_eqb_eq in E; subst k1.
    destruct Hx as [Hin | ->]; [contradiction|reflexivity].
  - now apply IH.
Qed.

Lemma get_agree (skip : list jsstring) ps1 ps2 :
  Forall2 (fun p q : jsstring * value =>
             fst p = fst q /\ (In (fst p) skip \/ snd p = snd q)) ps1 ps2 ->
  forall k, ~ In k skip -> get (VObj ps1) k = get (VObj ps2) k.
Proof.
  intros H k Hk. rewrite !get_obj. now rewrite (lookup_agree skip ps1 ps2 H k Hk).
Qed.

(** [getHash] returns exactly on hashable records. *)
Lemma stableFeatures_returns (fp : value) :
  if hashable fp
  then exists fs, fst (stableFeatures fp) = Normal fs
  else fst (stableFeatures fp) = Throw TypeError.
Proof.
  unfold hashable, stableFeatures, audioSum_ok, audioSum_toFixed.
  destruct (nullish fp); [reflexivity|]. cbn [negb andb].
  destruct (or_else (webgl_extensions fp) (VArr [])) as [| | | | | |exts|];
    try reflexivity.
  cbn [is_array andb array_sort fst array_join bind].
  destruct (nullish (get fp (lit "audio"))); cbn [orb andb bind].
  - destruct (or_else (opt_get (get fp (lit "languages")) (lit "languages"))
                      (VArr [])); cbn [is_array array_join bind];
      try reflexivity; eexists; reflexivity.
  - destruct (get (get fp (lit "audio")) (lit "audioSum"));
      cbn [nullish is_number orb andb toFixed bind]; try reflexivity;
      destruct (or_else (opt_get (get fp (lit "languages")) (lit "languages"))
                        (VArr [])); cbn [is_array array_join bind];
      try reflexivity; eexists; reflexivity.
Qed.

(** C10.  On an instance whose [generate] has never run the record is
    [{}]; [getHash] then completes normally, leaves the record as it is,
    and returns the hash of the canonical string in which every field is
    a sentinel. *)
Theorem getHash_before_generate :
  exists fs,
    stableFeatures constructor = (Normal fs, constructor) /\
    canonical fs =
      lit ("webgl:undefined|webgl_vendor:undefined||||audio:|audio_sr:|" ++
           "audio_ch:|canvas:|hw_cores:|hw_mem:|screen:undefinedxundefined|" ++
           "screen_depth:undefined|screen_dpr:undefined|tz:|tz_offset:|" ++
           "lang:|math_tan:|math_sin:|math_acos:|{}|platform:|vendor:|" ++
           "touch:0|speech:0|plugins:0|error:|rect:x") /\
    getHash constructor = (Normal (hashString (canonical fs)), constructor) /\
    hashString (canonical fs) = lit "c2429606".
Proof.
  eexists. split; [vm_compute; reflexivity|].
  split; [vm_compute; reflexivity|].
  split; vm_compute; reflexivity.
Qed.

(** C6.  Two records that agree on every field other than [battery],
    [network], [performance] and [storageQuota] get the same result
    from [getHash]. *)
Theorem getHash_ignores_volatile ps1 ps2 :
  (forall k, ~ In k volatile -> get (VObj ps1) k = get (VObj ps2) k) ->
  fst (getHash (VObj ps1)) = fst (getHash (VObj ps2)).
Proof.
  intros H. rewrite !fst_getHash. f_equal.
  assert (Hw : get (VObj ps1) (lit "webgl") = get (VObj ps2) (lit "webgl"))
    by (apply H, webgl_not_volatile).
  apply stableFeatures_cong; unfold webgl_extensions; rewrite ?Hw;
    try reflexivity.
  intros k Hk. apply H. now apply read_fields_not_volatile.
Qed.

(** C9.  A second call of [getHash], on the state the first call left,
    returns the same result and leaves the same state; the result is
    computed from the stable features alone. *)
Theorem getHash_repeatable (fp : value) :
  fst (getHash (snd (getHash fp))) = fst (getHash fp) /\
  snd (getHash (snd (getHash fp))) = snd (getHash fp) /\
  fst (getHash fp) =
    (fs <- fst (stableFeatures fp) ;; Normal (hashString (canonical fs))).
Proof.
  split; [|split; [|apply fst_getHash]].
  - rewrite !fst_getHash, snd_getHash. f_equal.
    destruct (snd_stableFeatures fp) as [->|[l0 [Hext ->]]]; [reflexivity|].
    apply (stableFeatures_store fp l0); [assumption|apply sort_list_idem].
  - rewrite !snd_getHash.
    destruct (snd_stableFeatures fp) as [E|[l0 [Hext E]]]; rewrite E.
    + exact E.
    + destruct (store_extensions_cases fp l0 (sort_list l0) Hext)
        as [Hsame|[Hnew _]].
      * rewrite Hsame, E. exact Hsame.
      * destruct (snd_stableFeatures (store_extensions fp (VArr (sort_list l0))))
          as [E'|[l1 [Hext' E']]]; [exact E'|].
        rewrite E', store_twice. rewrite Hnew in Hext'.
        injection Hext' as <-. now rewrite sort_list_idem.
Qed.

End Engine.
End AdvancedBrowserHash.

(* ================================================================== *)
(** * [AdvancedCSSFingerprint.getHash] *)
(* ================================================================== *)

Module AdvancedCSSFacts.
Import Js Djb2 JsStringFacts JsFacts AdvancedCSSFingerprint.

Ltac in_fields :=
  apply in_map; simpl; repeat first [left; reflexivity | right].

Section Engine.
Context {F : Float64}.

(** The features are determined by the sixteen fields of [read_fields],
    by the length of the font list and by its first ten entries,
    sorted. *)
Lemma features_cong (r1 r2 : value) :
  nullish r1 = nullish r2 ->
  (forall k, In k read_fields -> get r1 k = get r2 k) ->
  or_else (opt_get (get r1 (lit "fonts")) (lit "length")) (VInt 0) =
  or_else (opt_get (get r2 (lit "fonts")) (lit "length")) (VInt 0) ->
  slice10_sort (or_else (get r1 (lit "fonts")) (VArr [])) =
  slice10_sort (or_else (get r2 (lit "fonts")) (VArr [])) ->
  features r1 = features r2.
Proof.
  intros Hnull H Hlen Hslice.
  unfold features. rewrite Hnull.
  destruct (nullish r2); [reflexivity|].
  cbv zeta. rewrite Hslice, Hlen.
  rewrite ?(H (lit "colorScheme")) by in_fields.
  rewrite ?(H (lit "prefersReducedMotion")) by in_fields.
  rewrite ?(H (lit "prefersContrast")) by in_fields.
  rewrite ?(H (lit "forcedColors")) by in_fields.
  rewrite ?(H (lit "invertedColors")) by in_fields.
  rewrite ?(H (lit "orientation")) by in_fields.
  rewrite ?(H (lit "pointerType")) by in_fields.
  rewrite ?(H (lit "hoverCapability")) by in_fields.
  rewrite ?(H (lit "displayMode")) by in_fields.
  rewrite ?(H (lit "screenResolution")) by in_fields.
  rewrite ?(H (lit "devicePixelRatio")) by in_fields.
  rewrite ?(H (lit "colorGamut")) by in_fields.
  rewrite ?(H (lit "dynamicRange")) by in_fields.
  rewrite ?(H (lit "monochrome")) by in_fields.
  rewrite ?(H (lit "grid")) by in_fields.
  rewrite ?(H (lit "update")) by in_fields.
  reflexivity.
Qed.

Lemma read_fields_not_fonts (k : jsstring) :
  In k read_fields -> str_eqb k (lit "fonts") = false.
Proof.
  unfold read_fields. simpl.
  intros H. repeat destruct H as [<-|H]; try reflexivity. contradiction.
Qed.

Lemma array_length (l : list value) :
  or_else (opt_get (VArr l) (lit "length")) (VInt 0) =
  VInt (Z.of_nat (length l)).
Proof.
  unfold opt_get, get. simpl nullish. cbv iota.
  rewrite str_eqb_refl. unfold or_else, truthy.
  destruct l; [reflexivity|].
  now replace (Z.of_nat (length (v :: l)) =? 0) with false
    by (symmetry; apply Z.eqb_neq; simpl length; lia).
Qed.

(** Replacing the font list by another one of the same length whose
    first ten entries are a rearrangement of the first ten entries of
    the old one does not change the features. *)
Lemma features_fonts_perm (r : value) (l l' : list jsstring) :
  get r (lit "fonts") = VArr (map VStr l) ->
  length l = length l' ->
  Permutation (firstn 10 l) (firstn 10 l') ->
  features (set_prop r (lit "fonts") (VArr (map VStr l'))) = features r.
Proof.
  intros Hfonts Hlen Hperm.
  destruct r as [| | | | | | |ps]; try reflexivity.
  assert (Hlk : lookup (lit "fonts") ps = Some (VArr (map VStr l))).
  { rewrite <- Hfonts. apply get_obj_defined. now rewrite Hfonts. }
  assert (Hnew : get (set_prop (VObj ps) (lit "fonts") (VArr (map VStr l')))
                     (lit "fonts") = VArr (map VStr l')).
  { simpl set_prop. rewrite get_obj.
    now rewrite (lookup_replace_same _ _ _ _ Hlk). }
  apply features_cong.
  - reflexivity.
  - intros k Hk. apply get_set_prop_other. now apply read_fields_not_fonts.
  - rewrite Hnew, Hfonts, !array_length, !length_map. now rewrite Hlen.
  - rewrite Hnew, Hfonts. unfold or_else, truthy, slice10_sort.
    rewrite !firstn_map. f_equal. now apply sort_list_strings_perm.
Qed.

Lemma features_returns (r : value) :
  if hashable r then exists fs, features r = Normal fs
  else features r = Throw TypeError.
Proof.
  unfold hashable, features.
  destruct (nullish r); [reflexivity|]. cbn [negb andb]. cbv zeta.
  destruct (or_else (get r (lit "fonts")) (VArr []));
    cbn [is_array slice10_sort bind]; try reflexivity.
  eexists; reflexivity.
Qed.

End Engine.
End AdvancedCSSFacts.

(* ================================================================== *)
(** * [CSSFingerprint.getHash] *)
(* ================================================================== *)

Module CSSFacts.
Import Js Djb2 JsStringFacts JsFacts CSSFingerprint.

Ltac in_fields :=
  apply in_map; simpl; repeat first [left; reflexivity | right].

Section Engine.
Context {F : Float64}.

(** With distinct keys, the order of the properties does not matter
    for reading one of them. *)
Lemma lookup_perm ps ps' (k : jsstring) :
  NoDup (map fst ps) -> Permutation ps ps' -> lookup k ps = lookup k ps'.
Proof.
  intros Hnd Hperm. revert Hnd.
  induction Hperm as [|[k0 x] ps ps' Hp IH|[k1 x] [k2 y] ps|ps1 ps2 ps3 H1 IH1 H2 IH2];
    intros Hnd; simpl in *.
  - reflexivity.
  - inversion Hnd; subst. destruct (str_eqb k k0); auto.
  - inversion Hnd as [|? ? Hnot _]; subst.
    destruct (str_eqb k k2) eqn:E2, (str_eqb k k1) eqn:E1; try reflexivity.
    apply str_eqb_eq in E1, E2. subst. exfalso. apply Hnot. now left.
  - rewrite IH1 by assumption. apply IH2.
    eapply Permutation_NoDup; [|exact Hnd]. now apply Permutation_map.
Qed.

Lemma sorted_keys_perm ps ps' :
  Permutation ps ps' -> sorted_keys (VObj ps) = sorted_keys (VObj ps').
Proof.
  intros H. unfold sorted_keys, or_else, truthy, object_keys, own_props.
  apply sort_list_strings_perm. now apply Permutation_map.
Qed.

Lemma get_perm ps ps' (k : jsstring) :
  NoDup (map fst ps) -> Permutation ps ps' -> get (VObj ps) k = get (VObj ps') k.
Proof. intros Hnd H. rewrite !get_obj. now rewrite (lookup_perm ps ps' k Hnd H). Qed.

Lemma keyed_perm (label : string) ps ps' :
  NoDup (map fst ps) -> Permutation ps ps' ->
  keyed label (VObj ps) = keyed label (VObj ps').
Proof.
  intros Hnd H. unfold keyed. rewrite (sorted_keys_perm ps ps' H).
  apply map_ext. intros key. now rewrite (get_perm ps ps' _ Hnd H).
Qed.

Lemma map_c_ext {A B : Type} (f g : A -> completion B) (l : list A) :
  (forall x, f x = g x) -> map_c f l = map_c g l.
Proof.
  intros H. induction l as [|x l IH]; simpl; [reflexivity|].
  now rewrite H, IH.
Qed.

Lemma fontMetric_features_perm ps ps' :
  NoDup (map fst ps) -> Permutation ps ps' ->
  fontMetric_features (VObj ps) = fontMetric_features (VObj ps').
Proof.
  intros Hnd H. unfold fontMetric_features.
  rewrite (sorted_keys_perm ps ps' H).
  apply map_c_ext. intros key. unfold fontMetric_width.
  now rewrite (get_perm ps ps' _ Hnd H).
Qed.

(** The features are determined by the six fields of [scalar_fields],
    by the sorted traversal of the five fields of [keyed_fields], and by
    the sorted traversal of [fontMetrics]. *)
Lemma css_stableFeatures_cong (fp1 fp2 : value) :
  nullish fp1 = nullish fp2 ->
  (forall k, In k scalar_fields -> get fp1 k = get fp2 k) ->
  (forall label k, In k keyed_fields ->
     keyed label (get fp1 k) = keyed label (get fp2 k)) ->
  fontMetric_features (get fp1 (lit "fontMetrics")) =
  fontMetric_features (get fp2 (lit "fontMetrics")) ->
  stableFeatures fp1 = stableFeatures fp2.
Proof.
  intros Hnull H Hkeyed Hfm.
  unfold stableFeatures. rewrite Hnull.
  destruct (nullish fp2); [reflexivity|].
  cbv zeta. rewrite Hfm.
  rewrite ?(H (lit "scrollbar")) by in_fields.
  rewrite ?(H (lit "cssGrid")) by in_fields.
  rewrite ?(H (lit "cssVariables")) by in_fields.
  rewrite ?(H (lit "fontList")) by in_fields.
  rewrite ?(H (lit "boxShadow")) by in_fields.
  rewrite ?(H (lit "borderRadius")) by in_fields.
  rewrite ?(Hkeyed _ (lit "cssProperties")) by in_fields.
  rewrite ?(Hkeyed _ (lit "mediaQueries")) by in_fields.
  rewrite ?(Hkeyed _ (lit "cssFilters")) by in_fields.
  rewrite ?(Hkeyed _ (lit "cssBlending")) by in_fields.
  rewrite ?(Hkeyed _ (lit "emojiRendering")) by in_fields.
  reflexivity.
Qed.

Lemma scalar_not_map (k field : jsstring) :
  In k scalar_fields -> In field map_fields -> str_eqb k field = false.
Proof.
  unfold scalar_fields, map_fields, keyed_fields. simpl.
  intros Hk Hf.
  repeat destruct Hk as [<-|Hk]; try contradiction;
    repeat destruct Hf as [<-|Hf]; try contradiction; reflexivity.
Qed.

(** Reading a field after a map-valued field has been replaced. *)
Lemma get_after_replace qs (field k : jsstring) (m m' : value) :
  get (VObj qs) field = m -> is_undefined m = false ->
  get (set_prop (VObj qs) field m') k =
  if str_eqb k field then m' else get (VObj qs) k.
Proof.
  intros Hm Hdef. destruct (str_eqb k field) eqn:E.
  - apply str_eqb_eq in E; subst k. simpl set_prop. rewrite get_obj.
    assert (Hl : lookup field qs = Some m).
    { rewrite <- Hm. apply get_obj_defined. now rewrite Hm. }
    now rewrite (lookup_replace_same _ _ _ _ Hl).
  - now apply get_set_prop_other.
Qed.

(** Rearranging the properties of one of the map-valued fields does
    not change the features. *)
Lemma stableFeatures_map_perm (fp : value) (field : jsstring) ps ps' :
  In field map_fields ->
  get fp field = VObj ps ->
  NoDup (map fst ps) -> Permutation ps ps' ->
  stableFeatures (set_prop fp field (VObj ps')) = stableFeatures fp.
Proof.
  intros Hfield Hget Hnd Hperm.
  destruct fp as [| | | | | | |qs]; try reflexivity.
  assert (Hread : forall k,
             get (set_prop (VObj qs) field (VObj ps')) k =
             if str_eqb k field then VObj ps' else get (VObj qs) k)
    by (intros k; now apply (get_after_replace qs field k (VObj ps))).
  apply css_stableFeatures_cong.
  - reflexivity.
  - intros k Hk. rewrite Hread. now rewrite (scalar_not_map k field Hk Hfield).
  - intros label k _. rewrite Hread.
    destruct (str_eqb k field) eqn:E; [|reflexivity].
    apply str_eqb_eq in E; subst k. rewrite Hget.
    symmetry. now apply keyed_perm.
  - rewrite Hread.
    destruct (str_eqb (lit "fontMetrics") field) eqn:E; [|reflexivity].
    apply str_eqb_eq in E. rewrite E, Hget.
    symmetry. now apply fontMetric_features_perm.
Qed.

End Engine.
End CSSFacts.

(* ================================================================== *)
(** * List order and hash width *)
(* ================================================================== *)

Module CanonicalForm.
Import Js Radix Djb2 JsStringFacts JsFacts Djb2Facts Samples.

Section Engines.
Context {F : Float64}.

Lemma hashString_uint32_hex (str : jsstring) :
  uint32_hex (hashString str) /\
  (1 <= length (hashString str) <= 8)%nat /\
  Forall (fun c => is_lower_hex c = true) (hashString str).
Proof.
  split; [|split].
  - exists (loop str). split; [apply loop_range|reflexivity].
  - apply hashString_length.
  - apply hashString_chars.
Qed.

(** C3, as the code has it.  The extension list of
    [AdvancedBrowserFingerprint] is sorted before it is joined: storing
    any rearrangement of it in the record leaves the stable features,
    hence the canonical string and the hash, unchanged.  In
    [AdvancedCSSFingerprint] the font list is cut to its first ten
    entries and then sorted: a rearrangement that keeps the same fonts
    among the first ten leaves the features and the hash unchanged.  In
    [CSSFingerprint] the six map-valued fields are traversed by sorted
    key: rearranging the properties of one of them leaves the features
    and the hash unchanged. *)
Theorem sorted_lists_order_irrelevant :
  (forall (fp : value) (l l' : list jsstring),
     AdvancedBrowserFingerprint.webgl_extensions fp = VArr (map VStr l) ->
     Permutation l l' ->
     let fp' := AdvancedBrowserFingerprint.store_extensions fp (VArr (map VStr l')) in
     fst (AdvancedBrowserFingerprint.stableFeatures fp') =
     fst (AdvancedBrowserFingerprint.stableFeatures fp) /\
     fst (AdvancedBrowserFingerprint.getHash fp') =
     fst (AdvancedBrowserFingerprint.getHash fp)) /\
  (forall (r : value) (l l' : list jsstring),
     get r (lit "fonts") = VArr (map VStr l) ->
     Permutation l l' ->
     Permutation (firstn 10 l) (firstn 10 l') ->
     let r' := set_prop r (lit "fonts") (VArr (map VStr l')) in
     AdvancedCSSFingerprint.features r' = AdvancedCSSFingerprint.features r /\
     AdvancedCSSFingerprint.getHash r' = AdvancedCSSFingerprint.getHash r) /\
  (forall (fp : value) (field : jsstring) (ps ps' : list (jsstring * value)),
     In field CSSFingerprint.map_fields ->
     get fp field = VObj ps ->
     NoDup (map fst ps) ->
     Permutation ps ps' ->
     let fp' := set_prop fp field (VObj ps') in
     CSSFingerprint.stableFeatures fp' = CSSFingerprint.stableFeatures fp /\
     CSSFingerprint.getHash fp' = CSSFingerprint.getHash fp).
Proof.
  split; [|split].
  - intros fp l l' Hext Hperm fp'.
    assert (E : fst (AdvancedBrowserFingerprint.stableFeatures fp') =
                fst (AdvancedBrowserFingerprint.stableFeatures fp)).
    { apply (AdvancedBrowserHashFacts.stableFeatures_store fp (map VStr l));
        [assumption|].
      apply sort_list_strings_perm. now apply Permutation_sym. }
    split; [exact E|].
    rewrite !AdvancedBrowserHashFacts.fst_getHash. now rewrite E.
  - intros r l l' Hfonts Hperm Hten r'.
    assert (E : AdvancedCSSFingerprint.features r' =
                AdvancedCSSFingerprint.features r).
    { apply (AdvancedCSSFacts.features_fonts_perm r l l');
        [assumption|now apply Permutation_length|assumption]. }
    split; [exact E|].
    unfold AdvancedCSSFingerprint.getHash. now rewrite E.
  - intros fp field ps ps' Hfield Hget Hnd Hperm fp'.
    assert (E : CSSFingerprint.stableFeatures fp' =
                CSSFingerprint.stableFeatures fp)
      by now apply (CSSFacts.stableFeatures_map_perm fp field ps ps').
    split; [exact E|].
    unfold CSSFingerprint.getHash. now rewrite E.
Qed.

(** C7, as the code has it.  Every hash that [getHash] returns, in
    [AdvancedBrowserFingerprint] and in [AdvancedCSSFingerprint], is the
    [toString(16)] rendering of an unsigned 32-bit integer: between one
    and eight lower-case hexadecimal digits, not padded to a fixed
    width. *)
Theorem getHash_hex_natural_width (fp results : value) (h : jsstring) :
  fst (AdvancedBrowserFingerprint.getHash fp) = Normal h \/
  AdvancedCSSFingerprint.getHash results = Normal h ->
  uint32_hex h /\ (1 <= length h <= 8)%nat /\
  Forall (fun c => is_lower_hex c = true) h.
Proof.
  intros [H | H].
  - rewrite AdvancedBrowserHashFacts.fst_getHash in H.
    destruct (fst (AdvancedBrowserFingerprint.stableFeatures fp)) as [fs | e];
      cbn [bind] in H; [| discriminate].
    injection H as <-. apply hashString_uint32_hex.
  - unfold AdvancedCSSFingerprint.getHash in H.
    destruct (AdvancedCSSFingerprint.features results) as [fs | e];
      cbn [bind] in H; [| discriminate].
    injection H as <-. apply hashString_uint32_hex.
Qed.

End Engines.
End CanonicalForm.

(* ================================================================== *)
(** * [AdvancedBrowserFingerprint.generate] *)
(* ================================================================== *)

Module AdvancedBrowserGenerate.
Import Js Promise AdvancedBrowserFingerprint Samples.

Section Engine.
Context {F : Float64}.

Lemma detect_contained (h : host) (p : probe) :
  if contained h p then detect h p = Fulfilled (settled_value h p)
  else exists e, detect h p = Rejected e.
Proof.
  unfold contained, detect, settled_value, settle_async.
  destruct (body h p) as [v|e|e].
  - reflexivity.
  - destruct (guarded p); [reflexivity|now exists e].
  - now exists e.
Qed.

Lemma promise_all_probes (h : host) (ps : list probe) :
  if forallb (contained h) ps
  then promise_all (map (detect h) ps) = Fulfilled (map (settled_value h) ps)
  else exists e, promise_all (map (detect h) ps) = Rejected e.
Proof.
  induction ps as [|p ps IH]; simpl; [reflexivity|].
  pose proof (detect_contained h p) as Hp.
  destruct (contained h p); simpl.
  - rewrite Hp. destruct (forallb (contained h) ps).
    + now rewrite IH.
    + destruct IH as [e ->]. now exists e.
  - destruct Hp as [e ->]. now exists e.
Qed.

(** Without [navigator.plugins] the promise of [detectPlugins]
    rejects. *)
Lemma detectPlugins_rejects (h : host) :
  navigator_plugins h = None -> detect h detectPlugins = Rejected TypeError.
Proof.
  intros H. unfold detect, body, detectPlugins_body. now rewrite H.
Qed.

(** A rejected probe makes [generate] reject. *)
Lemma generate_rejects (h : host) (this : value) (p : probe) :
  contained h p = false ->
  exists e, generate h this = (Rejected e, this).
Proof.
  intros Hp. unfold generate.
  pose proof (promise_all_probes h probes) as H.
  replace (forallb (contained h) probes) with false in H.
  - destruct H as [e ->]. now exists e.
  - symmetry. apply not_true_is_false. intros Hall.
    rewrite forallb_forall in Hall.
    assert (Hin : In p probes) by (destruct p; simpl; tauto).
    rewrite (Hall p Hin) in Hp. discriminate.
Qed.

(** On every host without [navigator.plugins], [generate] rejects and
    stores nothing. *)
Lemma generate_needs_plugins (h : host) (this : value) :
  navigator_plugins h = None ->
  exists e, generate h this = (Rejected e, this).
Proof.
  intros H. apply (generate_rejects h this detectPlugins).
  unfold contained, body, detectPlugins_body. now rewrite H.
Qed.

(** The object literal of [generate] has the thirty keys of the schema
    whatever the probe results are.  When no probe rejects, [generate]
    fulfils with that record and stores it, a probe that threw inside
    its [try] contributing [null]; otherwise [generate] rejects and no
    record is produced. *)
Lemma generate_keys_when_contained (h : host) (this : value) :
  (forall results, object_keys (assemble results) = schema) /\
  (if forallb (contained h) probes
   then let record := assemble (map (settled_value h) probes) in
        generate h this = (Fulfilled record, record) /\
        object_keys record = schema
   else exists e, generate h this = (Rejected e, this)).
Proof.
  split; [reflexivity|].
  pose proof (promise_all_probes h probes) as H. unfold generate.
  destruct (forallb (contained h) probes).
  - rewrite H. split; reflexivity.
  - destruct H as [e ->]. now exists e.
Qed.

End Engine.

(** C1, at the failing host.  With [navigator.plugins] undefined the
    [TypeError] raised in [detectPlugins] is not caught: the promise of
    [generate] rejects and [this.fingerprint] stays [{}], although every
    other probe returned. *)
Theorem generate_rejects_without_plugins :
  detect host_without_plugins detectPlugins = Rejected TypeError /\
  generate host_without_plugins constructor = (Rejected TypeError, constructor) /\
  (forall p, p <> detectPlugins ->
     detect host_without_plugins p = Fulfilled VNull).
Proof.
  split; [reflexivity|]. split; [reflexivity|].
  intros p Hp. destruct p; try reflexivity. contradiction.
Qed.

(** Probes that throw inside their [try] are isolated: the record is
    complete, with [null] in their fields. *)
Lemma generate_isolates_guarded_probes :
  generate host_all_guarded_fail constructor =
  (Fulfilled (assemble (map (fun p => if guarded p then VNull
                                      else match p with
                                           | detectPlugins => VArr []
                                           | _ => VNull
                                           end) probes)),
   assemble (map (settled_value host_all_guarded_fail) probes)).
Proof. reflexivity. Qed.

(** C8, at the failing host.  The object literal of [generate] has the
    thirty keys of the schema whatever the probe results are, and a host
    on which every guarded probe throws gets that record.  With
    [navigator.plugins] undefined no record is returned: the promise of
    [generate] rejects and [this.fingerprint] stays [{}], which has none
    of the thirty keys. *)
Theorem generate_without_plugins_has_no_keys :
  (forall results : list value, object_keys (assemble results) = schema) /\
  (exists record,
     generate host_all_guarded_fail constructor = (Fulfilled record, record) /\
     object_keys record = schema) /\
  contained host_without_plugins detectPlugins = false /\
  generate host_without_plugins constructor = (Rejected TypeError, constructor) /\
  object_keys (snd (generate host_without_plugins constructor)) = [] /\
  object_keys (snd (generate host_without_plugins constructor)) <> schema.
Proof.
  split; [reflexivity |].
  split; [eexists; split; reflexivity |].
  split; [reflexivity |].
  split; [reflexivity |].
  split; [reflexivity | discriminate].
Qed.

End AdvancedBrowserGenerate.

(* ================================================================== *)
(** * [CombinedCSSFingerprint] *)
(* ================================================================== *)

Module CombinedFacts.
Import Js Promise Radix Djb2 Djb2Facts Samples CombinedCSSFingerprint.

Section Engine.
Context {F : Float64}.

Lemma fresh_basic_hash :
  CSSFingerprint.getHash CSSFingerprint.constructor = Normal (lit "37d4172b").
Proof. vm_compute. reflexivity. Qed.

Lemma fresh_advanced_hash :
  AdvancedCSSFingerprint.getHash AdvancedCSSFingerprint.constructor =
  Normal (lit "83132084").
Proof. vm_compute. reflexivity. Qed.

(** The combined hash is computed from the two per-engine hashes. *)
Lemma getCombinedHash_of_hashes (b1 a1 b2 a2 : value) :
  CSSFingerprint.getHash b1 = CSSFingerprint.getHash b2 ->
  AdvancedCSSFingerprint.getHash a1 = AdvancedCSSFingerprint.getHash a2 ->
  getCombinedHash b1 a1 = getCombinedHash b2 a2.
Proof. intros H1 H2. unfold getCombinedHash. now rewrite H1, H2. Qed.

(** C4, as the code has it.  Two runs whose engines have the same stable
    features get the same combined hash; so the combined hash changes
    only if the stable features of some engine change. *)
Theorem getCombinedHash_same_features (b1 a1 b2 a2 : value) :
  CSSFingerprint.stableFeatures b1 = CSSFingerprint.stableFeatures b2 ->
  AdvancedCSSFingerprint.features a1 = AdvancedCSSFingerprint.features a2 ->
  getCombinedHash b1 a1 = getCombinedHash b2 a2.
Proof.
  intros H1 H2. apply getCombinedHash_of_hashes.
  - unfold CSSFingerprint.getHash. now rewrite H1.
  - unfold AdvancedCSSFingerprint.getHash. now rewrite H2.
Qed.


End Engine.
End CombinedFacts.

(* ================================================================== *)
(** * The fold inside the engines *)
(* ================================================================== *)

Module HashFold.
Import Js Int32 Radix Djb2 Djb2Facts.

Section Engines.
Context {F : Float64}.

(** C2.  One iteration of the loop, written with [<<], [+] and
    [>>> 0], computes [(33 * h + c) mod 2^32]; from 5381 the loop is the
    reference djb2 fold over the code units of the string; the returned
    string is the lower-case hexadecimal rendering of that unsigned
    32-bit integer (reading the digits back gives the integer).  Both
    [AdvancedBrowserFingerprint.getHash] and [CSSFingerprint.getHash]
    return this rendering for their canonical string. *)
Theorem getHash_fold_is_djb2 (str : jsstring) (fp : value) :
  (forall hash c, step hash c = (33 * hash + c) mod 2 ^ 32) /\
  loop str = djb2 str /\
  0 <= djb2 str < 2 ^ 32 /\
  hashString str = int_toString 16 (djb2 str) /\
  parse_digits 16 (hashString str) = djb2 str /\
  Forall (fun c => is_lower_hex c = true) (hashString str) /\
  fst (AdvancedBrowserFingerprint.getHash fp) =
    (fs <- fst (AdvancedBrowserFingerprint.stableFeatures fp) ;;
     Normal (int_toString 16 (djb2 (AdvancedBrowserFingerprint.canonical fs)))) /\
  CSSFingerprint.getHash fp =
    (fs <- CSSFingerprint.stableFeatures fp ;;
     Normal (int_toString 16 (djb2 (CSSFingerprint.canonical fs)))).
Proof.
  destruct (loop_is_djb2 str) as (H1 & H2 & H3 & H4 & H5 & H6).
  repeat (split; [assumption|]). split.
  - rewrite AdvancedBrowserHashFacts.fst_getHash.
    destruct (fst (AdvancedBrowserFingerprint.stableFeatures fp)) as [fs|e];
      [|reflexivity].
    cbn [bind]. f_equal. apply (loop_is_djb2 _).
  - unfold CSSFingerprint.getHash.
    destruct (CSSFingerprint.stableFeatures fp) as [fs|e]; [|reflexivity].
    cbn [bind]. f_equal. apply (loop_is_djb2 _).
Qed.

End Engines.

(** The fold on the string ["a:1|b:2"]. *)
Example hashString_golden : hashString (lit "a:1|b:2") = lit "b9982f3b".
Proof. vm_compute. reflexivity. Qed.

End HashFold.

(* ================================================================== *)
(** * The operations on small inputs *)
(* ================================================================== *)

Module Examples.
Import Js Int32 Radix Djb2.

(** [5381 << 5], [0x4000000 << 5] (the sign bit) and [0x8000000 << 5]
    (shifted out). *)
Example shl_small : shl 5381 5 = 172192.
Proof. reflexivity. Qed.

Example shl_sign : shl 67108864 5 = -2147483648.
Proof. reflexivity. Qed.

Example shl_out : shl 134217728 5 = 0.
Proof. reflexivity. Qed.

(** One iteration from a hash with the top bit set. *)
Example step_wraps : step 4294967295 97 = 64.
Proof. reflexivity. Qed.

Example toString16_max : int_toString 16 4294967295 = lit "ffffffff".
Proof. vm_compute. reflexivity. Qed.

Example toString16_zero : int_toString 16 0 = lit "0".
Proof. reflexivity. Qed.

Example toString10_negative : int_toString 10 (-1230) = lit "-1230".
Proof. vm_compute. reflexivity. Qed.

(** [`${[1, null, 'x', [-20, true], {}]}`] *)
Example toString_array :
  toString (VArr [VInt 1; VNull; VStr (lit "x");
                  VArr [VInt (-20); VBool true]; VObj []]) =
  lit "1,,x,-20,true,[object Object]".
Proof. vm_compute. reflexivity. Qed.

(** [['b', undefined, 10, 9, 'B', null, 'a'].sort()] *)
Example sort_default_order :
  sort_list [VStr (lit "b"); VUndefined; VInt 10; VInt 9; VStr (lit "B");
             VNull; VStr (lit "a")] =
  [VInt 10; VInt 9; VStr (lit "B"); VStr (lit "a"); VStr (lit "b");
   VNull; VUndefined].
Proof. vm_compute. reflexivity. Qed.

(** [JSON.stringify({ a: [1, undefined], u: undefined, n: null })] *)
Example json_object :
  json (VObj [ (lit "a", VArr [VInt 1; VUndefined]);
               (lit "u", VUndefined);
               (lit "n", VNull) ]) =
  Some (lit "{" ++ [34] ++ lit "a" ++ [34] ++ lit ":[1,null]," ++
        [34] ++ lit "n" ++ [34] ++ lit ":null}").
Proof. vm_compute. reflexivity. Qed.

(** A line feed and a lone high surrogate inside a string. *)
Example json_escapes :
  json (VStr [97; 10; 55357]) =
  Some ([34] ++ lit "a\n\ud83d" ++ [34]).
Proof. vm_compute. reflexivity. Qed.

(** [(15).toFixed(1)] and [(0).toFixed(2)] *)
Example toFixed_integers :
  toFixed 1 (VInt 15) = Normal (VStr (lit "15.0")) /\
  toFixed 2 (VInt 0) = Normal (VStr (lit "0.00")) /\
  toFixed 2 (VStr (lit "15")) = Throw TypeError.
Proof. repeat split. Qed.

(** [Object.keys(['x', 'y'])] and [['x', 'y'].length] *)
Example array_keys_and_length :
  object_keys (VArr [VStr (lit "x"); VStr (lit "y")]) = [lit "0"; lit "1"] /\
  get (VArr [VStr (lit "x"); VStr (lit "y")]) (lit "length") = VInt 2 /\
  get (VArr [VStr (lit "x"); VStr (lit "y")]) (lit "1") = VStr (lit "y").
Proof. repeat split. Qed.

End Examples.

(* ================================================================== *)
(** * The statements on concrete records *)
(* ================================================================== *)

Module OnSamples.
Import Js Promise Radix Djb2 JsFacts Samples.

Ltac agree_off_volatile :=
  repeat (constructor;
          [ split; [ reflexivity
                   | first [ right; reflexivity
                           | left; cbn [fst];
                             unfold AdvancedBrowserFingerprint.volatile;
                             apply in_map; simpl;
                             repeat first [left; reflexivity | right] ] ]
          | ]).

(** Two records that differ in the battery reading only. *)
Lemma getHash_ignores_volatile_witness :
  let charged :=
    sample_results 4 ["en"; "de"]%string (sample_battery 80)
      ["OES_texture_float"; "ANGLE_instanced_arrays"]%string in
  let drained :=
    sample_results 4 ["en"; "de"]%string (sample_battery 15)
      ["OES_texture_float"; "ANGLE_instanced_arrays"]%string in
  (forall k, ~ In k AdvancedBrowserFingerprint.volatile ->
     get (AdvancedBrowserFingerprint.assemble charged) k =
     get (AdvancedBrowserFingerprint.assemble drained) k) /\
  fst (AdvancedBrowserFingerprint.getHash
         (AdvancedBrowserFingerprint.assemble charged)) =
  fst (AdvancedBrowserFingerprint.getHash
         (AdvancedBrowserFingerprint.assemble drained)).
Proof.
  intros charged drained.
  assert (H : forall k, ~ In k AdvancedBrowserFingerprint.volatile ->
     get (AdvancedBrowserFingerprint.assemble charged) k =
     get (AdvancedBrowserFingerprint.assemble drained) k).
  { intros k Hk. unfold AdvancedBrowserFingerprint.assemble.
    apply (AdvancedBrowserHash.get_agree AdvancedBrowserFingerprint.volatile);
      [agree_off_volatile; constructor | exact Hk]. }
  split; [exact H|].
  exact (AdvancedBrowserHash.getHash_ignores_volatile _ _ H).
Defined.

(** Extensions, fonts and media queries in two orders. *)
Lemma sorted_lists_order_irrelevant_witness :
  let fp :=
    sample_record 4 ["en"; "de"]%string VNull
      ["OES_texture_float"; "ANGLE_instanced_arrays"]%string in
  let fp' :=
    AdvancedBrowserFingerprint.store_extensions fp
      (strings ["ANGLE_instanced_arrays"; "OES_texture_float"]%string) in
  let r := advanced_css_data ["Verdana"; "Arial"]%string in
  let r' := set_prop r (lit "fonts") (strings ["Arial"; "Verdana"]%string) in
  let css := css_media hover_then_pointer in
  let css' := set_prop css (lit "mediaQueries") (VObj pointer_then_hover) in
  fst (AdvancedBrowserFingerprint.getHash fp') =
  fst (AdvancedBrowserFingerprint.getHash fp) /\
  AdvancedCSSFingerprint.getHash r' = AdvancedCSSFingerprint.getHash r /\
  CSSFingerprint.getHash css' = CSSFingerprint.getHash css.
Proof.
  intros fp fp' r r' css css'.
  destruct CanonicalForm.sorted_lists_order_irrelevant as (Hext & Hfonts & Hmaps).
  split; [|split].
  - apply (Hext fp
             [lit "OES_texture_float"; lit "ANGLE_instanced_arrays"]
             [lit "ANGLE_instanced_arrays"; lit "OES_texture_float"]).
    + vm_compute. reflexivity.
    + apply perm_swap.
  - apply (Hfonts r [lit "Verdana"; lit "Arial"] [lit "Arial"; lit "Verdana"]).
    + vm_compute. reflexivity.
    + apply perm_swap.
    + apply perm_swap.
  - apply (Hmaps css (lit "mediaQueries") hover_then_pointer pointer_then_hover).
    + unfold CSSFingerprint.map_fields, CSSFingerprint.keyed_fields.
      apply in_or_app. left. apply in_map. simpl. tauto.
    + vm_compute. reflexivity.
    + repeat constructor; simpl; intros H; vm_compute in H;
        intuition discriminate.
    + apply perm_swap.
Defined.

(** C3 fails as stated.  The language list is joined in the order the
    host gives it, of the font list only the first ten entries are kept
    before sorting, and the text metrics are serialised in property
    order: rearranging any of them changes the hash. *)
Lemma unsorted_lists_order_matters :
  Permutation ["en"; "de"]%string ["de"; "en"]%string /\
  fst (AdvancedBrowserFingerprint.getHash
         (sample_record 4 ["en"; "de"]%string VNull
            ["OES_texture_float"; "ANGLE_instanced_arrays"]%string)) =
    Normal (lit "4a7b2544") /\
  fst (AdvancedBrowserFingerprint.getHash
         (sample_record 4 ["de"; "en"]%string VNull
            ["OES_texture_float"; "ANGLE_instanced_arrays"]%string)) =
    Normal (lit "986acd84") /\
  Permutation eleven_fonts eleven_fonts_rotated /\
  AdvancedCSSFingerprint.getHash (advanced_css_data eleven_fonts) =
    Normal (lit "f5a65ef7") /\
  AdvancedCSSFingerprint.getHash (advanced_css_data eleven_fonts_rotated) =
    Normal (lit "4e6a15be") /\
  fst (AdvancedBrowserFingerprint.getHash
         (set_prop
            (sample_record 4 ["en"; "de"]%string VNull
               ["OES_texture_float"; "ANGLE_instanced_arrays"]%string)
            (lit "canvasTextMetrics") metrics_ab)) =
    Normal (lit "e1da507") /\
  fst (AdvancedBrowserFingerprint.getHash
         (set_prop
            (sample_record 4 ["en"; "de"]%string VNull
               ["OES_texture_float"; "ANGLE_instanced_arrays"]%string)
            (lit "canvasTextMetrics") metrics_ba)) =
    Normal (lit "8da80087").
Proof.
  split; [apply perm_swap|].
  split; [vm_compute; reflexivity|].
  split; [vm_compute; reflexivity|].
  split.
  { apply Permutation_sym.
    exact (Permutation_cons_append
             [ "Arial"; "Arial Black"; "Calibri"; "Cambria"; "Candara";
               "Consolas"; "Courier New"; "Georgia"; "Impact";
               "Tahoma" ]%string "Verdana"%string). }
  split; [vm_compute; reflexivity|].
  split; [vm_compute; reflexivity|].
  split; vm_compute; reflexivity.
Qed.

(** The hashes of a record of the first engine and of results of the
    second. *)
Lemma getHash_hex_natural_width_witness :
  let fp :=
    sample_record 10 ["en"; "de"]%string VNull
      ["OES_texture_float"; "ANGLE_instanced_arrays"]%string in
  let results := advanced_css_data eleven_fonts in
  fst (AdvancedBrowserFingerprint.getHash fp) = Normal (lit "e288991") /\
  AdvancedCSSFingerprint.getHash results = Normal (lit "f5a65ef7") /\
  (uint32_hex (lit "e288991") /\ (1 <= length (lit "e288991") <= 8)%nat /\
   Forall (fun c => is_lower_hex c = true) (lit "e288991")) /\
  (uint32_hex (lit "f5a65ef7") /\ (1 <= length (lit "f5a65ef7") <= 8)%nat /\
   Forall (fun c => is_lower_hex c = true) (lit "f5a65ef7")).
Proof.
  intros fp results.
  assert (H1 : fst (AdvancedBrowserFingerprint.getHash fp)
               = Normal (lit "e288991")) by (vm_compute; reflexivity).
  assert (H2 : AdvancedCSSFingerprint.getHash results = Normal (lit "f5a65ef7"))
    by (vm_compute; reflexivity).
  split; [exact H1 |]. split; [exact H2 |].
  split.
  - exact (CanonicalForm.getHash_hex_natural_width fp results (lit "e288991")
             (or_introl H1)).
  - exact (CanonicalForm.getHash_hex_natural_width fp results (lit "f5a65ef7")
             (or_intror H2)).
Defined.

(** C7 fails as stated.  The same record with four and with ten cores
    hashes to eight and to seven digits. *)
Lemma getHash_width_varies :
  fst (AdvancedBrowserFingerprint.getHash
         (sample_record 4 ["en"; "de"]%string VNull
            ["OES_texture_float"; "ANGLE_instanced_arrays"]%string)) =
    Normal (lit "4a7b2544") /\
  fst (AdvancedBrowserFingerprint.getHash
         (sample_record 10 ["en"; "de"]%string VNull
            ["OES_texture_float"; "ANGLE_instanced_arrays"]%string)) =
    Normal (lit "e288991") /\
  length (lit "4a7b2544") = 8%nat /\
  length (lit "e288991") = 7%nat.
Proof.
  split; [vm_compute; reflexivity|].
  split; [vm_compute; reflexivity|].
  split; vm_compute; reflexivity.
Qed.

(** Two results with the same stable features. *)
Lemma getCombinedHash_same_features_witness :
  let a := advanced_css_data ["Arial"]%string in
  CSSFingerprint.stableFeatures (css_data_stamped "az" 1) =
  CSSFingerprint.stableFeatures (css_data_stamped "az" 2) /\
  CombinedCSSFingerprint.getCombinedHash (css_data_stamped "az" 1) a =
  CombinedCSSFingerprint.getCombinedHash (css_data_stamped "az" 2) a.
Proof.
  intros a. split; [vm_compute; reflexivity|].
  apply (CombinedFacts.getCombinedHash_same_features
           (css_data_stamped "az" 1) a (css_data_stamped "az" 2) a);
    vm_compute; reflexivity.
Defined.

(** C4 fails as stated.  Two hosts with different detected fonts have
    different stable features in the advanced engine but the same
    advanced hash, hence the same combined hash; likewise two results of
    the basic engine that differ in the computed box shadow. *)
Lemma getCombinedHash_collision :
  let basic := css_data "rgba(0, 0, 0, 0.5) 5px 5px 10px 0px" in
  let a1 := advanced_results ["Candara"; "Roboto Slab"; "Open Sans"]%string in
  let a2 :=
    advanced_results ["MS Gothic"; "Monaco"; "DejaVu Sans Mono"]%string in
  AdvancedCSSFingerprint.features a1 <> AdvancedCSSFingerprint.features a2 /\
  CombinedCSSFingerprint.getCombinedHash basic a1 = Normal (lit "8665ca01") /\
  CombinedCSSFingerprint.getCombinedHash basic a2 = Normal (lit "8665ca01") /\
  CSSFingerprint.stableFeatures (css_data "az") <>
  CSSFingerprint.stableFeatures (css_data "bY") /\
  CombinedCSSFingerprint.getCombinedHash (css_data "az") a1 =
  CombinedCSSFingerprint.getCombinedHash (css_data "bY") a1.
Proof.
  intros basic a1 a2.
  split; [intros H; vm_compute in H; discriminate|].
  split; [vm_compute; reflexivity|].
  split; [vm_compute; reflexivity|].
  split; [intros H; vm_compute in H; discriminate|].
  vm_compute; reflexivity.
Qed.

End OnSamples.

(* ================================================================== *)
(** * The 64-bit arithmetic of the bundled library *)
(* ================================================================== *)

Module X64Facts.
Import Int32 Bitwise Radix FingerprintJS Int32Facts.

Lemma to_uint32_to_int32 (x : Z) : to_uint32 (to_int32 x) = to_uint32 x.
Proof.
  destruct (to_int32_wraps x) as [q ->].
  unfold to_uint32. apply Z.mod_add. lia.
Qed.

Lemma to_int32_small (x : Z) : 0 <= x < 2 ^ 31 -> to_int32 x = x.
Proof.
  intros H. unfold to_int32.
  rewrite Z.mod_small by lia. lia.
Qed.

Lemma to_uint32_small (x : Z) : 0 <= x < 2 ^ 32 -> to_uint32 x = x.
Proof. intros H. unfold to_uint32. apply Z.mod_small. exact H. Qed.

Lemma to_int32_range (x : Z) : - 2 ^ 31 <= to_int32 x < 2 ^ 31.
Proof.
  unfold to_int32.
  pose proof (Z.mod_pos_bound (x + 2 ^ 31) (2 ^ 32) ltac:(lia)). lia.
Qed.

Lemma to_uint32_lor (x y : Z) :
  to_uint32 (Z.lor x y) = Z.lor (to_uint32 x) (to_uint32 y).
Proof.
  unfold to_uint32.
  rewrite <- !Z.land_ones by lia.
  apply Z.land_lor_distr_l.
Qed.

Lemma to_uint32_lxor (x y : Z) :
  to_uint32 (Z.lxor x y) = Z.lxor (to_uint32 x) (to_uint32 y).
Proof.
  unfold to_uint32.
  rewrite <- !Z.land_ones by lia.
  apply Z.bits_inj'. intros i Hi.
  rewrite Z.lxor_spec, !Z.land_spec, Z.lxor_spec.
  destruct (Z.testbit x i), (Z.testbit y i), (Z.testbit (Z.ones 32) i);
    reflexivity.
Qed.

Lemma to_uint32_bor (x y : Z) :
  to_uint32 (bor x y) = Z.lor (to_uint32 x) (to_uint32 y).
Proof.
  unfold bor. rewrite to_uint32_lor, !to_uint32_to_int32. reflexivity.
Qed.

Lemma to_uint32_bxor (x y : Z) :
  to_uint32 (bxor x y) = Z.lxor (to_uint32 x) (to_uint32 y).
Proof.
  unfold bxor. rewrite to_uint32_lxor, !to_uint32_to_int32. reflexivity.
Qed.

(** Two numbers whose bits do not overlap: [|] adds them. *)
Lemma lor_disjoint (hi lo n : Z) :
  0 <= n -> 0 <= lo < 2 ^ n -> Z.lor (hi * 2 ^ n) lo = hi * 2 ^ n + lo.
Proof.
  intros Hn Hlo.
  assert (Hz : Z.land (hi * 2 ^ n) lo = 0).
  { apply Z.bits_inj'. intros i Hi.
    rewrite Z.land_spec, Z.bits_0.
    destruct (Z.lt_ge_cases i n) as [Hlt | Hge].
    - rewrite Z.mul_pow2_bits_low by lia. reflexivity.
    - replace lo with (lo mod 2 ^ n) by (apply Z.mod_small; lia).
      rewrite Z.mod_pow2_bits_high by lia.
      apply andb_false_r. }
  rewrite <- Z.lxor_lor by exact Hz.
  symmetry. apply Z.add_nocarry_lxor. exact Hz.
Qed.

Lemma land_31 (k : Z) : 0 <= k < 32 -> Z.land k 31 = k.
Proof.
  intros H. change 31 with (Z.ones 5).
  rewrite Z.land_ones by lia. apply Z.mod_small. lia.
Qed.

Lemma ushr_div (x k : Z) :
  0 <= k < 32 -> ushr x k = to_uint32 x / 2 ^ k.
Proof.
  intros H. unfold ushr. rewrite land_31 by exact H.
  apply Z.shiftr_div_pow2. lia.
Qed.

Lemma to_uint32_shl (x k : Z) :
  0 <= k < 32 -> to_uint32 (shl x k) = (to_uint32 x * 2 ^ k) mod 2 ^ 32.
Proof.
  intros H. unfold shl.
  rewrite to_uint32_to_int32, land_31 by exact H.
  rewrite Z.shiftl_mul_pow2 by lia.
  unfold to_uint32.
  rewrite Z.mul_mod_idemp_l by lia.
  destruct (to_int32_wraps x) as [q ->].
  replace ((x + q * 2 ^ 32) * 2 ^ k) with (x * 2 ^ k + (q * 2 ^ k) * 2 ^ 32) by ring.
  apply Z.mod_add. lia.
Qed.

Lemma band_65535_l (x : Z) : band 65535 x = to_uint32 x mod 2 ^ 16.
Proof.
  unfold band. change (to_int32 65535) with (Z.ones 16).
  rewrite Z.land_comm, Z.land_ones by lia.
  destruct (to_int32_wraps x) as [q ->]. unfold to_uint32.
  replace (x + q * 2 ^ 32) with (x + (q * 2 ^ 16) * 2 ^ 16) by ring.
  rewrite Z.mod_add by lia.
  change (2 ^ 32) with (2 ^ 16 * 2 ^ 16).
  rewrite Z.rem_mul_r by lia.
  rewrite Z.mul_comm, Z.mod_add by lia.
  symmetry. apply Z.mod_mod. lia.
Qed.

Lemma band_65535_r (x : Z) : band x 65535 = x mod 2 ^ 16.
Proof.
  unfold band. change (to_int32 65535) with (Z.ones 16).
  rewrite Z.land_ones by lia.
  destruct (to_int32_wraps x) as [q ->].
  replace (x + q * 2 ^ 32) with (x + (q * 2 ^ 16) * 2 ^ 16) by ring.
  apply Z.mod_add. lia.
Qed.

Lemma ushr_16 (x : Z) : 0 <= x < 2 ^ 32 -> ushr x 16 = x / 2 ^ 16.
Proof.
  intros H. rewrite ushr_div by lia. rewrite to_uint32_small by exact H.
  reflexivity.
Qed.

(** [hi<<16|lo] for two 16-bit halves. *)
Lemma to_uint32_halves (hi lo : Z) :
  0 <= hi < 2 ^ 16 -> 0 <= lo < 2 ^ 16 ->
  to_uint32 (bor (shl hi 16) lo) = hi * 2 ^ 16 + lo.
Proof.
  intros Hhi Hlo.
  rewrite to_uint32_bor, to_uint32_shl by lia.
  rewrite !to_uint32_small by lia.
  rewrite (Z.mod_small (hi * 2 ^ 16)) by lia.
  apply lor_disjoint; lia.
Qed.

(** The four 16-bit limbs of a pair. *)
Lemma u64_limbs (t : x64) :
  u64 t = ushr (fst t) 16 * 2 ^ 48 + band 65535 (fst t) * 2 ^ 32
          + ushr (snd t) 16 * 2 ^ 16 + band 65535 (snd t).
Proof.
  unfold u64. rewrite !ushr_div, !band_65535_l by lia.
  pose proof (Z.div_mod (to_uint32 (fst t)) (2 ^ 16) ltac:(lia)).
  pose proof (Z.div_mod (to_uint32 (snd t)) (2 ^ 16) ltac:(lia)).
  lia.
Qed.

Lemma limb_hi_range (x : Z) : 0 <= ushr x 16 < 2 ^ 16.
Proof.
  rewrite ushr_div by lia.
  pose proof (to_uint32_range x).
  split.
  - apply Z.div_pos; lia.
  - apply Z.div_lt_upper_bound; lia.
Qed.

Lemma limb_lo_range (x : Z) : 0 <= band 65535 x < 2 ^ 16.
Proof. rewrite band_65535_l. apply Z.mod_pos_bound. lia. Qed.

Lemma limb_product (x y : Z) :
  0 <= x < 2 ^ 16 -> 0 <= y < 2 ^ 16 -> 0 <= x * y <= 4294836225.
Proof. intros Hx Hy. nia. Qed.

Lemma u64_range (t : x64) : 0 <= u64 t < 2 ^ 64.
Proof.
  unfold u64.
  pose proof (to_uint32_range (fst t)). pose proof (to_uint32_range (snd t)).
  lia.
Qed.

(** A carry step: [q = x>>>16], [r = x&65535] for [x] below 2^32. *)
Lemma carry_step (x : Z) :
  0 <= x < 2 ^ 32 ->
  x = ushr x 16 * 2 ^ 16 + band x 65535 /\
  0 <= ushr x 16 < 2 ^ 16 /\ 0 <= band x 65535 < 2 ^ 16.
Proof.
  intros H. rewrite ushr_16, band_65535_r by exact H.
  pose proof (Z.div_mod x (2 ^ 16) ltac:(lia)).
  pose proof (Z.mod_pos_bound x (2 ^ 16) ltac:(lia)).
  assert (0 <= x / 2 ^ 16 < 2 ^ 16).
  { split; [apply Z.div_pos; lia | apply Z.div_lt_upper_bound; lia]. }
  lia.
Qed.

Lemma last_step (x : Z) :
  0 <= x -> exists q, 0 <= q /\ x = q * 2 ^ 16 + band x 65535 /\ 0 <= band x 65535 < 2 ^ 16.
Proof.
  intros H. rewrite band_65535_r. exists (x / 2 ^ 16).
  pose proof (Z.div_mod x (2 ^ 16) ltac:(lia)).
  pose proof (Z.mod_pos_bound x (2 ^ 16) ltac:(lia)).
  assert (0 <= x / 2 ^ 16) by (apply Z.div_pos; lia).
  lia.
Qed.

Lemma u64_m_add (t e : x64) :
  u64 (m_add t e) = (u64 t + u64 e) mod 2 ^ 64.
Proof.
  rewrite (u64_limbs t), (u64_limbs e).
  unfold m_add.
  pose proof (limb_hi_range (fst t)) as Hn.
  pose proof (limb_lo_range (fst t)) as Ho.
  pose proof (limb_hi_range (snd t)) as Hi.
  pose proof (limb_lo_range (snd t)) as Hr.
  pose proof (limb_hi_range (fst e)) as Ha.
  pose proof (limb_lo_range (fst e)) as Hc.
  pose proof (limb_hi_range (snd e)) as Hs.
  pose proof (limb_lo_range (snd e)) as Hu.
  set (n := ushr (fst t) 16) in *. set (o := band 65535 (fst t)) in *.
  set (i := ushr (snd t) 16) in *. set (r := band 65535 (snd t)) in *.
  set (a := ushr (fst e) 16) in *. set (c := band 65535 (fst e)) in *.
  set (s := ushr (snd e) 16) in *. set (u := band 65535 (snd e)) in *.
  cbv zeta. rewrite !Z.add_0_l.
  destruct (carry_step (r + u) ltac:(lia)) as (E1 & Hq1 & Hr1).
  set (q1 := ushr (r + u) 16) in *. set (m2 := band (r + u) 65535) in *.
  destruct (carry_step (q1 + (i + s)) ltac:(lia)) as (E2 & Hq2 & Hr2).
  set (q2 := ushr (q1 + (i + s)) 16) in *.
  set (d3 := band (q1 + (i + s)) 65535) in *.
  destruct (carry_step (q2 + (o + c)) ltac:(lia)) as (E3 & Hq3 & Hr3).
  set (q3 := ushr (q2 + (o + c)) 16) in *.
  set (l3 := band (q2 + (o + c)) 65535) in *.
  destruct (last_step (q3 + (n + a)) ltac:(lia)) as (q4 & Hq4 & E4 & Hr4).
  set (u3 := band (q3 + (n + a)) 65535) in *.
  unfold u64. cbn [fst snd].
  rewrite !to_uint32_halves by lia.
  apply Z.mod_unique with (q := q4); [left; lia | lia].
Qed.

Lemma u64_f_mul (t e : x64) :
  u64 (f_mul t e) = (u64 t * u64 e) mod 2 ^ 64.
Proof.
  rewrite (u64_limbs t), (u64_limbs e).
  unfold f_mul.
  pose proof (limb_hi_range (fst t)) as Hn.
  pose proof (limb_lo_range (fst t)) as Ho.
  pose proof (limb_hi_range (snd t)) as Hi.
  pose proof (limb_lo_range (snd t)) as Hr.
  pose proof (limb_hi_range (fst e)) as Ha.
  pose proof (limb_lo_range (fst e)) as Hc.
  pose proof (limb_hi_range (snd e)) as Hs.
  pose proof (limb_lo_range (snd e)) as Hu.
  set (n := ushr (fst t) 16) in *. set (o := band 65535 (fst t)) in *.
  set (i := ushr (snd t) 16) in *. set (r := band 65535 (snd t)) in *.
  set (a := ushr (fst e) 16) in *. set (c := band 65535 (fst e)) in *.
  set (s := ushr (snd e) 16) in *. set (u := band 65535 (snd e)) in *.
  cbv zeta. rewrite !Z.add_0_l.
  pose proof (limb_product r u Hr Hu) as Pru.
  pose proof (limb_product i u Hi Hu) as Piu.
  pose proof (limb_product r s Hr Hs) as Prs.
  pose proof (limb_product o u Ho Hu) as Pou.
  pose proof (limb_product i s Hi Hs) as Pis.
  pose proof (limb_product r c Hr Hc) as Prc.
  pose proof (limb_product n u Hn Hu) as Pnu.
  pose proof (limb_product o s Ho Hs) as Pos.
  pose proof (limb_product i c Hi Hc) as Pic.
  pose proof (limb_product r a Hr Ha) as Pra.
  set (ru := r * u) in *. set (iu := i * u) in *. set (rs := r * s) in *.
  set (ou := o * u) in *. set (is' := i * s) in *. set (rc := r * c) in *.
  set (p3 := n * u + o * s + i * c + r * a) in *.
  assert (Hp3 : 0 <= p3) by (subst p3; lia).
  destruct (carry_step ru ltac:(lia)) as (E1 & Hq1 & Hr1).
  set (q1 := ushr ru 16) in *. set (f2 := band ru 65535) in *.
  destruct (carry_step (q1 + iu) ltac:(lia)) as (E2 & Hq2 & Hr2).
  set (q2 := ushr (q1 + iu) 16) in *. set (m3 := band (q1 + iu) 65535) in *.
  destruct (carry_step (m3 + rs) ltac:(lia)) as (E3 & Hq3 & Hr3).
  set (q3 := ushr (m3 + rs) 16) in *. set (m5 := band (m3 + rs) 65535) in *.
  destruct (carry_step (q2 + q3 + ou) ltac:(lia)) as (E4 & Hq4 & Hr4).
  set (q4 := ushr (q2 + q3 + ou) 16) in *.
  set (d4 := band (q2 + q3 + ou) 65535) in *.
  destruct (carry_step (d4 + is') ltac:(lia)) as (E5 & Hq5 & Hr5).
  set (q5 := ushr (d4 + is') 16) in *. set (d6 := band (d4 + is') 65535) in *.
  destruct (carry_step (d6 + rc) ltac:(lia)) as (E6 & Hq6 & Hr6).
  set (q6 := ushr (d6 + rc) 16) in *. set (d8 := band (d6 + rc) 65535) in *.
  destruct (last_step (q4 + q5 + q6 + p3) ltac:(lia)) as (q7 & Hq7 & E7 & Hr7).
  set (l5 := band (q4 + q5 + q6 + p3) 65535) in *.
  unfold u64. cbn [fst snd].
  rewrite !to_uint32_halves by lia.
  apply Z.mod_unique with
    (q := q7 + n * a * 2 ^ 32 + (n * c + o * a) * 2 ^ 16
          + (n * s + o * c + i * a)); [left; lia |].
  subst ru iu rs ou is' rc p3.
  replace ((n * 2 ^ 48 + o * 2 ^ 32 + i * 2 ^ 16 + r) *
           (a * 2 ^ 48 + c * 2 ^ 32 + s * 2 ^ 16 + u))
    with (2 ^ 64 * (n * a * 2 ^ 32 + (n * c + o * a) * 2 ^ 16
                    + (n * s + o * c + i * a))
          + (n * u + o * s + i * c + r * a) * 2 ^ 48
          + (o * u + i * s + r * c) * 2 ^ 32
          + (i * u + r * s) * 2 ^ 16 + r * u) by ring.
  lia.
Qed.

(** X1.  [m], the addition of the bundled library, adds two pairs as
    unsigned 64-bit integers and wraps at 2^64, whatever numbers the
    pairs hold. *)
Theorem m_add_is_addition (t e : x64) :
  u64 (m_add t e) = (u64 t + u64 e) mod 2 ^ 64.
Proof. apply u64_m_add. Qed.

(** X2.  [f], the multiplication of the bundled library, multiplies two
    pairs as unsigned 64-bit integers and keeps the low 64 bits. *)
Theorem f_mul_is_multiplication (t e : x64) :
  u64 (f_mul t e) = (u64 t * u64 e) mod 2 ^ 64.
Proof. apply u64_f_mul. Qed.

End X64Facts.

Module X64ShiftFacts.
Import Int32 Bitwise Radix FingerprintJS Int32Facts X64Facts.

(** Rotating the pair of words [N], [Lo] (each below [P*Q]) by the
    number of bits of [P]. *)
Lemma rotl_words (N Lo P Q : Z) :
  0 < P -> 0 < Q -> 0 <= N < P * Q -> 0 <= Lo < P * Q ->
  ((N mod Q) * P + Lo / Q) * (P * Q) + ((Lo mod Q) * P + N / Q)
  = ((N * (P * Q) + Lo) * P) mod (P * Q * (P * Q))
    + (N * (P * Q) + Lo) / (P * Q * Q).
Proof.
  intros HP HQ HN HLo.
  pose proof (Z.div_mod N Q ltac:(lia)) as EN.
  pose proof (Z.mod_pos_bound N Q HQ) as BN.
  pose proof (Z.div_mod Lo Q ltac:(lia)) as EL.
  pose proof (Z.mod_pos_bound Lo Q HQ) as BL.
  set (n1 := N / Q) in *. set (n0 := N mod Q) in *.
  set (l1 := Lo / Q) in *. set (l0 := Lo mod Q) in *.
  assert (Hn1 : 0 <= n1 < P).
  { subst n1. split; [apply Z.div_pos; lia | apply Z.div_lt_upper_bound; lia]. }
  assert (Hl1 : 0 <= l1 < P).
  { subst l1. split; [apply Z.div_pos; lia | apply Z.div_lt_upper_bound; lia]. }
  assert (Hhi : 0 <= n0 * P + l1 < P * Q) by nia.
  assert (Hlo : 0 <= l0 * P < P * Q) by nia.
  assert (E1 : ((N * (P * Q) + Lo) * P) mod (P * Q * (P * Q))
               = (n0 * P + l1) * (P * Q) + l0 * P).
  { symmetry. apply Z.mod_unique with (q := n1); [left; nia |].
    rewrite EN, EL. ring. }
  assert (E2 : (N * (P * Q) + Lo) / (P * Q * Q) = n1).
  { rewrite <- Z.div_div by lia.
    rewrite Z.div_add_l by lia.
    rewrite (Z.div_small Lo) by lia.
    rewrite Z.add_0_r. reflexivity. }
  rewrite E1, E2. ring.
Qed.

Lemma pow2_split (k : Z) : 0 <= k <= 32 -> 2 ^ k * 2 ^ (32 - k) = 2 ^ 32.
Proof. intros H. rewrite <- Z.pow_add_r by lia. f_equal. lia. Qed.

(** [x<<k | y>>>32-k] for [0 < k < 32]. *)
Lemma to_uint32_funnel (x y k : Z) :
  0 < k < 32 ->
  to_uint32 (bor (shl x k) (ushr y (32 - k)))
  = (to_uint32 x mod 2 ^ (32 - k)) * 2 ^ k + to_uint32 y / 2 ^ (32 - k).
Proof.
  intros Hk.
  pose proof (pow2_split k ltac:(lia)) as E.
  assert (HP : 0 < 2 ^ k) by (apply Z.pow_pos_nonneg; lia).
  assert (HQ : 0 < 2 ^ (32 - k)) by (apply Z.pow_pos_nonneg; lia).
  pose proof (to_uint32_range y) as Hy.
  assert (Hd : 0 <= to_uint32 y / 2 ^ (32 - k) < 2 ^ k).
  { split; [apply Z.div_pos; lia | apply Z.div_lt_upper_bound; lia]. }
  assert (Hle : 2 ^ k <= 2 ^ 32) by (apply Z.pow_le_mono_r; lia).
  rewrite to_uint32_bor, to_uint32_shl by lia.
  rewrite ushr_div by lia.
  rewrite (to_uint32_small (_ / _)) by lia.
  assert (Hm : (to_uint32 x * 2 ^ k) mod 2 ^ 32
               = (to_uint32 x mod 2 ^ (32 - k)) * 2 ^ k).
  { rewrite <- E, (Z.mul_comm (2 ^ k)). apply Z.mul_mod_distr_r; lia. }
  rewrite Hm.
  apply lor_disjoint; lia.
Qed.

Lemma rem_mod_64 (e : Z) : 0 <= e -> Z.rem e 64 = e mod 64.
Proof. intros H. apply Z.rem_mod_nonneg; lia. Qed.

Lemma u64_p_rotl (t : x64) (e : Z) :
  0 <= e -> e mod 64 <> 0 ->
  u64 (p_rotl t e)
  = (u64 t * 2 ^ (e mod 64)) mod 2 ^ 64 + u64 t / 2 ^ (64 - e mod 64).
Proof.
  intros He Hk.
  unfold p_rotl. rewrite rem_mod_64 by exact He.
  pose proof (Z.mod_pos_bound e 64 ltac:(lia)) as Bk.
  set (k := e mod 64) in *.
  pose proof (to_uint32_range (fst t)) as HN.
  pose proof (to_uint32_range (snd t)) as HL.
  cbv zeta.
  destruct (Z.eqb_spec k 32) as [E32 | N32].
  - rewrite E32. unfold u64. cbn [fst snd].
    change (64 - 32) with 32.
    set (N := to_uint32 (fst t)) in *. set (Lo := to_uint32 (snd t)) in *.
    rewrite Z.div_add_l by lia.
    rewrite (Z.div_small Lo) by lia.
    rewrite Z.add_0_r. f_equal.
    apply Z.mod_unique with (q := N); [left; lia | ring_simplify; lia].
  - destruct (Z.ltb_spec k 32) as [Hlt | Hge].
    + unfold u64. cbn [fst snd].
      rewrite !to_uint32_funnel by lia.
      set (N := to_uint32 (fst t)) in *. set (Lo := to_uint32 (snd t)) in *.
      pose proof (pow2_split k ltac:(lia)) as E.
      assert (HP : 0 < 2 ^ k) by (apply Z.pow_pos_nonneg; lia).
      assert (HQ : 0 < 2 ^ (32 - k)) by (apply Z.pow_pos_nonneg; lia).
      pose proof (rotl_words N Lo (2 ^ k) (2 ^ (32 - k)) HP HQ
                    ltac:(rewrite E; exact HN) ltac:(rewrite E; exact HL)) as R.
      rewrite E in R.
      replace (2 ^ (64 - k)) with (2 ^ 32 * 2 ^ (32 - k))
        by (rewrite <- Z.pow_add_r by lia; f_equal; lia).
      change (2 ^ 64) with (2 ^ 32 * 2 ^ 32).
      exact R.
    + unfold u64. cbn [fst snd].
      rewrite !to_uint32_funnel by lia.
      set (N := to_uint32 (fst t)) in *. set (Lo := to_uint32 (snd t)) in *.
      set (j := k - 32) in *.
      pose proof (pow2_split j ltac:(lia)) as E.
      assert (HP : 0 < 2 ^ j) by (apply Z.pow_pos_nonneg; lia).
      assert (HQ : 0 < 2 ^ (32 - j)) by (apply Z.pow_pos_nonneg; lia).
      replace (2 ^ k) with (2 ^ 32 * 2 ^ j)
        by (rewrite <- Z.pow_add_r by lia; f_equal; lia).
      replace (64 - k) with (32 - j) by lia.
      change (2 ^ 64) with (2 ^ 32 * 2 ^ 32).
      pose proof (Z.div_mod N (2 ^ (32 - j)) ltac:(lia)) as EN.
      pose proof (Z.mod_pos_bound N (2 ^ (32 - j)) HQ) as BN.
      pose proof (Z.div_mod Lo (2 ^ (32 - j)) ltac:(lia)) as EL.
      pose proof (Z.mod_pos_bound Lo (2 ^ (32 - j)) HQ) as BL.
      set (P := 2 ^ j) in *. set (Q := 2 ^ (32 - j)) in *.
      assert (Hn1 : 0 <= N / Q < P).
      { split; [apply Z.div_pos; lia | apply Z.div_lt_upper_bound; lia]. }
      assert (Hl1 : 0 <= Lo / Q < P).
      { split; [apply Z.div_pos; lia | apply Z.div_lt_upper_bound; lia]. }
      set (n1 := N / Q) in *. set (n0 := N mod Q) in *.
      set (l1 := Lo / Q) in *. set (l0 := Lo mod Q) in *.
      clearbody n1 n0 l1 l0.
      assert (W : 2 ^ 32 = P * Q) by lia.
      (* the words change places, then rotate by j *)
      assert (B1 : ((N * 2 ^ 32 + Lo) * (2 ^ 32 * P)) mod (2 ^ 32 * 2 ^ 32)
                   = l0 * P * 2 ^ 32).
      { symmetry.
        apply Z.mod_unique with (q := N * P + l1); [left; nia |].
        rewrite EL, W. ring. }
      assert (B2 : (N * 2 ^ 32 + Lo) / Q = N * P + l1).
      { symmetry. apply Z.div_unique with (r := l0); [left; lia |].
        rewrite EL, W. ring. }
      rewrite B1, B2, EN, W. ring.
Qed.

(** X3.  [p], the rotation of the bundled library, rotates the 64 bits
    of a pair to the left by [e mod 64] places, provided that amount is
    not zero. *)
Theorem p_rotl_is_rotation (t : x64) (e : Z) :
  0 <= e -> e mod 64 <> 0 ->
  u64 (p_rotl t e)
  = (u64 t * 2 ^ (e mod 64)) mod 2 ^ 64 + u64 t / 2 ^ (64 - e mod 64).
Proof. apply u64_p_rotl. Qed.

(** The rotation by 31 places of the main loop, on a pair with a bit at
    each end. *)
Lemma p_rotl_is_rotation_witness :
  0 <= 31 /\ 31 mod 64 <> 0 /\
  u64 (p_rotl (2147483648, 1) 31)
  = (u64 (2147483648, 1) * 2 ^ (31 mod 64)) mod 2 ^ 64
    + u64 (2147483648, 1) / 2 ^ (64 - 31 mod 64).
Proof.
  split; [lia |].
  split; [vm_compute; discriminate |].
  apply (p_rotl_is_rotation (2147483648, 1) 31);
    [lia | vm_compute; discriminate].
Defined.

(** X30.  A rotation by a multiple of 64 does not leave the pair as it
    is: [32 - 0] is taken modulo 32 by [>>>], so that [p] puts the
    bitwise or of the two words into both. *)
Theorem p_rotl_by_zero (t : x64) (e : Z) :
  0 <= e -> e mod 64 = 0 ->
  to_uint32 (fst (p_rotl t e)) = Z.lor (to_uint32 (fst t)) (to_uint32 (snd t)) /\
  to_uint32 (snd (p_rotl t e)) = Z.lor (to_uint32 (fst t)) (to_uint32 (snd t)).
Proof.
  intros He Hk. unfold p_rotl.
  rewrite rem_mod_64, Hk by exact He. cbv zeta.
  change (0 =? 32) with false. change (0 <? 32) with true. cbv iota.
  cbn [fst snd].
  assert (Hshl : forall x, to_uint32 (shl x 0) = to_uint32 x).
  { intros x. rewrite to_uint32_shl by lia.
    change (2 ^ 0) with 1. rewrite Z.mul_1_r.
    unfold to_uint32. apply Z.mod_mod. lia. }
  assert (Hshr : forall x, to_uint32 (ushr x (32 - 0)) = to_uint32 x).
  { intros x. unfold ushr. change (Z.land (32 - 0) 31) with 0.
    rewrite Z.shiftr_0_r. unfold to_uint32. apply Z.mod_mod. lia. }
  rewrite !to_uint32_bor, !Hshl, !Hshr.
  split; [reflexivity | apply Z.lor_comm].
Qed.

(** The pair [[1, 2]] rotated by 64 places. *)
Lemma p_rotl_by_zero_witness :
  0 <= 64 /\ 64 mod 64 = 0 /\
  to_uint32 (fst (p_rotl (1, 2) 64)) = Z.lor (to_uint32 1) (to_uint32 2).
Proof.
  split; [lia |]. split; [reflexivity |].
  exact (proj1 (p_rotl_by_zero (1, 2) 64 ltac:(lia) eq_refl)).
Defined.

End X64ShiftFacts.

Module X64MixFacts.
Import Int32 Bitwise Radix FingerprintJS Int32Facts RadixFacts X64Facts X64ShiftFacts.

Lemma u64_h_shl (t : x64) (e : Z) :
  0 <= e -> e mod 64 <> 0 ->
  u64 (h_shl t e) = (to_uint32 (snd t) * 2 ^ (e mod 64)) mod 2 ^ 64.
Proof.
  intros He Hk.
  unfold h_shl. rewrite rem_mod_64 by exact He.
  pose proof (Z.mod_pos_bound e 64 ltac:(lia)) as Bk.
  set (k := e mod 64) in *.
  pose proof (to_uint32_range (snd t)) as HL.
  set (Lo := to_uint32 (snd t)) in *.
  cbv zeta.
  destruct (Z.eqb_spec k 0) as [E0 | _]; [contradiction |].
  destruct (Z.ltb_spec k 32) as [Hlt | Hge]; unfold u64; cbn [fst snd].
  - rewrite to_uint32_shl, ushr_div by lia.
    fold Lo.
    pose proof (pow2_split k ltac:(lia)) as E.
    assert (HP : 0 < 2 ^ k) by (apply Z.pow_pos_nonneg; lia).
    assert (HQ : 0 < 2 ^ (32 - k)) by (apply Z.pow_pos_nonneg; lia).
    assert (Hd : 0 <= Lo / 2 ^ (32 - k) < 2 ^ k).
    { split; [apply Z.div_pos; lia | apply Z.div_lt_upper_bound; lia]. }
    assert (Hle : 2 ^ k <= 2 ^ 32) by (apply Z.pow_le_mono_r; lia).
    rewrite (to_uint32_small (_ / _)) by lia.
    pose proof (Z.div_mod Lo (2 ^ (32 - k)) ltac:(lia)) as EL.
    pose proof (Z.mod_pos_bound Lo (2 ^ (32 - k)) HQ) as BL.
    assert (Hm : (Lo * 2 ^ k) mod 2 ^ 32 = (Lo mod 2 ^ (32 - k)) * 2 ^ k).
    { rewrite <- E, (Z.mul_comm (2 ^ k)). apply Z.mul_mod_distr_r; lia. }
    rewrite Hm.
    set (P := 2 ^ k) in *. set (Q := 2 ^ (32 - k)) in *.
    set (l1 := Lo / Q) in *. set (l0 := Lo mod Q) in *.
    clearbody l1 l0.
    rewrite (Z.mod_small (Lo * P)) by nia.
    rewrite EL, <- E. ring.
  - set (j := k - 32) in *.
    rewrite to_uint32_shl by lia. fold Lo.
    change (to_uint32 0) with 0. rewrite Z.add_0_r.
    replace (2 ^ k) with (2 ^ j * 2 ^ 32)
      by (rewrite <- Z.pow_add_r by lia; f_equal; lia).
    change (2 ^ 64) with (2 ^ 32 * 2 ^ 32).
    rewrite Z.mul_assoc, Z.mul_mod_distr_r by lia.
    reflexivity.
Qed.

(** X4.  [h], the left shift of the bundled library, reads the low word
    only: for a shift that is not a multiple of 64 the result is the low
    word shifted within 64 bits, and the high word it was given is
    lost. *)
Theorem h_shl_drops_high_word (t : x64) (e : Z) :
  0 <= e -> e mod 64 <> 0 ->
  u64 (h_shl t e) = (to_uint32 (snd t) * 2 ^ (e mod 64)) mod 2 ^ 64.
Proof. apply u64_h_shl. Qed.

(** The shift by 48 places of the tail, on a pair whose high word is
    set. *)
Lemma h_shl_drops_high_word_witness :
  0 <= 48 /\ 48 mod 64 <> 0 /\
  u64 (h_shl (7, 255) 48) = (to_uint32 (snd (7, 255)) * 2 ^ (48 mod 64)) mod 2 ^ 64.
Proof.
  split; [lia |].
  split; [vm_compute; discriminate |].
  apply (h_shl_drops_high_word (7, 255) 48);
    [lia | vm_compute; discriminate].
Defined.

(** The bits of a pair. *)
Lemma testbit_words (hi lo i : Z) :
  0 <= lo < 2 ^ 32 -> 0 <= i ->
  Z.testbit (hi * 2 ^ 32 + lo) i
  = if i <? 32 then Z.testbit lo i else Z.testbit hi (i - 32).
Proof.
  intros Hlo Hi.
  rewrite <- lor_disjoint by lia.
  rewrite Z.lor_spec.
  destruct (Z.ltb_spec i 32) as [Hlt | Hge].
  - rewrite Z.mul_pow2_bits_low by lia. reflexivity.
  - rewrite Z.mul_pow2_bits by lia.
    replace lo with (lo mod 2 ^ 32) by (apply Z.mod_small; lia).
    rewrite Z.mod_pow2_bits_high by lia.
    apply orb_false_r.
Qed.

Lemma lxor_words (a b c d : Z) :
  0 <= b < 2 ^ 32 -> 0 <= d < 2 ^ 32 ->
  Z.lxor (a * 2 ^ 32 + b) (c * 2 ^ 32 + d)
  = Z.lxor a c * 2 ^ 32 + Z.lxor b d.
Proof.
  intros Hb Hd.
  assert (Hx : 0 <= Z.lxor b d < 2 ^ 32).
  { split; [apply Z.lxor_nonneg; lia |].
    destruct (Z.eq_dec (Z.lxor b d) 0) as [-> | Hnz]; [lia |].
    assert (0 < Z.lxor b d) by (pose proof (proj2 (Z.lxor_nonneg b d)); lia).
    apply Z.log2_lt_pow2; [lia |].
    eapply Z.le_lt_trans; [apply Z.log2_lxor; lia |].
    apply Z.max_lub_lt.
    - destruct (Z.eq_dec b 0) as [-> | ?]; [reflexivity |].
      apply Z.log2_lt_pow2; lia.
    - destruct (Z.eq_dec d 0) as [-> | ?]; [reflexivity |].
      apply Z.log2_lt_pow2; lia. }
  apply Z.bits_inj'. intros i Hi.
  rewrite Z.lxor_spec, !testbit_words by lia.
  destruct (i <? 32); rewrite Z.lxor_spec; reflexivity.
Qed.

(** [y] is the exclusive or of the 64-bit integers. *)
Lemma u64_y_xor (t e : x64) : u64 (y_xor t e) = Z.lxor (u64 t) (u64 e).
Proof.
  unfold y_xor, u64. cbn [fst snd].
  rewrite !to_uint32_bxor.
  symmetry. apply lxor_words; apply to_uint32_range.
Qed.

(** [[0, t[0]>>>1]] is the integer shifted right by 33 places. *)
Lemma u64_shift_33 (t : x64) : u64 (0, ushr (fst t) 1) = u64 t / 2 ^ 33.
Proof.
  unfold u64. cbn [fst snd].
  rewrite ushr_div by lia.
  pose proof (to_uint32_range (fst t)) as Hh.
  pose proof (to_uint32_range (snd t)) as Hl.
  set (N := to_uint32 (fst t)) in *. set (Lo := to_uint32 (snd t)) in *.
  assert (Hd : 0 <= N / 2 ^ 1 < 2 ^ 32).
  { split; [apply Z.div_pos; lia | apply Z.div_lt_upper_bound; lia]. }
  rewrite (to_uint32_small (_ / _)) by lia.
  change (to_uint32 0) with 0.
  change (2 ^ 33) with (2 ^ 32 * 2 ^ 1).
  rewrite <- Z.div_div by lia.
  rewrite Z.div_add_l by lia.
  rewrite (Z.div_small Lo) by lia.
  rewrite Z.add_0_r. reflexivity.
Qed.

Lemma u64_const (hi lo : Z) :
  0 <= hi < 2 ^ 32 -> 0 <= lo < 2 ^ 32 -> u64 (hi, lo) = hi * 2 ^ 32 + lo.
Proof.
  intros Hh Hl. unfold u64. cbn [fst snd].
  rewrite !to_uint32_small by lia. reflexivity.
Qed.

(** X5.  [g], the final mix of the bundled library, is the 64-bit
    finaliser of MurmurHash3: three times exclusive-or with the value
    shifted right by 33, with two multiplications modulo 2^64 in
    between. *)
Theorem g_fmix_is_fmix64 (t : x64) :
  let k1 := Z.lxor (u64 t) (u64 t / 2 ^ 33) in
  let k2 := (k1 * 18397679294719823053) mod 2 ^ 64 in
  let k3 := Z.lxor k2 (k2 / 2 ^ 33) in
  let k4 := (k3 * 14181476777654086739) mod 2 ^ 64 in
  u64 (g_fmix t) = Z.lxor k4 (k4 / 2 ^ 33).
Proof.
  cbv zeta. unfold g_fmix.
  rewrite u64_y_xor, u64_shift_33.
  rewrite u64_f_mul.
  rewrite u64_y_xor, u64_shift_33.
  rewrite u64_f_mul.
  rewrite u64_y_xor, u64_shift_33.
  reflexivity.
Qed.

End X64MixFacts.

Module MurmurRenderFacts.
Import Int32 Bitwise Radix FingerprintJS Int32Facts RadixFacts X64Facts X64ShiftFacts.

Lemma parse_digits_from (s : jsstring) (acc : Z) :
  fold_left (fun a c => a * 16 + digit_value c) s acc
  = acc * 16 ^ Z.of_nat (length s) + parse_digits 16 s.
Proof.
  unfold parse_digits. revert acc.
  induction s as [| c s IH]; intros acc.
  - simpl. lia.
  - cbn [fold_left length]. rewrite IH, (IH (0 * 16 + digit_value c)).
    rewrite Nat2Z.inj_succ, Z.pow_succ_r by lia. ring.
Qed.

Lemma parse_digits_app (a b : jsstring) :
  parse_digits 16 (a ++ b)
  = parse_digits 16 a * 16 ^ Z.of_nat (length b) + parse_digits 16 b.
Proof.
  unfold parse_digits at 1. rewrite fold_left_app.
  apply parse_digits_from.
Qed.

Lemma parse_digits_zeros (k : nat) (s : jsstring) :
  parse_digits 16 (repeat 48 k ++ s) = parse_digits 16 s.
Proof.
  rewrite parse_digits_app.
  replace (parse_digits 16 (repeat 48 k)) with 0; [lia |].
  induction k as [| k IH]; [reflexivity |].
  unfold parse_digits in *. cbn [repeat fold_left]. exact IH.
Qed.

Lemma skipn_zeros (m : nat) :
  (m <= 8)%nat -> skipn m (lit "00000000") = repeat 48 (8 - m).
Proof.
  intros H.
  do 9 (destruct m as [| m]; [reflexivity |]). lia.
Qed.

(** The padded rendering: the last eight characters are the digits of
    the word behind as many zeros as are missing. *)
Lemma hex8_padded (x : Z) :
  exists k, hex8 x = repeat 48 k ++ int_toString 16 (to_uint32 x)
            /\ (k + length (int_toString 16 (to_uint32 x)) = 8)%nat.
Proof.
  unfold hex8. rewrite ushr_div by lia.
  change (2 ^ 0) with 1. rewrite Z.div_1_r.
  pose proof (hex_uint32_length (to_uint32 x) (to_uint32_range x)) as Hlen.
  set (ds := int_toString 16 (to_uint32 x)) in *.
  cbv zeta. rewrite length_app.
  change (length (lit "00000000")) with 8%nat.
  replace (8 + length ds - 8)%nat with (length ds) by lia.
  rewrite skipn_app.
  change (length (lit "00000000")) with 8%nat.
  replace (length ds - 8)%nat with 0%nat by lia.
  rewrite skipn_zeros by lia. cbn [skipn].
  exists (8 - length ds)%nat. split; [reflexivity | lia].
Qed.

Lemma hex8_length (x : Z) : length (hex8 x) = 8%nat.
Proof.
  destruct (hex8_padded x) as (k & -> & Hk).
  rewrite length_app, repeat_length. exact Hk.
Qed.

Lemma hex8_chars (x : Z) : Forall (fun c => is_lower_hex c = true) (hex8 x).
Proof.
  destruct (hex8_padded x) as (k & -> & _).
  apply Forall_app. split.
  - apply Forall_forall. intros c Hc. apply repeat_spec in Hc. subst c.
    reflexivity.
  - apply hex_uint32_chars. apply to_uint32_range.
Qed.

Lemma hex8_parse (x : Z) : parse_digits 16 (hex8 x) = to_uint32 x.
Proof.
  destruct (hex8_padded x) as (k & -> & _).
  rewrite parse_digits_zeros.
  pose proof (to_uint32_range x) as Hr.
  unfold int_toString.
  replace (to_uint32 x <? 0) with false by (symmetry; apply Z.ltb_ge; lia).
  apply parse_nat_digits; lia.
Qed.

(** X6.  [W] renders its four words as exactly 32 lower-case hexadecimal
    digits, each word padded with zeros to eight, so that the string
    read as one hexadecimal number is the 128-bit result. *)
Theorem W_murmur_rendering (t : jsstring) (e : Z) :
  length (W_murmur t e) = 32%nat /\
  Forall (fun c => is_lower_hex c = true) (W_murmur t e) /\
  parse_digits 16 (W_murmur t e)
  = u64 (fst (murmur_words (key_bytes t) e)) * 2 ^ 64
    + u64 (snd (murmur_words (key_bytes t) e)).
Proof.
  unfold W_murmur.
  destruct (murmur_words (key_bytes t) e) as [a c]. cbn [fst snd].
  split; [| split].
  - rewrite !length_app, !hex8_length. reflexivity.
  - repeat (apply Forall_app; split); apply hex8_chars.
  - rewrite !parse_digits_app, !length_app, !hex8_length, !hex8_parse.
    unfold u64.
    change (16 ^ Z.of_nat (8 + (8 + 8))) with (2 ^ 96).
    change (16 ^ Z.of_nat (8 + 8)) with (2 ^ 64).
    change (16 ^ Z.of_nat 8) with (2 ^ 32).
    lia.
Qed.

(** *** The bytes of the key *)

Lemma utf8_encode_ascii (t : jsstring) :
  forallb (fun o => negb (127 <? o)) t = true -> utf8_encode t = t.
Proof.
  induction t as [| c t IH]; intros H; [reflexivity |].
  cbn [forallb] in H. apply andb_true_iff in H as [Hc Ht].
  apply negb_true_iff, Z.ltb_ge in Hc.
  cbn [utf8_encode].
  replace (55296 <=? c) with false by (symmetry; apply Z.leb_gt; lia).
  replace (56320 <=? c) with false by (symmetry; apply Z.leb_gt; lia).
  cbn [andb]. unfold utf8_of_code_point.
  replace (c <? 128) with true by (symmetry; apply Z.ltb_lt; lia).
  cbn [app]. f_equal. apply IH. exact Ht.
Qed.

(** X7.  The loop at the head of [W] that copies the code units of an
    all-ASCII key is a shortcut only: for every string the bytes that
    are hashed are its UTF-8 encoding. *)
Theorem key_bytes_is_utf8 (t : jsstring) : key_bytes t = utf8_encode t.
Proof.
  unfold key_bytes.
  destruct (forallb (fun o => negb (127 <? o)) t) eqn:E; [| reflexivity].
  symmetry. apply utf8_encode_ascii. exact E.
Qed.

Lemma utf8_of_code_point_bytes (cp : Z) :
  0 <= cp < 1114112 ->
  Forall (fun b => 0 <= b < 256) (utf8_of_code_point cp).
Proof.
  intros H. unfold utf8_of_code_point.
  destruct (Z.ltb_spec cp 128); [repeat constructor; lia |].
  destruct (Z.ltb_spec cp 2048).
  { pose proof (Z.mod_pos_bound cp 64 ltac:(lia)).
    assert (0 <= cp / 64 < 32)
      by (split; [apply Z.div_pos; lia | apply Z.div_lt_upper_bound; lia]).
    repeat constructor; lia. }
  destruct (Z.ltb_spec cp 65536).
  { pose proof (Z.mod_pos_bound cp 64 ltac:(lia)).
    pose proof (Z.mod_pos_bound (cp / 64) 64 ltac:(lia)).
    assert (0 <= cp / 4096 < 16)
      by (split; [apply Z.div_pos; lia | apply Z.div_lt_upper_bound; lia]).
    repeat constructor; lia. }
  pose proof (Z.mod_pos_bound cp 64 ltac:(lia)).
  pose proof (Z.mod_pos_bound (cp / 64) 64 ltac:(lia)).
  pose proof (Z.mod_pos_bound (cp / 4096) 64 ltac:(lia)).
  assert (0 <= cp / 262144 < 5)
    by (split; [apply Z.div_pos; lia | apply Z.div_lt_upper_bound; lia]).
  repeat constructor; lia.
Qed.

Lemma utf8_encode_bytes_upto (n : nat) (t : jsstring) :
  (length t <= n)%nat ->
  Forall (fun c => 0 <= c < 65536) t ->
  Forall (fun b => 0 <= b < 256) (utf8_encode t).
Proof.
  revert t. induction n as [| n IH]; intros t Hlen Hu.
  - destruct t; [constructor | simpl in Hlen; lia].
  - destruct t as [| c rest]; [constructor |].
    inversion Hu as [| ? ? Hc Hrest]; subst.
    cbn [length] in Hlen.
    cbn [utf8_encode].
    destruct ((55296 <=? c) && (c <=? 56319)) eqn:Ehigh.
    + apply andb_true_iff in Ehigh as [H1 H2].
      apply Z.leb_le in H1. apply Z.leb_le in H2.
      destruct rest as [| d rest'].
      * apply utf8_of_code_point_bytes. lia.
      * inversion Hrest as [| ? ? Hd Hrest']; subst.
        cbn [length] in Hlen.
        destruct ((56320 <=? d) && (d <=? 57343)) eqn:Elow.
        -- apply andb_true_iff in Elow as [H3 H4].
           apply Z.leb_le in H3. apply Z.leb_le in H4.
           apply Forall_app. split.
           ++ apply utf8_of_code_point_bytes. lia.
           ++ apply IH; [lia | exact Hrest'].
        -- apply Forall_app. split.
           ++ apply utf8_of_code_point_bytes. lia.
           ++ apply IH; [cbn [length]; lia | exact Hrest].
    + destruct ((56320 <=? c) && (c <=? 57343)).
      * apply Forall_app. split.
        -- apply utf8_of_code_point_bytes. lia.
        -- apply IH; [lia | exact Hrest].
      * apply Forall_app. split.
        -- apply utf8_of_code_point_bytes. lia.
        -- apply IH; [lia | exact Hrest].
Qed.

(** The key a string of UTF-16 code units gives consists of bytes. *)
Lemma key_bytes_are_bytes (t : jsstring) :
  Forall (fun c => 0 <= c < 65536) t ->
  Forall (fun b => 0 <= b < 256) (key_bytes t).
Proof.
  intros H. unfold key_bytes.
  destruct (forallb (fun o => negb (127 <? o)) t) eqn:E.
  - rewrite <- (utf8_encode_ascii t E).
    apply (utf8_encode_bytes_upto (length t)); [lia | exact H].
  - apply (utf8_encode_bytes_upto (length t)); [lia | exact H].
Qed.

End MurmurRenderFacts.

(* ================================================================== *)
(** * The pixel hashes of the canvas and emoji probes *)
(* ================================================================== *)

Module PixelHashFacts.
Import Int32 Bitwise Radix PixelHash Int32Facts RadixFacts X64Facts.

Lemma to_int32_congr (x y : Z) :
  to_uint32 x = to_uint32 y -> to_int32 x = to_int32 y.
Proof.
  unfold to_uint32, to_int32. intros H.
  rewrite <- (Z.add_mod_idemp_l x), <- (Z.add_mod_idemp_l y) by lia.
  rewrite H. reflexivity.
Qed.

Lemma to_int32_shift (x q : Z) : to_int32 (x + q * 2 ^ 32) = to_int32 x.
Proof.
  apply to_int32_congr. unfold to_uint32. apply Z.mod_add. lia.
Qed.

Lemma band_diag (x : Z) : band x x = to_int32 x.
Proof. unfold band. apply Z.land_diag. Qed.

(** [((h << 5) - h) + s], then [& itself], is [31 * h + s] wrapped to the
    signed 32-bit range. *)
Lemma wrap_31 (h s : Z) :
  to_int32 ((shl h 5 - h) + s) = to_int32 (31 * h + s).
Proof.
  destruct (shl_5_wraps h) as [q ->].
  replace (32 * h + q * 2 ^ 32 - h + s) with (31 * h + s + q * 2 ^ 32) by ring.
  apply to_int32_shift.
Qed.

Lemma wrap_31_inner (h s : Z) :
  to_int32 (31 * to_int32 h + s) = to_int32 (31 * h + s).
Proof.
  destruct (to_int32_wraps h) as [q ->].
  replace (31 * (h + q * 2 ^ 32) + s) with (31 * h + s + (31 * q) * 2 ^ 32)
    by ring.
  apply to_int32_shift.
Qed.

Lemma canvas_step_wraps (h d : Z) : canvas_step h d = to_int32 (31 * h + d).
Proof. unfold canvas_step. cbv zeta. rewrite band_diag. apply wrap_31. Qed.

Lemma fold_left_step {A B : Type} (f : A -> B -> A) (x : B) (l : list B)
  (a : A) : fold_left f (x :: l) a = fold_left f l (f a x).
Proof. reflexivity. Qed.

Lemma canvas_fold (data : list Z) (a : Z) :
  fold_left canvas_step data (to_int32 a)
  = to_int32 (fold_left (fun h d => 31 * h + d) data a).
Proof.
  revert a. induction data as [| d data IH]; intros a; [reflexivity |].
  rewrite !fold_left_step.
  rewrite canvas_step_wraps, wrap_31_inner. apply IH.
Qed.

(** X8.  The loop of [detectCanvasFingerprint], which wraps to 32 bits
    after every byte, computes the base-31 polynomial of all the bytes
    wrapped once to the signed 32-bit range. *)
Theorem canvas_loop_is_polynomial (data : list Z) :
  canvas_loop data = to_int32 (fold_left (fun h d => 31 * h + d) data 0).
Proof.
  unfold canvas_loop.
  change 0 with (to_int32 0) at 1.
  apply canvas_fold.
Qed.

Lemma canvas_loop_range (data : list Z) :
  - 2 ^ 31 <= canvas_loop data < 2 ^ 31.
Proof.
  unfold canvas_loop. change 0 with (to_int32 0).
  rewrite canvas_fold. apply to_int32_range.
Qed.

Lemma nat_digits_hex (n : Z) :
  0 < n < 2 ^ 32 ->
  (1 <= length (nat_digits 16 n) <= 8)%nat /\
  Forall (fun c => is_lower_hex c = true) (nat_digits 16 n).
Proof.
  intros H.
  pose proof (hex_uint32_length n ltac:(lia)) as Hl.
  pose proof (hex_uint32_chars n ltac:(lia)) as Hc.
  unfold int_toString in Hl, Hc.
  replace (n <? 0) with false in Hl, Hc by (symmetry; apply Z.ltb_ge; lia).
  split; assumption.
Qed.

(** X9.  The [hash] string of the canvas probe is signed: a minus sign
    when the loop ends on a negative number, then one to eight
    lower-case hexadecimal digits, without padding. *)
Theorem canvas_hash_is_signed_hex (data : list Z) :
  exists digits,
    canvas_hash data
    = (if canvas_loop data <? 0 then 45 :: digits else digits) /\
    (1 <= length digits <= 8)%nat /\
    Forall (fun c => is_lower_hex c = true) digits /\
    parse_digits 16 digits = Z.abs (canvas_loop data).
Proof.
  unfold canvas_hash, int_toString.
  pose proof (canvas_loop_range data) as Hr.
  destruct (Z.ltb_spec (canvas_loop data) 0) as [Hneg | Hpos].
  - exists (nat_digits 16 (- canvas_loop data)).
    split; [reflexivity |].
    destruct (nat_digits_hex (- canvas_loop data) ltac:(lia)) as [Hl Hc].
    split; [exact Hl |]. split; [exact Hc |].
    rewrite parse_nat_digits by lia. lia.
  - exists (nat_digits 16 (canvas_loop data)).
    split; [reflexivity |].
    destruct (Z.eq_dec (canvas_loop data) 0) as [E0 | Hnz].
    + rewrite E0. split; [simpl; lia |].
      split; [repeat constructor |]. reflexivity.
    + destruct (nat_digits_hex (canvas_loop data) ltac:(lia)) as [Hl Hc].
      split; [exact Hl |]. split; [exact Hc |].
      rewrite parse_nat_digits by lia. lia.
Qed.

Lemma emoji_step_wraps (h r g b : Z) :
  emoji_step h r g b = to_int32 (31 * h + (r + g + b)).
Proof.
  unfold emoji_step. cbv zeta. rewrite band_diag.
  replace (shl h 5 - h + r + g + b) with ((shl h 5 - h) + (r + g + b)) by ring.
  apply wrap_31.
Qed.

Lemma emoji_loop_pixel (r g b al : Z) (rest : list Z) (h : Z) :
  emoji_loop (r :: g :: b :: al :: rest) h
  = emoji_loop rest (emoji_step h r g b).
Proof. lazy beta iota delta [emoji_loop]. fold emoji_loop. reflexivity. Qed.

Lemma rgba_bytes_cons (r g b al : Z) (pixels : list (Z * Z * Z * Z)) :
  rgba_bytes ((r, g, b, al) :: pixels) = r :: g :: b :: al :: rgba_bytes pixels.
Proof. reflexivity. Qed.

Lemma emoji_fold (pixels : list (Z * Z * Z * Z)) (a : Z) :
  emoji_loop (rgba_bytes pixels) (to_int32 a)
  = to_int32
      (fold_left (fun h s => 31 * h + s)
         (map (fun '(r, g, b, _) => r + g + b) pixels) a).
Proof.
  revert a. induction pixels as [| [[[r g] b] al] pixels IH]; intros a.
  - reflexivity.
  - rewrite rgba_bytes_cons, emoji_loop_pixel, map_cons, fold_left_step.
    rewrite emoji_step_wraps, wrap_31_inner.
    apply IH.
Qed.

(** X10.  The hash of [detectEmojiRendering] sees of every pixel the
    sum of its red, green and blue bytes only: it is the base-31
    polynomial of these sums, wrapped to the signed 32-bit range, and the
    alpha byte plays no part in it. *)
Theorem emoji_hash_is_polynomial_of_sums (pixels : list (Z * Z * Z * Z)) :
  emoji_hash (rgba_bytes pixels)
  = to_int32
      (fold_left (fun h s => 31 * h + s)
         (map (fun '(r, g, b, _) => r + g + b) pixels) 0).
Proof.
  unfold emoji_hash.
  change 0 with (to_int32 0) at 1.
  apply emoji_fold.
Qed.

End PixelHashFacts.

(* ================================================================== *)
(** * Font detection *)
(* ================================================================== *)

Module FontProbeFacts.
Import JsStringFacts FontProbe.

Lemma flag_loop {A : Type} (p : A -> bool) (l : list A) (flag : bool) :
  fold_left (fun detected x => if p x then true else detected) l flag
  = flag || existsb p l.
Proof.
  revert flag. induction l as [| x l IH]; intros flag; cbn [fold_left existsb].
  - now rewrite orb_false_r.
  - rewrite IH. destruct (p x), flag; reflexivity.
Qed.

Lemma push_loop {A : Type} (p : A -> bool) (l acc : list A) :
  fold_left (fun found x => if p x then found ++ [x] else found) l acc
  = acc ++ filter p l.
Proof.
  revert acc. induction l as [| x l IH]; intros acc; cbn [fold_left filter].
  - now rewrite app_nil_r.
  - rewrite IH. destruct (p x); [| reflexivity].
    now rewrite <- app_assoc.
Qed.

Lemma count_occ_filter {A : Type} (dec : forall x y : A, {x = y} + {x <> y})
  (p : A -> bool) (l : list A) (x : A) :
  count_occ dec (filter p l) x = if p x then count_occ dec l x else 0%nat.
Proof.
  induction l as [| y l IH]; cbn [filter count_occ].
  - now destruct (p x).
  - destruct (p y) eqn:Ey; cbn [count_occ];
      destruct (dec y x) as [-> | Hne]; rewrite IH.
    + now rewrite Ey.
    + reflexivity.
    + now rewrite Ey.
    + reflexivity.
Qed.

Section Canvas.
Variable width : Type.
Variable measure : jsstring -> width.
Variable strict_neq : width -> width -> bool.

Lemma baseline_found (baseFont : jsstring) :
  In baseFont baseFonts ->
  baseline width baseFont (baselines width measure)
  = Some (measure (base_font baseFont)).
Proof.
  intros [<- | [<- | [<- | []]]]; reflexivity.
Qed.

Lemma differs_on_base (testFont baseFont : jsstring) :
  In baseFont baseFonts ->
  differs width measure strict_neq testFont baseFont
  = strict_neq (measure (fallback_font testFont baseFont))
               (measure (base_font baseFont)).
Proof.
  intros H. unfold differs. now rewrite baseline_found.
Qed.

Lemma detected_break_existsb (font : jsstring) (bases : list jsstring) :
  detected_break width measure strict_neq font bases
  = existsb (differs width measure strict_neq font) bases.
Proof.
  induction bases as [| b bases IH]; cbn [detected_break existsb];
    [reflexivity |].
  rewrite IH. now destruct (differs width measure strict_neq font b).
Qed.

Lemma existsb_differs (font : jsstring) :
  existsb (differs width measure strict_neq font) baseFonts
  = existsb (fun baseFont =>
               strict_neq (measure (fallback_font font baseFont))
                          (measure (base_font baseFont)))
            baseFonts.
Proof.
  unfold baseFonts. cbn [map existsb].
  rewrite !differs_on_base
    by (unfold baseFonts; cbn [map In]; auto).
  reflexivity.
Qed.

(** The two inner loops decide the same thing. *)
Lemma detected_agree (font : jsstring) :
  detected_forEach width measure strict_neq font
  = detected_break width measure strict_neq font baseFonts.
Proof.
  unfold detected_forEach.
  rewrite flag_loop, detected_break_existsb. reflexivity.
Qed.

Lemma detectAvailableFonts_filter :
  detectAvailableFonts width measure strict_neq
  = filter (fun font =>
              existsb (fun baseFont =>
                         strict_neq (measure (fallback_font font baseFont))
                                    (measure (base_font baseFont)))
                      baseFonts)
           testFonts.
Proof.
  unfold detectAvailableFonts.
  rewrite push_loop. cbn [app].
  apply filter_ext. intros font.
  unfold detected_forEach. rewrite flag_loop. cbn [orb].
  apply existsb_differs.
Qed.

Lemma detectFonts_filter :
  detectFonts width measure strict_neq
  = filter (fun font =>
              existsb (fun baseFont =>
                         strict_neq (measure (fallback_font font baseFont))
                                    (measure (base_font baseFont)))
                      baseFonts)
           commonFonts.
Proof.
  unfold detectFonts.
  rewrite push_loop. cbn [app].
  apply filter_ext. intros font.
  rewrite detected_break_existsb.
  apply existsb_differs.
Qed.

(** X11.  [CSSFingerprint.detectAvailableFonts] returns, in the order of
    [testFonts], exactly the fonts for which some base font measures
    differently with the font in front of it than alone. *)
Theorem detectAvailableFonts_is_filter :
  detectAvailableFonts width measure strict_neq
  = filter (fun font =>
              existsb (fun baseFont =>
                         strict_neq (measure (fallback_font font baseFont))
                                    (measure (base_font baseFont)))
                      baseFonts)
           testFonts.
Proof.
  unfold detectAvailableFonts.
  rewrite push_loop. cbn [app].
  apply filter_ext. intros font.
  rewrite detected_agree, detected_break_existsb.
  apply existsb_differs.
Qed.

(** X12.  [AdvancedCSSFingerprint.detectFonts], whose inner loop stops at
    the first base font that differs, applies the same test as
    [detectAvailableFonts], whose inner loop visits all three: a font
    that both lists contain is reported by both or by neither. *)
Theorem font_detectors_agree (font : jsstring) :
  In font testFonts -> In font commonFonts ->
  (In font (detectAvailableFonts width measure strict_neq)
   <-> In font (detectFonts width measure strict_neq)).
Proof.
  intros Ht Hc.
  rewrite detectAvailableFonts_filter, detectFonts_filter.
  rewrite !filter_In. tauto.
Qed.

(** X13.  ['Tahoma'] stands twice in [commonFonts], so [detectFonts]
    reports it twice when some base font measures differently with
    Tahoma in front of it, and not at all otherwise. *)
Theorem detectFonts_reports_Tahoma_twice :
  count_occ (list_eq_dec Z.eq_dec) (detectFonts width measure strict_neq)
            (lit "Tahoma")
  = if existsb (fun baseFont =>
                  strict_neq (measure (fallback_font (lit "Tahoma") baseFont))
                             (measure (base_font baseFont)))
               baseFonts
    then 2%nat else 0%nat.
Proof.
  rewrite detectFonts_filter, count_occ_filter.
  destruct (existsb _ baseFonts); [| reflexivity].
  vm_compute. reflexivity.
Qed.

End Canvas.

(** A canvas that measures the length of the font string: every font
    in front of a base font changes the width. *)
Lemma font_detectors_agree_witness :
  In (lit "Arial") testFonts /\ In (lit "Arial") commonFonts /\
  (In (lit "Arial")
      (detectAvailableFonts nat (@length Z) (fun a b => negb (Nat.eqb a b)))
   <-> In (lit "Arial")
          (detectFonts nat (@length Z) (fun a b => negb (Nat.eqb a b)))).
Proof.
  assert (Ht : In (lit "Arial") testFonts) by (apply in_map; left; reflexivity).
  assert (Hc : In (lit "Arial") commonFonts)
    by (apply in_map; left; reflexivity).
  split; [exact Ht |]. split; [exact Hc |].
  exact (font_detectors_agree nat (@length Z)
           (fun a b => negb (Nat.eqb a b)) (lit "Arial") Ht Hc).
Defined.

End FontProbeFacts.

(* ================================================================== *)
(** * The candidate handler of [detectWebRTCFingerprint] *)
(* ================================================================== *)

Module WebRTCFacts.
Import Js JsStringFacts WebRTC.

Section Handler.
Context {F : Float64}.

Lemma absent_not_in (ip : jsstring) (ips : list jsstring) :
  absent ip ips = true -> ~ In ip ips.
Proof.
  unfold absent. intros H Hin.
  apply negb_true_iff in H.
  assert (E : existsb (str_eqb ip) ips = true).
  { apply existsb_exists. exists ip. split; [exact Hin | apply str_eqb_refl]. }
  congruence.
Qed.

(** A call of the handler leaves the array alone or appends one new,
    non-empty string, the fifth field of the candidate line. *)
Lemma deliver_cases (ips : list jsstring) (ice : value) :
  deliver ips ice = ips \/
  exists s ip,
    get (get ice (lit "candidate")) (lit "candidate") = VStr s /\
    nth_error (split_space s) 4 = Some ip /\
    ip <> [] /\ ~ In ip ips /\ deliver ips ice = ips ++ [ip].
Proof.
  unfold deliver, onicecandidate.
  destruct (negb (truthy ice)
            || negb (truthy (get ice (lit "candidate")))
            || negb (truthy (get (get ice (lit "candidate")) (lit "candidate"))));
    [left; reflexivity |].
  destruct (get (get ice (lit "candidate")) (lit "candidate"));
    try (left; reflexivity).
  destruct (nth_error (split_space s) 4) as [ip |] eqn:E4; [| left; reflexivity].
  destruct (truthy (VStr ip) && absent ip ips) eqn:Ec; [| left; reflexivity].
  apply andb_true_iff in Ec as [Ht Ha].
  right. exists s, ip.
  split; [reflexivity |]. split; [exact E4 |].
  split; [intros ->; discriminate |].
  split; [now apply absent_not_in | reflexivity].
Qed.

Lemma deliver_all (all events : list value) (ips : list jsstring) :
  incl events all ->
  NoDup ips -> ~ In [] ips ->
  Forall (fun ip => exists ice s,
            In ice all /\
            get (get ice (lit "candidate")) (lit "candidate") = VStr s /\
            nth_error (split_space s) 4 = Some ip) ips ->
  NoDup (fold_left deliver events ips) /\
  ~ In [] (fold_left deliver events ips) /\
  Forall (fun ip => exists ice s,
            In ice all /\
            get (get ice (lit "candidate")) (lit "candidate") = VStr s /\
            nth_error (split_space s) 4 = Some ip)
         (fold_left deliver events ips).
Proof.
  revert ips. induction events as [| ice events IH]; intros ips Hall Hnd Hne Hsrc;
    cbn [fold_left]; [repeat split; assumption |].
  assert (Hice : In ice all) by (apply Hall; left; reflexivity).
  assert (Hrest : incl events all)
    by (intros x Hx; apply Hall; right; exact Hx).
  destruct (deliver_cases ips ice)
    as [-> | (s & ip & Hs & H4 & Hip & Hnew & ->)].
  - apply IH; assumption.
  - apply IH.
    + exact Hrest.
    + apply NoDup_app; [exact Hnd | repeat constructor; intros [] |].
      intros x Hx [<- | []]. contradiction.
    + intros Hin. apply in_app_or in Hin as [Hin | [Hin | []]];
        [contradiction | congruence].
    + apply Forall_app. split; [exact Hsrc |].
      constructor; [| constructor].
      exists ice, s. repeat split; assumption.
Qed.

(** X14.  Whatever events the peer connection delivers, and in whatever
    order, [localIPs] never holds the same address twice and never holds
    an empty string, and each address it holds is the fifth
    space-separated field of a candidate line that was delivered. *)
Theorem localIPs_distinct_nonempty (events : list value) :
  NoDup (localIPs events) /\
  ~ In [] (localIPs events) /\
  Forall (fun ip => exists ice s,
            In ice events /\
            get (get ice (lit "candidate")) (lit "candidate") = VStr s /\
            nth_error (split_space s) 4 = Some ip)
         (localIPs events).
Proof.
  unfold localIPs.
  apply deliver_all;
    [intros x Hx; exact Hx | constructor | intros [] | constructor].
Qed.

End Handler.
End WebRTCFacts.

(* ================================================================== *)
(** * Values whose [ToString] returns *)
(* ================================================================== *)

Module ToStringFacts.
Import Js JsStringFacts JsFacts ToStringErrors.

Section Values.
Context {F : Float64}.

(** Induction on a value and, inside it, on its elements and on the
    values of its properties. *)
Lemma value_nested_ind (P : value -> Prop) :
  P VUndefined -> P VNull ->
  (forall b, P (VBool b)) -> (forall z, P (VInt z)) ->
  (forall d, P (VDouble d)) -> (forall s, P (VStr s)) ->
  (forall l, Forall P l -> P (VArr l)) ->
  (forall ps, Forall (fun p => P (snd p)) ps -> P (VObj ps)) ->
  forall v, P v.
Proof.
  intros Hu Hn Hb Hz Hd Hs Harr Hobj. fix IH 1.
  intros [| | b | z | d | s | l | ps].
  - exact Hu.
  - exact Hn.
  - apply Hb.
  - apply Hz.
  - apply Hd.
  - apply Hs.
  - apply Harr. induction l as [| x l IHl]; constructor; [apply IH | exact IHl].
  - apply Hobj.
    induction ps as [| [k x] ps IHps]; constructor; [apply IH | exact IHps].
Qed.

Lemma elements_plain (l : list value) :
  Forall (fun x => plain x = true -> ToString x = Normal (toString x)) l ->
  forallb plain l = true ->
  map_c (fun x => match x with
                  | VUndefined | VNull => Normal []
                  | _ => ToString x
                  end) l
  = Normal (map (fun x => match x with
                          | VUndefined | VNull => []
                          | _ => toString x
                          end) l).
Proof.
  induction 1 as [| x l Hx _ IH]; cbn [forallb map_c map]; [reflexivity |].
  intros H. apply andb_true_iff in H. destruct H as [Hp Hl].
  rewrite (IH Hl).
  destruct x; try (rewrite (Hx Hp)); reflexivity.
Qed.

(** On a plain value [ToString] returns, and what it returns is what
    [toString] renders. *)
Lemma ToString_plain (v : value) :
  plain v = true -> ToString v = Normal (toString v).
Proof.
  induction v as [| | b | z | d | s | l IH | ps IH] using value_nested_ind;
    intros H; try reflexivity.
  - cbn [ToString toString plain] in *.
    rewrite (elements_plain l IH H). reflexivity.
  - cbn [ToString toString plain] in *.
    apply andb_true_iff in H. destruct H as [H _].
    destruct (owns (lit "toString") ps); [discriminate | reflexivity].
Qed.

(** An object with an own property named [toString] has no string
    conversion. *)
Lemma ToString_own_toString ps (x : value) :
  lookup (lit "toString") ps = Some x -> ToString (VObj ps) = Throw TypeError.
Proof. intros H. cbn [ToString]. unfold owns. now rewrite H. Qed.

(** The conversions of a template literal return on plain operands,
    with the strings [template] concatenates. *)
Lemma template_conversions (parts : list value) :
  forallb plain parts = true ->
  map_c ToString parts = Normal (map toString parts).
Proof.
  induction parts as [| x parts IH]; cbn [forallb map_c map]; [reflexivity |].
  intros H. apply andb_true_iff in H. destruct H as [Hx Hparts].
  now rewrite (ToString_plain x Hx), (IH Hparts).
Qed.

(** So do the conversions of [join], with the strings [join_elem]
    gives. *)
Lemma join_conversions (l : list value) :
  forallb plain l = true ->
  map_c (fun x => match x with
                  | VUndefined | VNull => Normal []
                  | _ => ToString x
                  end) l
  = Normal (map join_elem l).
Proof.
  intros H. apply elements_plain; [| exact H].
  apply Forall_forall. intros x _. apply ToString_plain.
Qed.

(** *** The parts of a plain value are plain *)

Lemma plain_lookup (k : jsstring) ps (x : value) :
  forallb (fun p => plain (snd p)) ps = true ->
  lookup k ps = Some x -> plain x = true.
Proof.
  induction ps as [| [k' y] ps IH]; cbn [forallb lookup snd]; [discriminate |].
  intros H. apply andb_true_iff in H. destruct H as [Hy Hps].
  destruct (str_eqb k k'); [| now apply IH].
  intros E. injection E as <-. exact Hy.
Qed.

Lemma plain_lookup_or_undefined (k : jsstring) ps :
  forallb (fun p => plain (snd p)) ps = true ->
  plain (lookup_or_undefined k ps) = true.
Proof.
  intros H. unfold lookup_or_undefined.
  destruct (lookup k ps) as [x |] eqn:E; [| reflexivity].
  exact (plain_lookup k ps x H E).
Qed.

Lemma plain_indexed (i : nat) (l : list value) :
  forallb plain l = true ->
  forallb (fun p => plain (snd p)) (indexed_from i l) = true.
Proof.
  revert i. induction l as [| x l IH]; intros i; cbn [forallb indexed_from snd];
    [reflexivity |].
  intros H. apply andb_true_iff in H. destruct H as [Hx Hl].
  rewrite Hx. now apply IH.
Qed.

Lemma plain_chars (i : nat) (s : jsstring) :
  forallb (fun p => plain (snd p))
    (indexed_from i (map (fun c => VStr [c]) s)) = true.
Proof.
  apply plain_indexed. induction s as [| c s IH]; [reflexivity | exact IH].
Qed.

Lemma plain_get (v : value) (k : jsstring) :
  plain v = true -> plain (get v k) = true.
Proof.
  destruct v as [| | b | z | d | s | l | ps]; intros H; try reflexivity.
  - cbn [get own_props].
    destruct (str_eqb k (lit "length")); [reflexivity |].
    apply plain_lookup_or_undefined, plain_chars.
  - cbn [get own_props].
    destruct (str_eqb k (lit "length")); [reflexivity |].
    apply plain_lookup_or_undefined, plain_indexed. exact H.
  - cbn [get own_props]. apply plain_lookup_or_undefined.
    cbn [plain] in H. apply andb_true_iff in H. apply H.
Qed.

Lemma plain_or_else (a b : value) :
  plain a = true -> plain b = true -> plain (or_else a b) = true.
Proof. intros Ha Hb. unfold or_else. now destruct (truthy a). Qed.

End Values.
End ToStringFacts.

(* ================================================================== *)
(** * The probes of [AdvancedCSSFingerprint] and its [generate] *)
(* ================================================================== *)

Module AdvancedCSSProbeFacts.
Import Js Promise JsStringFacts JsFacts ToStringErrors AdvancedCSSProbes.

Section Engine.
Context {F : Float64}.
Variable width : Type.

(** The query string of the loop: [`(feature: ${option})`]. *)
Lemma first_match_first (h : host width) (m : jsstring -> bool)
  (feature : string) (options : list string) (fallback : string) :
  matchMedia width h = Some m ->
  (exists before choice after,
     options = before ++ choice :: after /\
     Forall (fun o => m (lit "(" ++ lit feature ++ lit ": " ++ lit o ++ lit ")")
                      = false) before /\
     m (lit "(" ++ lit feature ++ lit ": " ++ lit choice ++ lit ")") = true /\
     first_match width h feature options fallback = Normal (VStr (lit choice)))
  \/
  (Forall (fun o => m (lit "(" ++ lit feature ++ lit ": " ++ lit o ++ lit ")")
                    = false) options /\
   first_match width h feature options fallback = Normal (VStr (lit fallback))).
Proof.
  intros Hm.
  induction options as [| o options IH]; cbn [first_match].
  - right. split; [constructor | reflexivity].
  - unfold matches. rewrite Hm. cbn [bind].
    destruct (m (lit "(" ++ lit feature ++ lit ": " ++ lit o ++ lit ")")) eqn:Eo.
    + left. exists [], o, options.
      split; [reflexivity |]. split; [constructor |].
      split; [exact Eo | reflexivity].
    + destruct IH as [(before & choice & after & -> & Hb & Hc & Hr) | [Hall Hr]].
      * left. exists (o :: before), choice, after.
        split; [reflexivity |]. split; [constructor; assumption |].
        split; assumption.
      * right. split; [constructor; assumption | exact Hr].
Qed.

Lemma first_match_string (h : host width) (m : jsstring -> bool)
  (feature : string) (options : list string) (fallback : string) :
  matchMedia width h = Some m ->
  exists s, first_match width h feature options fallback = Normal (VStr s).
Proof.
  intros Hm.
  destruct (first_match_first h m feature options fallback Hm)
    as [(_ & choice & _ & _ & _ & _ & ->) | [_ ->]]; eexists; reflexivity.
Qed.

Lemma first_match_throws (h : host width)
  (feature : string) (o : string) (options : list string) (fallback : string) :
  matchMedia width h = None ->
  first_match width h feature (o :: options) fallback = Throw TypeError.
Proof.
  intros Hm. cbn [first_match]. unfold matches. rewrite Hm. reflexivity.
Qed.


(** *** [generate] *)

Lemma probes_without_context (h : host width) :
  context2d width h = None ->
  promise_all (probes width h) = Rejected TypeError.
Proof.
  intros Hc. unfold probes, detectFonts. rewrite Hc. reflexivity.
Qed.

Lemma probes_without_matchMedia (h : host width) :
  matchMedia width h = None ->
  promise_all (probes width h) = Rejected TypeError.
Proof.
  intros Hm. unfold probes, detectFonts.
  destruct (context2d width h); [| reflexivity].
  cbn [map async_return promise_all].
  unfold detectColorScheme. rewrite first_match_throws by exact Hm.
  reflexivity.
Qed.

Ltac settle_loops h m Hm :=
  repeat match goal with
         | |- context [first_match _ h ?f ?o ?d] =>
             let s := fresh "s" in
             let E := fresh "E" in
             destruct (first_match_string h m f o d Hm) as [s E];
             rewrite E; clear E
         end.

Lemma probes_unbound_screen (h : host width) (measure : jsstring -> width)
  (m : jsstring -> bool) :
  context2d width h = Some measure -> matchMedia width h = Some m ->
  screen width h = None ->
  promise_all (probes width h) = Rejected ReferenceError.
Proof.
  intros Hc Hm Hs.
  unfold probes, detectFonts, detectColorScheme, detectPrefersReducedMotion,
    detectPrefersContrast, detectForcedColors, detectInvertedColors,
    detectOrientation, detectPointerType, detectHoverCapability,
    detectDisplayMode, detectScreenResolution, choose, flag, matches,
    screen_get.
  rewrite Hc, Hm, Hs. cbn [bind map async_return].
  settle_loops h m Hm.
  reflexivity.
Qed.

Lemma probes_nullish_screen (h : host width) (measure : jsstring -> width)
  (m : jsstring -> bool) (s : value) :
  context2d width h = Some measure -> matchMedia width h = Some m ->
  screen width h = Some s -> nullish s = true ->
  promise_all (probes width h) = Rejected TypeError.
Proof.
  intros Hc Hm Hs Hn.
  unfold probes, detectFonts, detectColorScheme, detectPrefersReducedMotion,
    detectPrefersContrast, detectForcedColors, detectInvertedColors,
    detectOrientation, detectPointerType, detectHoverCapability,
    detectDisplayMode, detectScreenResolution, choose, flag, matches,
    screen_get, strict_get.
  rewrite Hc, Hm, Hs, Hn. cbn [bind map async_return].
  settle_loops h m Hm.
  reflexivity.
Qed.

(** The object [detectScreenResolution] builds. *)
Lemma plain_resolution (a b c d e f : value) :
  plain a = true -> plain b = true -> plain c = true ->
  plain d = true -> plain e = true -> plain f = true ->
  plain (VObj [ (lit "width", a); (lit "height", b);
                (lit "availWidth", c); (lit "availHeight", d);
                (lit "colorDepth", e); (lit "pixelDepth", f) ]) = true.
Proof.
  intros Ha Hb Hc Hd He Hf.
  assert (E : owns (lit "toString")
                [ (lit "width", a); (lit "height", b);
                  (lit "availWidth", c); (lit "availHeight", d);
                  (lit "colorDepth", e); (lit "pixelDepth", f) ] = false)
    by reflexivity.
  cbn [plain forallb snd]. rewrite E, Ha, Hb, Hc, Hd, He, Hf. reflexivity.
Qed.

Lemma plain_host_parts (h : host width) (s : value) :
  screen width h = Some s -> plain_host width h = true ->
  plain s = true /\ plain (devicePixelRatio width h) = true.
Proof.
  unfold plain_host. intros -> H. apply andb_true_iff in H. exact H.
Qed.

Lemma probes_fulfil (h : host width) (measure : jsstring -> width)
  (m : jsstring -> bool) (s : value) :
  context2d width h = Some measure -> matchMedia width h = Some m ->
  screen width h = Some s -> nullish s = false ->
  exists rest,
    promise_all (probes width h)
    = Fulfilled
        (VArr (map VStr (FontProbe.detectFonts width measure (strict_neq width h)))
         :: rest)
    /\ (plain_host width h = true -> forallb plain rest = true).
Proof.
  intros Hc Hm Hs Hn.
  unfold probes, detectFonts, detectColorScheme, detectPrefersReducedMotion,
    detectPrefersContrast, detectForcedColors, detectInvertedColors,
    detectOrientation, detectPointerType, detectHoverCapability,
    detectDisplayMode, detectScreenResolution, detectDevicePixelRatio,
    detectColorGamut, detectDynamicRange, detectMonochrome, detectGrid,
    detectUpdate, detectOverflowBlock, detectOverflowInline, detectScan,
    detectScripting, choose, flag, matches, screen_get, strict_get.
  rewrite Hc, Hm, Hs, Hn. cbn [bind map async_return].
  settle_loops h m Hm.
  cbn [async_return promise_all]. eexists. split; [reflexivity |].
  intros Hp. destruct (plain_host_parts h s Hs Hp) as [Hps Hpd].
  cbn [forallb].
  rewrite plain_resolution by (apply ToStringFacts.plain_get; exact Hps).
  rewrite ToStringFacts.plain_or_else by (exact Hpd || reflexivity).
  reflexivity.
Qed.

(** X16.  On a host that binds [document] and [window],
    [AdvancedCSSFingerprint.generate] rejects, leaving [this.results]
    as it was: with a [TypeError] when the canvas gives no 2d context or
    [window.matchMedia] is missing; otherwise with a [ReferenceError]
    when no global named [screen] is bound, and with a [TypeError] when
    [screen] is [null] or [undefined].  On every other such host it
    fulfils, and stores what it fulfils with. *)
Theorem generate_fulfils_or_rejects (h : host width) (this_results : value) :
  match context2d width h, matchMedia width h with
  | Some _, Some _ =>
      match screen width h with
      | None =>
          generate width h this_results = (Rejected ReferenceError, this_results)
      | Some s =>
          if nullish s
          then generate width h this_results = (Rejected TypeError, this_results)
          else exists r, generate width h this_results = (Fulfilled r, r)
      end
  | _, _ => generate width h this_results = (Rejected TypeError, this_results)
  end.
Proof.
  unfold generate.
  destruct (context2d width h) as [measure |] eqn:Hc.
  - destruct (matchMedia width h) as [m |] eqn:Hm.
    + destruct (screen width h) as [s |] eqn:Hs.
      * destruct (nullish s) eqn:Hn.
        -- now rewrite (probes_nullish_screen h measure m s Hc Hm Hs Hn).
        -- destruct (probes_fulfil h measure m s Hc Hm Hs Hn) as [rest [-> _]].
           eexists. reflexivity.
      * now rewrite (probes_unbound_screen h measure m Hc Hm Hs).
    + now rewrite probes_without_matchMedia.
  - destruct (matchMedia width h); now rewrite probes_without_context.
Qed.

Lemma fulfilled_inj {A : Type} (a b : A) : Fulfilled a = Fulfilled b -> a = b.
Proof. intros H. injection H. auto. Qed.

Lemma hashable_assemble (fonts rest : list value) :
  AdvancedCSSFingerprint.hashable (assemble (VArr fonts :: rest)) = true.
Proof. reflexivity. Qed.

Lemma plain_strings (l : list jsstring) : forallb plain (map VStr l) = true.
Proof. induction l as [| x l IH]; [reflexivity | exact IH]. Qed.

Lemma plain_at_index (results : list value) (i : nat) :
  forallb plain results = true -> plain (at_index results i) = true.
Proof.
  unfold at_index. revert i.
  induction results as [| x results IH]; intros i H.
  - destruct i; reflexivity.
  - cbn [forallb] in H. apply andb_true_iff in H. destruct H as [Hx Hr].
    destruct i; [exact Hx | now apply IH].
Qed.

Lemma plain_assemble (results : list value) :
  forallb plain results = true -> plain (assemble results) = true.
Proof.
  intros H. unfold assemble.
  assert (E : forall a0 a1 a2 a3 a4 a5 a6 a7 a8 a9 a10 a11 a12 a13 a14 a15
                     a16 a17 a18 a19 a20 : value,
             owns (lit "toString")
               [ (lit "fonts", a0); (lit "colorScheme", a1);
                 (lit "prefersReducedMotion", a2); (lit "prefersContrast", a3);
                 (lit "forcedColors", a4); (lit "invertedColors", a5);
                 (lit "orientation", a6); (lit "pointerType", a7);
                 (lit "hoverCapability", a8); (lit "displayMode", a9);
                 (lit "screenResolution", a10); (lit "devicePixelRatio", a11);
                 (lit "colorGamut", a12); (lit "dynamicRange", a13);
                 (lit "monochrome", a14); (lit "grid", a15);
                 (lit "update", a16); (lit "overflowBlock", a17);
                 (lit "overflowInline", a18); (lit "scan", a19);
                 (lit "scripting", a20) ] = false)
    by reflexivity.
  cbn [plain forallb snd]. rewrite E.
  rewrite !plain_at_index by exact H. reflexivity.
Qed.

(** X17.  On a host whose [screen] and [window.devicePixelRatio] hold no
    object with an own property named [toString], the record with which
    [generate] fulfils holds none either and is one that [getHash]
    accepts: [fonts] is an array of strings, so the hash of the
    generated record is produced, not an exception. *)
Theorem getHash_after_generate (h : host width) (this_results r : value) :
  plain_host width h = true ->
  fst (generate width h this_results) = Fulfilled r ->
  plain r = true /\
  exists hash, AdvancedCSSFingerprint.getHash r = Normal hash.
Proof.
  unfold generate. intros Hp Hg.
  destruct (context2d width h) as [measure |] eqn:Hc.
  2: { rewrite probes_without_context in Hg by exact Hc. discriminate. }
  destruct (matchMedia width h) as [m |] eqn:Hm.
  2: { rewrite probes_without_matchMedia in Hg by exact Hm. discriminate. }
  destruct (screen width h) as [s |] eqn:Hs.
  2: { rewrite (probes_unbound_screen h measure m Hc Hm Hs) in Hg.
       discriminate. }
  destruct (nullish s) eqn:Hn.
  { rewrite (probes_nullish_screen h measure m s Hc Hm Hs Hn) in Hg.
    discriminate. }
  destruct (probes_fulfil h measure m s Hc Hm Hs Hn) as [rest [E Hrest]].
  rewrite E in Hg. cbn [fst] in Hg. apply fulfilled_inj in Hg. subst r.
  split.
  - apply plain_assemble. cbn [forallb plain].
    rewrite plain_strings. exact (Hrest Hp).
  - unfold AdvancedCSSFingerprint.getHash.
    pose proof (AdvancedCSSFacts.features_returns
                  (assemble (VArr (map VStr
                     (FontProbe.detectFonts width measure (strict_neq width h)))
                   :: rest))) as Hf.
    rewrite hashable_assemble in Hf.
    destruct Hf as [fs ->]. eexists. reflexivity.
Qed.

End Engine.


(** [generate] without [screen]: the reason tells an unbound identifier
    from one bound to [undefined]. *)
Lemma generate_without_screen :
  generate nat ProbeSamples.desktop_unbound_screen (VObj [])
  = (Rejected ReferenceError, VObj []) /\
  generate nat ProbeSamples.desktop_undefined_screen (VObj [])
  = (Rejected TypeError, VObj []).
Proof. split; vm_compute; reflexivity. Qed.

(** [generate] on the sample desktop, then [getHash]. *)
Lemma getHash_after_generate_witness :
  plain_host nat ProbeSamples.desktop = true /\
  fst (generate nat ProbeSamples.desktop (VObj []))
  = Fulfilled (snd (generate nat ProbeSamples.desktop (VObj []))) /\
  plain (snd (generate nat ProbeSamples.desktop (VObj []))) = true /\
  exists hash,
    AdvancedCSSFingerprint.getHash
      (snd (generate nat ProbeSamples.desktop (VObj []))) = Normal hash.
Proof.
  assert (Hp : plain_host nat ProbeSamples.desktop = true)
    by (vm_compute; reflexivity).
  assert (H : fst (generate nat ProbeSamples.desktop (VObj []))
              = Fulfilled (snd (generate nat ProbeSamples.desktop (VObj []))))
    by (vm_compute; reflexivity).
  split; [exact Hp |]. split; [exact H |].
  exact (getHash_after_generate nat ProbeSamples.desktop (VObj [])
           (snd (generate nat ProbeSamples.desktop (VObj []))) Hp H).
Defined.

End AdvancedCSSProbeFacts.

(* ================================================================== *)
(** * [AdvancedBrowserFingerprint.getHash]: what it leaves behind and
      when it throws *)
(* ================================================================== *)

Module AdvancedBrowserStateFacts.
Import Js Radix Djb2 JsStringFacts RadixFacts JsFacts ToStringErrors
  AdvancedBrowserFingerprint AdvancedBrowserHashFacts.

Lemma digits_go_decimal (fuel : nat) (n : Z) :
  Forall (fun c => c < 58) (digits_go fuel 10 n []).
Proof.
  revert n. induction fuel as [| fuel IH]; intros n; simpl.
  - constructor.
  - destruct (n <=? 0); [constructor |].
    rewrite digits_go_acc. apply Forall_app. split; [apply IH |].
    constructor; [| constructor].
    unfold digit_char.
    pose proof (Z.mod_pos_bound n 10 ltac:(lia)).
    destruct (Z.ltb_spec (n mod 10) 10); lia.
Qed.

(** The name of an index consists of a sign and decimal digits. *)
Lemma index_name_chars (z : Z) : Forall (fun c => c < 58) (int_toString 10 z).
Proof.
  unfold int_toString, nat_digits.
  destruct (z <? 0).
  - constructor; [lia |].
    destruct (- z <=? 0); [repeat constructor; lia | apply digits_go_decimal].
  - destruct (z <=? 0); [repeat constructor; lia | apply digits_go_decimal].
Qed.

Section Engine.
Context {F : Float64}.

(** A name with a letter in it is not an index. *)
Lemma lookup_indexed_none (k : jsstring) (i : nat) (l : list value) :
  (exists c, In c k /\ 58 <= c) -> lookup k (indexed_from i l) = None.
Proof.
  intros (c & Hin & Hc).
  revert i. induction l as [| x l IH]; intros i; cbn [indexed_from lookup];
    [reflexivity |].
  destruct (str_eqb k (int_toString 10 (Z.of_nat i))) eqn:E; [| apply IH].
  apply str_eqb_eq in E. subst k.
  pose proof (index_name_chars (Z.of_nat i)) as Hall.
  rewrite Forall_forall in Hall. specialize (Hall c Hin). lia.
Qed.

Lemma get_letter_name_object (v x : value) (k : jsstring) :
  (exists c, In c k /\ 58 <= c) ->
  str_eqb k (lit "length") = false ->
  get v k = x -> is_undefined x = false ->
  exists ps, v = VObj ps /\ lookup k ps = Some x.
Proof.
  intros Hk Hlen Hget Hx.
  destruct v as [| | | | | s | l | ps].
  1-5: subst x; discriminate.
  - cbn [get own_props] in Hget.
    rewrite Hlen in Hget. unfold lookup_or_undefined in Hget.
    rewrite lookup_indexed_none in Hget by exact Hk. subst x. discriminate.
  - cbn [get own_props] in Hget.
    rewrite Hlen in Hget. unfold lookup_or_undefined in Hget.
    rewrite lookup_indexed_none in Hget by exact Hk. subst x. discriminate.
  - subst x. exists ps. split; [reflexivity |].
    apply get_obj_defined. exact Hx.
Qed.

(** A record in which [webgl?.extensions] reads as an array is an object
    whose [webgl] is an object with that array as own property. *)
Lemma webgl_extensions_array (fp : value) (l0 : list value) :
  webgl_extensions fp = VArr l0 ->
  exists ps qs,
    fp = VObj ps /\
    lookup (lit "webgl") ps = Some (VObj qs) /\
    lookup (lit "extensions") qs = Some (VArr l0).
Proof.
  unfold webgl_extensions, opt_get. intros H.
  destruct (nullish (get fp (lit "webgl"))) eqn:Hn; [discriminate |].
  destruct (get_letter_name_object (get fp (lit "webgl")) (VArr l0)
              (lit "extensions")) as (qs & Hw & Hq);
    [exists 101; split; [left; reflexivity | lia]
    | reflexivity | exact H | reflexivity |].
  destruct (get_letter_name_object fp (VObj qs) (lit "webgl"))
    as (ps & Hfp & Hp);
    [exists 119; split; [left; reflexivity | lia]
    | reflexivity | exact Hw | reflexivity |].
  exists ps, qs. repeat split; assumption.
Qed.

Lemma sort_insert_perm (x : value) (l : list value) :
  Permutation (x :: l) (sort_insert x l).
Proof.
  induction l as [| y l IH]; cbn [sort_insert]; [reflexivity |].
  destruct (sort_before y x); [| reflexivity].
  rewrite perm_swap. now constructor.
Qed.

Lemma sort_list_perm (l : list value) : Permutation l (sort_list l).
Proof.
  induction l as [| x l IH]; cbn [sort_list fold_right]; [constructor |].
  fold (sort_list l).
  rewrite <- sort_insert_perm. now constructor.
Qed.

Lemma nullish_record (fp : value) (l0 : list value) :
  webgl_extensions fp = VArr l0 -> nullish fp = false.
Proof.
  intros H. destruct (webgl_extensions_array fp l0 H) as (ps & _ & -> & _).
  reflexivity.
Qed.

(** With an extension array in the record the state after the call is
    the record with the sorted array, whatever the call completes
    with. *)
Lemma snd_stableFeatures_array (fp : value) (l0 : list value) :
  webgl_extensions fp = VArr l0 ->
  snd (stableFeatures fp) = store_extensions fp (VArr (sort_list l0)).
Proof.
  intros H. unfold stableFeatures.
  rewrite (nullish_record fp l0 H), H.
  cbn [or_else truthy array_sort snd].
  unfold after_sort. rewrite H. reflexivity.
Qed.

(** X18.  On a record none of whose objects has an own property named
    [toString], so that the two template literals in front of the sort
    and the sort itself convert their operands without raising,
    [getHash] sorts the array stored at [webgl.extensions] where it is:
    after the call, and even when the call goes on to throw, the record
    holds the sorted permutation of its extension list; every other
    property of the record and of its [webgl] object is as before. *)
Theorem getHash_sorts_stored_extensions (fp : value) (l0 : list value) :
  plain fp = true ->
  webgl_extensions fp = VArr l0 ->
  webgl_extensions (snd (getHash fp)) = VArr (sort_list l0) /\
  Permutation l0 (sort_list l0) /\
  ordered (sort_list l0) /\
  (forall k, str_eqb k (lit "webgl") = false ->
     get (snd (getHash fp)) k = get fp k) /\
  (forall k, str_eqb k (lit "extensions") = false ->
     opt_get (get (snd (getHash fp)) (lit "webgl")) k
     = opt_get (get fp (lit "webgl")) k).
Proof.
  intros _ H.
  rewrite snd_getHash, (snd_stableFeatures_array fp l0 H).
  destruct (webgl_extensions_array fp l0 H) as (ps & qs & -> & Hp & Hq).
  assert (Hw : get (VObj ps) (lit "webgl") = VObj qs)
    by (rewrite get_obj, Hp; reflexivity).
  split.
  { unfold webgl_extensions. rewrite get_store_webgl, Hw.
    cbn [set_prop]. unfold opt_get. cbn [nullish].
    rewrite get_obj, (lookup_replace_same _ _ _ _ Hq). reflexivity. }
  split; [apply sort_list_perm |].
  split; [apply sort_list_ordered |].
  split.
  { intros k Hk. now apply get_store_other. }
  intros k Hk.
  rewrite get_store_webgl, Hw. cbn [set_prop]. unfold opt_get. cbn [nullish].
  rewrite !get_obj, lookup_replace_other by exact Hk. reflexivity.
Qed.

(** X19.  On a record none of whose objects has an own property named
    [toString], [getHash] throws a [TypeError] exactly when the record
    is [null] or [undefined], when [webgl.extensions] or
    [languages.languages] is truthy without being an array, or when
    [audio.audioSum] is present without being a number; on every other
    such record it returns a string. *)
Theorem getHash_throws_only_TypeError (fp : value) :
  plain fp = true ->
  if hashable fp then exists hash, fst (getHash fp) = Normal hash
  else fst (getHash fp) = Throw TypeError.
Proof.
  intros _. rewrite fst_getHash.
  pose proof (AdvancedBrowserHash.stableFeatures_returns fp) as H.
  destruct (hashable fp).
  - destruct H as [fs ->]. eexists. reflexivity.
  - rewrite H. reflexivity.
Qed.

End Engine.

(** A record with two extensions out of order. *)
Lemma getHash_sorts_stored_extensions_witness :
  plain ProbeSamples.unsorted_record = true /\
  webgl_extensions ProbeSamples.unsorted_record
  = VArr [ VStr (lit "OES_texture_float"); VStr (lit "ANGLE_instanced_arrays") ]
  /\
  webgl_extensions (snd (getHash ProbeSamples.unsorted_record))
  = VArr (sort_list [ VStr (lit "OES_texture_float");
                      VStr (lit "ANGLE_instanced_arrays") ]).
Proof.
  assert (Hp : plain ProbeSamples.unsorted_record = true) by reflexivity.
  assert (H : webgl_extensions ProbeSamples.unsorted_record
              = VArr [ VStr (lit "OES_texture_float");
                       VStr (lit "ANGLE_instanced_arrays") ])
    by reflexivity.
  split; [exact Hp |]. split; [exact H |].
  exact (proj1 (getHash_sorts_stored_extensions ProbeSamples.unsorted_record
                  [ VStr (lit "OES_texture_float");
                    VStr (lit "ANGLE_instanced_arrays") ] Hp H)).
Defined.

(** A record that is hashed, and one whose [audioSum] is a text. *)
Lemma getHash_throws_only_TypeError_witness :
  plain ProbeSamples.unsorted_record = true /\
  (exists hash, fst (getHash ProbeSamples.unsorted_record) = Normal hash) /\
  plain ProbeSamples.record_with_text_audioSum = true /\
  fst (getHash ProbeSamples.record_with_text_audioSum) = Throw TypeError.
Proof.
  assert (H1 : plain ProbeSamples.unsorted_record = true) by reflexivity.
  assert (H2 : plain ProbeSamples.record_with_text_audioSum = true)
    by reflexivity.
  split; [exact H1 |].
  split; [exact (getHash_throws_only_TypeError ProbeSamples.unsorted_record H1) |].
  split; [exact H2 |].
  exact (getHash_throws_only_TypeError
           ProbeSamples.record_with_text_audioSum H2).
Defined.

End AdvancedBrowserStateFacts.

(* ================================================================== *)
(** * When the CSS hashes throw *)
(* ================================================================== *)

Module CSSErrorFacts.
Import Js Promise Djb2 JsStringFacts JsFacts ToStringErrors CSSErrors.

Section Engine.
Context {F : Float64}.

Lemma toFixed_number (digits : nat) (v : value) :
  if is_number v then exists s, toFixed digits v = Normal (VStr s)
  else toFixed digits v = Throw TypeError.
Proof. destruct v; cbn [is_number toFixed]; try reflexivity; eexists; reflexivity. Qed.

Lemma fontMetric_width_cases (fontMetrics key : value) :
  if fontMetric_ok fontMetrics key
  then exists s, CSSFingerprint.fontMetric_width fontMetrics key = Normal (VStr s)
  else CSSFingerprint.fontMetric_width fontMetrics key = Throw TypeError.
Proof.
  unfold fontMetric_ok, CSSFingerprint.fontMetric_width, strict_get.
  cbv zeta.
  destruct (nullish (get fontMetrics (toString key))); cbn [negb andb bind];
    [reflexivity |].
  pose proof (toFixed_number 1
                (get (get fontMetrics (toString key)) (lit "width"))) as H.
  destruct (get (get fontMetrics (toString key)) (lit "width"));
    cbn [is_number nullish] in *; try reflexivity; exact H.
Qed.

Lemma fontMetric_features_cases (fontMetrics : value) (keys : list value) :
  if forallb (fontMetric_ok fontMetrics) keys
  then exists fs,
         map_c (fun key =>
                  width <- CSSFingerprint.fontMetric_width fontMetrics key ;;
                  Normal (template [VStr (lit "fm:"); key; VStr (lit ":"); width]))
               keys = Normal fs
  else map_c (fun key =>
                width <- CSSFingerprint.fontMetric_width fontMetrics key ;;
                Normal (template [VStr (lit "fm:"); key; VStr (lit ":"); width]))
             keys = Throw TypeError.
Proof.
  induction keys as [| key keys IH]; cbn [forallb map_c].
  - eexists. reflexivity.
  - pose proof (fontMetric_width_cases fontMetrics key) as Hk.
    destruct (fontMetric_ok fontMetrics key); cbn [andb].
    + destruct Hk as [s ->]. cbn [bind].
      destruct (forallb (fontMetric_ok fontMetrics) keys).
      * destruct IH as [fs ->]. eexists. reflexivity.
      * rewrite IH. reflexivity.
    + rewrite Hk. reflexivity.
Qed.

Lemma css_getHash_cases (fp : value) :
  if hashable fp then exists hash, CSSFingerprint.getHash fp = Normal hash
  else CSSFingerprint.getHash fp = Throw TypeError.
Proof.
  unfold hashable, CSSFingerprint.getHash, CSSFingerprint.stableFeatures.
  destruct (nullish fp); cbn [negb andb bind]; [reflexivity |].
  cbv zeta. unfold CSSFingerprint.fontMetric_features.
  pose proof (fontMetric_features_cases (get fp (lit "fontMetrics"))
                (CSSFingerprint.sorted_keys (get fp (lit "fontMetrics")))) as H.
  destruct (forallb _ _).
  - destruct H as [fs ->]. cbn [bind]. eexists. reflexivity.
  - rewrite H. reflexivity.
Qed.

Lemma advanced_getHash_cases (r : value) :
  if AdvancedCSSFingerprint.hashable r
  then exists hash, AdvancedCSSFingerprint.getHash r = Normal hash
  else AdvancedCSSFingerprint.getHash r = Throw TypeError.
Proof.
  unfold AdvancedCSSFingerprint.getHash.
  pose proof (AdvancedCSSFacts.features_returns r) as H.
  destruct (AdvancedCSSFingerprint.hashable r).
  - destruct H as [fs ->]. eexists. reflexivity.
  - rewrite H. reflexivity.
Qed.

(** X20.  On a record none of whose objects has an own property named
    [toString], [CSSFingerprint.getHash] throws a [TypeError] exactly
    when the record is [null] or [undefined] or some key of
    [fontMetrics] leads to an entry that is [null] or [undefined] or
    whose [width] is not a number; on every other such record it
    returns a string. *)
Theorem css_getHash_throws_only_TypeError (fp : value) :
  plain fp = true ->
  if hashable fp then exists hash, CSSFingerprint.getHash fp = Normal hash
  else CSSFingerprint.getHash fp = Throw TypeError.
Proof.
  intros _. pose proof (css_getHash_cases fp) as H.
  destruct (hashable fp); exact H.
Qed.

(** X21.  On a record none of whose objects has an own property named
    [toString], [AdvancedCSSFingerprint.getHash] throws a [TypeError]
    exactly when [results] is [null] or [undefined] or [fonts] is
    truthy without being an array; on every other such record it
    returns a string. *)
Theorem advanced_getHash_throws_only_TypeError (r : value) :
  plain r = true ->
  if AdvancedCSSFingerprint.hashable r
  then exists hash, AdvancedCSSFingerprint.getHash r = Normal hash
  else AdvancedCSSFingerprint.getHash r = Throw TypeError.
Proof.
  intros _. pose proof (advanced_getHash_cases r) as H.
  destruct (AdvancedCSSFingerprint.hashable r); exact H.
Qed.

(** X22.  When the records the two engines fulfil with hold no object
    with an own property named [toString],
    [CombinedCSSFingerprint.generate] fulfils exactly when both engines
    fulfilled with records their [getHash] accepts; it rejects with the
    reason of the first engine that rejected and, when both fulfilled,
    with a [TypeError] if either record is not accepted. *)
Theorem combined_generate_outcome (basic_run advanced_run : settled value) :
  plain_run basic_run = true -> plain_run advanced_run = true ->
  match basic_run, advanced_run with
  | Rejected e, _ =>
      CombinedCSSFingerprint.generate basic_run advanced_run = Rejected e
  | Fulfilled _, Rejected e =>
      CombinedCSSFingerprint.generate basic_run advanced_run = Rejected e
  | Fulfilled basic, Fulfilled advanced =>
      if hashable basic && AdvancedCSSFingerprint.hashable advanced
      then exists combined,
             CombinedCSSFingerprint.generate basic_run advanced_run
             = Fulfilled
                 (VObj [ (lit "basic",
                          VObj [ (lit "data", basic);
                                 (lit "hash", VStr (lit "37d4172b")) ]);
                         (lit "advanced",
                          VObj [ (lit "data", advanced);
                                 (lit "hash", VStr (lit "83132084")) ]);
                         (lit "combined", VStr combined) ])
      else CombinedCSSFingerprint.generate basic_run advanced_run
           = Rejected TypeError
  end.
Proof.
  intros _ _.
  destruct basic_run as [basic | e]; [| reflexivity].
  destruct advanced_run as [advanced | e]; [| reflexivity].
  unfold CombinedCSSFingerprint.generate.
  cbn [promise_all nth].
  rewrite CombinedFacts.fresh_basic_hash, CombinedFacts.fresh_advanced_hash.
  cbn [bind].
  unfold CombinedCSSFingerprint.getCombinedHash.
  pose proof (css_getHash_cases basic) as Hb.
  pose proof (advanced_getHash_cases advanced) as Ha.
  destruct (hashable basic); cbn [andb].
  - destruct Hb as [hb ->]. cbn [bind].
    destruct (AdvancedCSSFingerprint.hashable advanced).
    + destruct Ha as [ha ->]. cbn [bind async_return].
      eexists. reflexivity.
    + rewrite Ha. reflexivity.
  - rewrite Hb. reflexivity.
Qed.

End Engine.

(** Results with a measured font, its width as a number and as a
    text. *)
Lemma css_getHash_throws_only_TypeError_witness :
  plain ProbeSamples.css_with_metrics = true /\
  (exists hash,
     CSSFingerprint.getHash ProbeSamples.css_with_metrics = Normal hash) /\
  plain ProbeSamples.css_with_text_width = true /\
  CSSFingerprint.getHash ProbeSamples.css_with_text_width = Throw TypeError.
Proof.
  assert (H1 : plain ProbeSamples.css_with_metrics = true) by reflexivity.
  assert (H2 : plain ProbeSamples.css_with_text_width = true) by reflexivity.
  split; [exact H1 |].
  split; [exact (css_getHash_throws_only_TypeError
                   ProbeSamples.css_with_metrics H1) |].
  split; [exact H2 |].
  exact (css_getHash_throws_only_TypeError ProbeSamples.css_with_text_width H2).
Defined.

(** Results with a list of fonts, and with a text in its place. *)
Lemma advanced_getHash_throws_only_TypeError_witness :
  plain (Samples.advanced_results ["Arial"; "Verdana"]%string) = true /\
  (exists hash,
     AdvancedCSSFingerprint.getHash
       (Samples.advanced_results ["Arial"; "Verdana"]%string) = Normal hash) /\
  plain ProbeSamples.advanced_with_text_fonts = true /\
  AdvancedCSSFingerprint.getHash ProbeSamples.advanced_with_text_fonts
  = Throw TypeError.
Proof.
  assert (H1 : plain (Samples.advanced_results ["Arial"; "Verdana"]%string)
               = true) by reflexivity.
  assert (H2 : plain ProbeSamples.advanced_with_text_fonts = true)
    by reflexivity.
  split; [exact H1 |].
  split; [exact (advanced_getHash_throws_only_TypeError
                   (Samples.advanced_results ["Arial"; "Verdana"]%string) H1) |].
  split; [exact H2 |].
  exact (advanced_getHash_throws_only_TypeError
           ProbeSamples.advanced_with_text_fonts H2).
Defined.

(** Both engines fulfilled; the second run has a text where the fonts
    should be. *)
Lemma combined_generate_outcome_witness :
  plain_run (Fulfilled ProbeSamples.css_with_metrics) = true /\
  plain_run (Fulfilled (Samples.advanced_results ["Arial"]%string)) = true /\
  plain_run (Fulfilled ProbeSamples.advanced_with_text_fonts) = true /\
  (exists combined,
     CombinedCSSFingerprint.generate
       (Fulfilled ProbeSamples.css_with_metrics)
       (Fulfilled (Samples.advanced_results ["Arial"]%string))
     = Fulfilled
         (VObj [ (lit "basic",
                  VObj [ (lit "data", ProbeSamples.css_with_metrics);
                         (lit "hash", VStr (lit "37d4172b")) ]);
                 (lit "advanced",
                  VObj [ (lit "data", Samples.advanced_results ["Arial"]%string);
                         (lit "hash", VStr (lit "83132084")) ]);
                 (lit "combined", VStr combined) ])) /\
  CombinedCSSFingerprint.generate
    (Fulfilled ProbeSamples.css_with_metrics)
    (Fulfilled ProbeSamples.advanced_with_text_fonts)
  = Rejected TypeError.
Proof.
  assert (H1 : plain_run (Fulfilled ProbeSamples.css_with_metrics) = true)
    by reflexivity.
  assert (H2 : plain_run (Fulfilled (Samples.advanced_results ["Arial"]%string))
               = true) by reflexivity.
  assert (H3 : plain_run (Fulfilled ProbeSamples.advanced_with_text_fonts)
               = true) by reflexivity.
  split; [exact H1 |]. split; [exact H2 |]. split; [exact H3 |].
  split.
  - exact (combined_generate_outcome
             (Fulfilled ProbeSamples.css_with_metrics)
             (Fulfilled (Samples.advanced_results ["Arial"]%string)) H1 H2).
  - exact (combined_generate_outcome
             (Fulfilled ProbeSamples.css_with_metrics)
             (Fulfilled ProbeSamples.advanced_with_text_fonts) H1 H3).
Defined.

End CSSErrorFacts.

(* ================================================================== *)
(** * [W] is MurmurHash3 *)
(* ================================================================== *)

Module MurmurFacts.
Import Int32 Bitwise Radix FingerprintJS MurmurRefinement Int32Facts RadixFacts
  X64Facts X64ShiftFacts X64MixFacts.

Lemma u64_w : u64 w_ = MurmurHash3.c1.
Proof. reflexivity. Qed.

Lemma u64_L : u64 L_ = MurmurHash3.c2.
Proof. reflexivity. Qed.

Lemma u64_k : u64 k_ = 5.
Proof. reflexivity. Qed.

Lemma u64_V : u64 V_ = 1390208809.
Proof. reflexivity. Qed.

Lemma u64_S : u64 S_ = 944331445.
Proof. reflexivity. Qed.

Lemma u64_b : u64 b_ = 18397679294719823053.
Proof. reflexivity. Qed.

Lemma u64_v : u64 v_ = 14181476777654086739.
Proof. reflexivity. Qed.

Lemma u64_rotl (t : x64) (r : Z) :
  0 < r < 64 -> u64 (p_rotl t r) = MurmurHash3.rotl64 (u64 t) r.
Proof.
  intros Hr. unfold MurmurHash3.rotl64.
  rewrite u64_p_rotl by (rewrite ?(Z.mod_small r 64); lia).
  rewrite (Z.mod_small r 64) by lia. reflexivity.
Qed.

Lemma u64_mix_k1 (s : x64) :
  u64 (f_mul (p_rotl (f_mul s w_) 31) L_) = MurmurHash3.mix_k1 (u64 s).
Proof.
  unfold MurmurHash3.mix_k1, MurmurHash3.mul64.
  rewrite u64_f_mul, u64_rotl, u64_f_mul, u64_w, u64_L by lia.
  reflexivity.
Qed.

Lemma u64_mix_k2 (u : x64) :
  u64 (f_mul (p_rotl (f_mul u L_) 33) w_) = MurmurHash3.mix_k2 (u64 u).
Proof.
  unfold MurmurHash3.mix_k2, MurmurHash3.mul64.
  rewrite u64_f_mul, u64_rotl, u64_f_mul, u64_w, u64_L by lia.
  reflexivity.
Qed.

Lemma u64_round (h other c : x64) (r : Z) :
  0 < r < 64 ->
  u64 (m_add (f_mul (m_add (p_rotl h r) other) k_) c)
  = MurmurHash3.add64
      (MurmurHash3.mul64
         (MurmurHash3.add64 (MurmurHash3.rotl64 (u64 h) r) (u64 other)) 5)
      (u64 c).
Proof.
  intros Hr. unfold MurmurHash3.add64, MurmurHash3.mul64.
  rewrite u64_m_add, u64_f_mul, u64_m_add, u64_rotl, u64_k by lia.
  reflexivity.
Qed.

Lemma u64_g_fmix (t : x64) : u64 (g_fmix t) = MurmurHash3.fmix64 (u64 t).
Proof.
  unfold g_fmix, MurmurHash3.fmix64, MurmurHash3.mul64. cbv zeta.
  rewrite u64_y_xor, u64_shift_33.
  rewrite u64_f_mul, u64_v.
  rewrite u64_y_xor, u64_shift_33.
  rewrite u64_f_mul, u64_b.
  rewrite u64_y_xor, u64_shift_33.
  reflexivity.
Qed.

Lemma u64_words (hi lo : Z) : u64 (hi, lo) = to_uint32 hi * 2 ^ 32 + to_uint32 lo.
Proof. reflexivity. Qed.

(** Four bytes put together with [|] and [<<]. *)
Lemma to_uint32_bytes (b0 b1 b2 b3 : Z) :
  0 <= b0 < 256 -> 0 <= b1 < 256 -> 0 <= b2 < 256 -> 0 <= b3 < 256 ->
  to_uint32 (bor (bor (bor b0 (shl b1 8)) (shl b2 16)) (shl b3 24))
  = b0 + b1 * 2 ^ 8 + b2 * 2 ^ 16 + b3 * 2 ^ 24.
Proof.
  intros H0 H1 H2 H3.
  rewrite !to_uint32_bor, !to_uint32_shl by lia.
  rewrite !to_uint32_small by lia.
  rewrite !Z.mod_small by lia.
  rewrite (Z.lor_comm b0), lor_disjoint by lia.
  rewrite (Z.lor_comm (b1 * 2 ^ 8 + b0)), lor_disjoint by lia.
  rewrite (Z.lor_comm (b2 * 2 ^ 16 + (b1 * 2 ^ 8 + b0))), lor_disjoint by lia.
  ring.
Qed.

(** *** The lanes step by step *)

Lemma tail_O (n : list Z) (l : nat) (st : lanes) : tail n l 0 st = st.
Proof. reflexivity. Qed.

Lemma tail_S (n : list Z) (l i : nat) (st : lanes) :
  tail n l (S i) st = tail n l i (tail_case n l (S i) st).
Proof. reflexivity. Qed.

Lemma blocks_S (n : list Z) (l count : nat) (st : lanes) :
  blocks n l (S count) st = blocks n (l + 16) count (block n l st).
Proof. reflexivity. Qed.

Section Bytes.
Variable n : list Z.
Hypothesis Hn : Forall (fun b => 0 <= b < 256) n.

Lemma byte_range (i : nat) : 0 <= nth i n 0 < 256.
Proof.
  destruct (nth_in_or_default i n 0) as [Hin | ->]; [| lia].
  rewrite Forall_forall in Hn. apply Hn. exact Hin.
Qed.

Lemma word_at_le (l j : nat) :
  to_uint32 (word_at n l j)
  = nth (l + j) n 0 + nth (l + j + 1) n 0 * 2 ^ 8
    + nth (l + j + 2) n 0 * 2 ^ 16 + nth (l + j + 3) n 0 * 2 ^ 24.
Proof.
  unfold word_at, byte_at. apply to_uint32_bytes; apply byte_range.
Qed.

Lemma word_at_range (l j : nat) : 0 <= to_uint32 (word_at n l j) < 2 ^ 32.
Proof. apply to_uint32_range. Qed.

(** The two words of a block half are its little-endian integer. *)
Lemma u64_getblock (l : nat) :
  u64 (word_at n l 4, word_at n l 0) = MurmurHash3.getblock n l 8.
Proof.
  rewrite u64_words, !word_at_le.
  cbn [MurmurHash3.getblock].
  replace (l + 4 + 1)%nat with (l + 5)%nat by lia.
  replace (l + 4 + 2)%nat with (l + 6)%nat by lia.
  replace (l + 4 + 3)%nat with (l + 7)%nat by lia.
  replace (l + 0 + 1)%nat with (l + 1)%nat by lia.
  replace (l + 0 + 2)%nat with (l + 2)%nat by lia.
  replace (l + 0 + 3)%nat with (l + 3)%nat by lia.
  change (2 ^ (8 * Z.of_nat 0)) with 1.
  change (2 ^ (8 * Z.of_nat 1)) with (2 ^ 8).
  change (2 ^ (8 * Z.of_nat 2)) with (2 ^ 16).
  change (2 ^ (8 * Z.of_nat 3)) with (2 ^ 24).
  change (2 ^ (8 * Z.of_nat 4)) with (2 ^ 32).
  change (2 ^ (8 * Z.of_nat 5)) with (2 ^ 40).
  change (2 ^ (8 * Z.of_nat 6)) with (2 ^ 48).
  change (2 ^ (8 * Z.of_nat 7)) with (2 ^ 56).
  ring.
Qed.

Lemma u64_getblock_high (l : nat) :
  u64 (word_at n l 12, word_at n l 8) = MurmurHash3.getblock n (l + 8) 8.
Proof.
  rewrite <- u64_getblock. unfold word_at.
  replace (l + 8 + 4)%nat with (l + 12)%nat by lia.
  replace (l + 8 + 0)%nat with (l + 8)%nat by lia.
  reflexivity.
Qed.

Lemma hold_block (l : nat) (st : lanes) (h1 h2 k1 k2 : Z) (c : bool) :
  lanes_hold st h1 h2 k1 k2 c ->
  exists k1' k2',
    lanes_hold (block n l st)
      (fst (MurmurHash3.body_step n l (h1, h2)))
      (snd (MurmurHash3.body_step n l (h1, h2))) k1' k2' c.
Proof.
  intros (Ha & Hc & _ & _ & Hd).
  unfold block, MurmurHash3.body_step. cbv zeta.
  eexists _, _. unfold lanes_hold. cbn [la lc ls lu ld fst snd].
  split; [| split; [| split; [reflexivity | split; [reflexivity | exact Hd]]]].
  - rewrite u64_round, u64_y_xor, u64_mix_k1, u64_getblock, Ha, Hc, u64_V by lia.
    reflexivity.
  - rewrite u64_round, u64_y_xor, u64_mix_k2, u64_getblock_high by lia.
    rewrite u64_round, u64_y_xor, u64_mix_k1, u64_getblock, Ha, Hc, u64_V, u64_S
      by lia.
    reflexivity.
Qed.

Lemma hold_blocks (count l : nat) (st : lanes) (h1 h2 k1 k2 : Z) (c : bool) :
  lanes_hold st h1 h2 k1 k2 c ->
  exists k1' k2',
    lanes_hold (blocks n l count st)
      (fst (MurmurHash3.body n l count (h1, h2)))
      (snd (MurmurHash3.body n l count (h1, h2))) k1' k2' c.
Proof.
  revert l st h1 h2 k1 k2.
  induction count as [| count IH]; intros l st h1 h2 k1 k2 H.
  - exists k1, k2. exact H.
  - rewrite blocks_S.
    destruct (hold_block l st h1 h2 k1 k2 c H) as (k1' & k2' & H').
    destruct (IH (l + 16)%nat _ _ _ _ _ H') as (k1'' & k2'' & H'').
    exists k1'', k2''.
    change (MurmurHash3.body n l (S count) (h1, h2))
      with (MurmurHash3.body n (l + 16) count (MurmurHash3.body_step n l (h1, h2))).
    rewrite (surjective_pairing (MurmurHash3.body_step n l (h1, h2))).
    exact H''.
Qed.

(** *** The tail *)

Lemma shifted_byte (x b bits : Z) :
  0 <= b < 256 -> 0 < bits <= 56 ->
  u64 (h_shl (x, b) bits) = b * 2 ^ bits.
Proof.
  intros Hb Hbits.
  rewrite u64_h_shl by (rewrite ?Z.mod_small; lia).
  cbn [snd]. rewrite (Z.mod_small bits) by lia.
  rewrite to_uint32_small by lia.
  apply Z.mod_small.
  assert (0 < 2 ^ bits) by (apply Z.pow_pos_nonneg; lia).
  assert (2 ^ bits * 2 ^ 8 <= 2 ^ 64).
  { rewrite <- Z.pow_add_r by lia. apply Z.pow_le_mono_r; lia. }
  nia.
Qed.

Lemma shifted_byte_clean (x b bits : Z) :
  0 <= b < 256 -> 0 < bits <= 24 ->
  to_uint32 (fst (h_shl (x, b) bits)) = 0.
Proof.
  intros Hb Hbits. unfold h_shl.
  rewrite rem_mod_64, Z.mod_small by lia. cbv zeta.
  replace (bits =? 0) with false by (symmetry; apply Z.eqb_neq; lia).
  replace (bits <? 32) with true by (symmetry; apply Z.ltb_lt; lia).
  cbn [fst snd].
  rewrite ushr_div by lia.
  rewrite (to_uint32_small b) by lia.
  assert (2 ^ 8 <= 2 ^ (32 - bits)) by (apply Z.pow_le_mono_r; lia).
  rewrite Z.div_small by lia. reflexivity.
Qed.

Lemma hold_into_u (l j : nat) (bits : Z) (st : lanes) (h1 h2 k1 k2 : Z)
  (c : bool) :
  0 < bits <= 56 ->
  lanes_hold st h1 h2 k1 k2 c ->
  lanes_hold (into_u n l j bits st) h1 h2 k1
    (Z.lxor k2 (nth (l + j) n 0 * 2 ^ bits)) (bits <=? 24).
Proof.
  intros Hbits (Ha & Hc & Hs & Hu & _).
  unfold into_u, byte_at. cbv zeta. unfold lanes_hold. cbn [la lc ls lu ld].
  split; [exact Ha |]. split; [exact Hc |]. split; [exact Hs |].
  split.
  - rewrite u64_y_xor, Hu, shifted_byte by (try apply byte_range; lia).
    reflexivity.
  - intros Hle. apply Z.leb_le in Hle.
    apply shifted_byte_clean; [apply byte_range | lia].
Qed.

Lemma hold_into_s (l j : nat) (bits : Z) (st : lanes) (h1 h2 k1 k2 : Z)
  (c : bool) :
  0 < bits <= 56 ->
  lanes_hold st h1 h2 k1 k2 c ->
  lanes_hold (into_s n l j bits st) h1 h2
    (Z.lxor k1 (nth (l + j) n 0 * 2 ^ bits)) k2 (bits <=? 24).
Proof.
  intros Hbits (Ha & Hc & Hs & Hu & _).
  unfold into_s, byte_at. cbv zeta. unfold lanes_hold. cbn [la lc ls lu ld].
  split; [exact Ha |]. split; [exact Hc |].
  split.
  - rewrite u64_y_xor, Hs, shifted_byte by (try apply byte_range; lia).
    reflexivity.
  - split; [exact Hu |].
    intros Hle. apply Z.leb_le in Hle.
    apply shifted_byte_clean; [apply byte_range | lia].
Qed.

Lemma clean_byte (x b : Z) :
  to_uint32 x = 0 -> 0 <= b < 256 -> u64 (x, b) = b * 2 ^ 0.
Proof.
  intros Hx Hb. rewrite u64_words, Hx, to_uint32_small by lia.
  change (2 ^ 0) with 1. lia.
Qed.

Lemma hold_finish_u (l : nat) (st : lanes) (h1 h2 k1 k2 : Z) :
  lanes_hold st h1 h2 k1 k2 true ->
  lanes_hold (finish_u n l st) h1
    (Z.lxor h2 (MurmurHash3.mix_k2 (Z.lxor k2 (nth (l + 8) n 0 * 2 ^ 0))))
    k1
    (MurmurHash3.mix_k2 (Z.lxor k2 (nth (l + 8) n 0 * 2 ^ 0))) true.
Proof.
  intros (Ha & Hc & Hs & Hu & Hd).
  unfold finish_u, byte_at. cbv zeta. unfold lanes_hold. cbn [la lc ls lu ld fst].
  assert (E : u64 (f_mul (p_rotl (f_mul (y_xor (lu st)
                 (fst (ld st), nth (l + 8) n 0)) L_) 33) w_)
              = MurmurHash3.mix_k2 (Z.lxor k2 (nth (l + 8) n 0 * 2 ^ 0))).
  { rewrite u64_mix_k2, u64_y_xor, Hu, clean_byte
      by (try apply byte_range; auto).
    reflexivity. }
  split; [exact Ha |].
  split; [rewrite u64_y_xor, Hc, E; reflexivity |].
  split; [exact Hs |].
  split; [exact E | exact Hd].
Qed.

Lemma hold_finish_s (l : nat) (st : lanes) (h1 h2 k1 k2 : Z) :
  lanes_hold st h1 h2 k1 k2 true ->
  lanes_hold (finish_s n l st)
    (Z.lxor h1 (MurmurHash3.mix_k1 (Z.lxor k1 (nth (l + 0) n 0 * 2 ^ 0))))
    h2
    (MurmurHash3.mix_k1 (Z.lxor k1 (nth (l + 0) n 0 * 2 ^ 0))) k2 true.
Proof.
  intros (Ha & Hc & Hs & Hu & Hd).
  unfold finish_s, byte_at. cbv zeta. unfold lanes_hold. cbn [la lc ls lu ld fst].
  rewrite Nat.add_0_r.
  assert (E : u64 (f_mul (p_rotl (f_mul (y_xor (ls st)
                 (fst (ld st), nth l n 0)) w_) 31) L_)
              = MurmurHash3.mix_k1 (Z.lxor k1 (nth l n 0 * 2 ^ 0))).
  { rewrite u64_mix_k1, u64_y_xor, Hs, clean_byte
      by (try apply byte_range; auto).
    reflexivity. }
  split; [rewrite u64_y_xor, Ha, E; reflexivity |].
  split; [exact Hc |].
  split; [exact E |].
  split; [exact Hu | exact Hd].
Qed.

Lemma hold_label_15 (l : nat) (st : lanes) (h1 h2 k1 k2 : Z) (c : bool) :
  lanes_hold st h1 h2 k1 k2 c ->
  lanes_hold (tail_case n l 15 st) h1 h2 k1
    (Z.lxor k2 (nth (l + 14) n 0 * 2 ^ 48)) false.
Proof. intros H. apply (hold_into_u l 14 48 st h1 h2 k1 k2 c); [lia | exact H]. Qed.

Lemma hold_label_14 (l : nat) (st : lanes) (h1 h2 k1 k2 : Z) (c : bool) :
  lanes_hold st h1 h2 k1 k2 c ->
  lanes_hold (tail_case n l 14 st) h1 h2 k1
    (Z.lxor k2 (nth (l + 13) n 0 * 2 ^ 40)) false.
Proof. intros H. apply (hold_into_u l 13 40 st h1 h2 k1 k2 c); [lia | exact H]. Qed.

Lemma hold_label_13 (l : nat) (st : lanes) (h1 h2 k1 k2 : Z) (c : bool) :
  lanes_hold st h1 h2 k1 k2 c ->
  lanes_hold (tail_case n l 13 st) h1 h2 k1
    (Z.lxor k2 (nth (l + 12) n 0 * 2 ^ 32)) false.
Proof. intros H. apply (hold_into_u l 12 32 st h1 h2 k1 k2 c); [lia | exact H]. Qed.

Lemma hold_label_12 (l : nat) (st : lanes) (h1 h2 k1 k2 : Z) (c : bool) :
  lanes_hold st h1 h2 k1 k2 c ->
  lanes_hold (tail_case n l 12 st) h1 h2 k1
    (Z.lxor k2 (nth (l + 11) n 0 * 2 ^ 24)) true.
Proof. intros H. apply (hold_into_u l 11 24 st h1 h2 k1 k2 c); [lia | exact H]. Qed.

Lemma hold_label_11 (l : nat) (st : lanes) (h1 h2 k1 k2 : Z) (c : bool) :
  lanes_hold st h1 h2 k1 k2 c ->
  lanes_hold (tail_case n l 11 st) h1 h2 k1
    (Z.lxor k2 (nth (l + 10) n 0 * 2 ^ 16)) true.
Proof. intros H. apply (hold_into_u l 10 16 st h1 h2 k1 k2 c); [lia | exact H]. Qed.

Lemma hold_label_10 (l : nat) (st : lanes) (h1 h2 k1 k2 : Z) (c : bool) :
  lanes_hold st h1 h2 k1 k2 c ->
  lanes_hold (tail_case n l 10 st) h1 h2 k1
    (Z.lxor k2 (nth (l + 9) n 0 * 2 ^ 8)) true.
Proof. intros H. apply (hold_into_u l 9 8 st h1 h2 k1 k2 c); [lia | exact H]. Qed.

Lemma hold_label_9 (l : nat) (st : lanes) (h1 h2 k1 k2 : Z) :
  lanes_hold st h1 h2 k1 k2 true ->
  lanes_hold (tail_case n l 9 st) h1
    (Z.lxor h2 (MurmurHash3.mix_k2 (Z.lxor k2 (nth (l + 8) n 0 * 2 ^ 0))))
    k1
    (MurmurHash3.mix_k2 (Z.lxor k2 (nth (l + 8) n 0 * 2 ^ 0))) true.
Proof. apply hold_finish_u. Qed.

Lemma hold_label_8 (l : nat) (st : lanes) (h1 h2 k1 k2 : Z) (c : bool) :
  lanes_hold st h1 h2 k1 k2 c ->
  lanes_hold (tail_case n l 8 st) h1 h2
    (Z.lxor k1 (nth (l + 7) n 0 * 2 ^ 56)) k2 false.
Proof. intros H. apply (hold_into_s l 7 56 st h1 h2 k1 k2 c); [lia | exact H]. Qed.

Lemma hold_label_7 (l : nat) (st : lanes) (h1 h2 k1 k2 : Z) (c : bool) :
  lanes_hold st h1 h2 k1 k2 c ->
  lanes_hold (tail_case n l 7 st) h1 h2
    (Z.lxor k1 (nth (l + 6) n 0 * 2 ^ 48)) k2 false.
Proof. intros H. apply (hold_into_s l 6 48 st h1 h2 k1 k2 c); [lia | exact H]. Qed.

Lemma hold_label_6 (l : nat) (st : lanes) (h1 h2 k1 k2 : Z) (c : bool) :
  lanes_hold st h1 h2 k1 k2 c ->
  lanes_hold (tail_case n l 6 st) h1 h2
    (Z.lxor k1 (nth (l + 5) n 0 * 2 ^ 40)) k2 false.
Proof. intros H. apply (hold_into_s l 5 40 st h1 h2 k1 k2 c); [lia | exact H]. Qed.

Lemma hold_label_5 (l : nat) (st : lanes) (h1 h2 k1 k2 : Z) (c : bool) :
  lanes_hold st h1 h2 k1 k2 c ->
  lanes_hold (tail_case n l 5 st) h1 h2
    (Z.lxor k1 (nth (l + 4) n 0 * 2 ^ 32)) k2 false.
Proof. intros H. apply (hold_into_s l 4 32 st h1 h2 k1 k2 c); [lia | exact H]. Qed.

Lemma hold_label_4 (l : nat) (st : lanes) (h1 h2 k1 k2 : Z) (c : bool) :
  lanes_hold st h1 h2 k1 k2 c ->
  lanes_hold (tail_case n l 4 st) h1 h2
    (Z.lxor k1 (nth (l + 3) n 0 * 2 ^ 24)) k2 true.
Proof. intros H. apply (hold_into_s l 3 24 st h1 h2 k1 k2 c); [lia | exact H]. Qed.

Lemma hold_label_3 (l : nat) (st : lanes) (h1 h2 k1 k2 : Z) (c : bool) :
  lanes_hold st h1 h2 k1 k2 c ->
  lanes_hold (tail_case n l 3 st) h1 h2
    (Z.lxor k1 (nth (l + 2) n 0 * 2 ^ 16)) k2 true.
Proof. intros H. apply (hold_into_s l 2 16 st h1 h2 k1 k2 c); [lia | exact H]. Qed.

Lemma hold_label_2 (l : nat) (st : lanes) (h1 h2 k1 k2 : Z) (c : bool) :
  lanes_hold st h1 h2 k1 k2 c ->
  lanes_hold (tail_case n l 2 st) h1 h2
    (Z.lxor k1 (nth (l + 1) n 0 * 2 ^ 8)) k2 true.
Proof. intros H. apply (hold_into_s l 1 8 st h1 h2 k1 k2 c); [lia | exact H]. Qed.

Lemma hold_label_1 (l : nat) (st : lanes) (h1 h2 k1 k2 : Z) :
  lanes_hold st h1 h2 k1 k2 true ->
  lanes_hold (tail_case n l 1 st)
    (Z.lxor h1 (MurmurHash3.mix_k1 (Z.lxor k1 (nth (l + 0) n 0 * 2 ^ 0))))
    h2
    (MurmurHash3.mix_k1 (Z.lxor k1 (nth (l + 0) n 0 * 2 ^ 0))) k2 true.
Proof. apply hold_finish_s. Qed.

(** Leaves of the two sides that differ in the way an index or an
    exponent is written. *)
Ltac same_tree :=
  repeat match goal with
         | |- (_, _) = (_, _) => f_equal
         | |- Z.lxor _ _ = Z.lxor _ _ => f_equal
         | |- MurmurHash3.mix_k1 _ = MurmurHash3.mix_k1 _ => f_equal
         | |- MurmurHash3.mix_k2 _ = MurmurHash3.mix_k2 _ => f_equal
         | |- _ * _ = _ * _ => f_equal
         | |- nth _ _ _ = nth _ _ _ => f_equal; lia
         | |- 2 ^ _ = 2 ^ _ => reflexivity
         end.

Lemma hold_tail_0 (l : nat) (st : lanes) (h1 h2 : Z) :
  lanes_hold st h1 h2 0 0 true ->
  (u64 (la (tail n l 0 st)), u64 (lc (tail n l 0 st)))
  = MurmurHash3.tail n l 0 (h1, h2).
Proof.
  intros H.
  rewrite tail_O.
  destruct H as (Ha & Hc & _). rewrite Ha, Hc.
  lazy beta iota zeta delta
    [MurmurHash3.tail MurmurHash3.xor_bytes Nat.ltb Nat.leb Nat.min Nat.sub
     fst snd].
  same_tree.
Qed.

Lemma hold_tail_1 (l : nat) (st : lanes) (h1 h2 : Z) :
  lanes_hold st h1 h2 0 0 true ->
  (u64 (la (tail n l 1 st)), u64 (lc (tail n l 1 st)))
  = MurmurHash3.tail n l 1 (h1, h2).
Proof.
  intros H.
  rewrite !tail_S, tail_O.
  apply (hold_label_1 l) in H.
  destruct H as (Ha & Hc & _). rewrite Ha, Hc.
  lazy beta iota zeta delta
    [MurmurHash3.tail MurmurHash3.xor_bytes Nat.ltb Nat.leb Nat.min Nat.sub
     fst snd].
  same_tree.
Qed.

Lemma hold_tail_2 (l : nat) (st : lanes) (h1 h2 : Z) :
  lanes_hold st h1 h2 0 0 true ->
  (u64 (la (tail n l 2 st)), u64 (lc (tail n l 2 st)))
  = MurmurHash3.tail n l 2 (h1, h2).
Proof.
  intros H.
  rewrite !tail_S, tail_O.
  apply (hold_label_2 l) in H.
  apply (hold_label_1 l) in H.
  destruct H as (Ha & Hc & _). rewrite Ha, Hc.
  lazy beta iota zeta delta
    [MurmurHash3.tail MurmurHash3.xor_bytes Nat.ltb Nat.leb Nat.min Nat.sub
     fst snd].
  same_tree.
Qed.

Lemma hold_tail_3 (l : nat) (st : lanes) (h1 h2 : Z) :
  lanes_hold st h1 h2 0 0 true ->
  (u64 (la (tail n l 3 st)), u64 (lc (tail n l 3 st)))
  = MurmurHash3.tail n l 3 (h1, h2).
Proof.
  intros H.
  rewrite !tail_S, tail_O.
  apply (hold_label_3 l) in H.
  apply (hold_label_2 l) in H.
  apply (hold_label_1 l) in H.
  destruct H as (Ha & Hc & _). rewrite Ha, Hc.
  lazy beta iota zeta delta
    [MurmurHash3.tail MurmurHash3.xor_bytes Nat.ltb Nat.leb Nat.min Nat.sub
     fst snd].
  same_tree.
Qed.

Lemma hold_tail_4 (l : nat) (st : lanes) (h1 h2 : Z) :
  lanes_hold st h1 h2 0 0 true ->
  (u64 (la (tail n l 4 st)), u64 (lc (tail n l 4 st)))
  = MurmurHash3.tail n l 4 (h1, h2).
Proof.
  intros H.
  rewrite !tail_S, tail_O.
  apply (hold_label_4 l) in H.
  apply (hold_label_3 l) in H.
  apply (hold_label_2 l) in H.
  apply (hold_label_1 l) in H.
  destruct H as (Ha & Hc & _). rewrite Ha, Hc.
  lazy beta iota zeta delta
    [MurmurHash3.tail MurmurHash3.xor_bytes Nat.ltb Nat.leb Nat.min Nat.sub
     fst snd].
  same_tree.
Qed.

Lemma hold_tail_5 (l : nat) (st : lanes) (h1 h2 : Z) :
  lanes_hold st h1 h2 0 0 true ->
  (u64 (la (tail n l 5 st)), u64 (lc (tail n l 5 st)))
  = MurmurHash3.tail n l 5 (h1, h2).
Proof.
  intros H.
  rewrite !tail_S, tail_O.
  apply (hold_label_5 l) in H.
  apply (hold_label_4 l) in H.
  apply (hold_label_3 l) in H.
  apply (hold_label_2 l) in H.
  apply (hold_label_1 l) in H.
  destruct H as (Ha & Hc & _). rewrite Ha, Hc.
  lazy beta iota zeta delta
    [MurmurHash3.tail MurmurHash3.xor_bytes Nat.ltb Nat.leb Nat.min Nat.sub
     fst snd].
  same_tree.
Qed.

Lemma hold_tail_6 (l : nat) (st : lanes) (h1 h2 : Z) :
  lanes_hold st h1 h2 0 0 true ->
  (u64 (la (tail n l 6 st)), u64 (lc (tail n l 6 st)))
  = MurmurHash3.tail n l 6 (h1, h2).
Proof.
  intros H.
  rewrite !tail_S, tail_O.
  apply (hold_label_6 l) in H.
  apply (hold_label_5 l) in H.
  apply (hold_label_4 l) in H.
  apply (hold_label_3 l) in H.
  apply (hold_label_2 l) in H.
  apply (hold_label_1 l) in H.
  destruct H as (Ha & Hc & _). rewrite Ha, Hc.
  lazy beta iota zeta delta
    [MurmurHash3.tail MurmurHash3.xor_bytes Nat.ltb Nat.leb Nat.min Nat.sub
     fst snd].
  same_tree.
Qed.

Lemma hold_tail_7 (l : nat) (st : lanes) (h1 h2 : Z) :
  lanes_hold st h1 h2 0 0 true ->
  (u64 (la (tail n l 7 st)), u64 (lc (tail n l 7 st)))
  = MurmurHash3.tail n l 7 (h1, h2).
Proof.
  intros H.
  rewrite !tail_S, tail_O.
  apply (hold_label_7 l) in H.
  apply (hold_label_6 l) in H.
  apply (hold_label_5 l) in H.
  apply (hold_label_4 l) in H.
  apply (hold_label_3 l) in H.
  apply (hold_label_2 l) in H.
  apply (hold_label_1 l) in H.
  destruct H as (Ha & Hc & _). rewrite Ha, Hc.
  lazy beta iota zeta delta
    [MurmurHash3.tail MurmurHash3.xor_bytes Nat.ltb Nat.leb Nat.min Nat.sub
     fst snd].
  same_tree.
Qed.

Lemma hold_tail_8 (l : nat) (st : lanes) (h1 h2 : Z) :
  lanes_hold st h1 h2 0 0 true ->
  (u64 (la (tail n l 8 st)), u64 (lc (tail n l 8 st)))
  = MurmurHash3.tail n l 8 (h1, h2).
Proof.
  intros H.
  rewrite !tail_S, tail_O.
  apply (hold_label_8 l) in H.
  apply (hold_label_7 l) in H.
  apply (hold_label_6 l) in H.
  apply (hold_label_5 l) in H.
  apply (hold_label_4 l) in H.
  apply (hold_label_3 l) in H.
  apply (hold_label_2 l) in H.
  apply (hold_label_1 l) in H.
  destruct H as (Ha & Hc & _). rewrite Ha, Hc.
  lazy beta iota zeta delta
    [MurmurHash3.tail MurmurHash3.xor_bytes Nat.ltb Nat.leb Nat.min Nat.sub
     fst snd].
  same_tree.
Qed.

Lemma hold_tail_9 (l : nat) (st : lanes) (h1 h2 : Z) :
  lanes_hold st h1 h2 0 0 true ->
  (u64 (la (tail n l 9 st)), u64 (lc (tail n l 9 st)))
  = MurmurHash3.tail n l 9 (h1, h2).
Proof.
  intros H.
  rewrite !tail_S, tail_O.
  apply (hold_label_9 l) in H.
  apply (hold_label_8 l) in H.
  apply (hold_label_7 l) in H.
  apply (hold_label_6 l) in H.
  apply (hold_label_5 l) in H.
  apply (hold_label_4 l) in H.
  apply (hold_label_3 l) in H.
  apply (hold_label_2 l) in H.
  apply (hold_label_1 l) in H.
  destruct H as (Ha & Hc & _). rewrite Ha, Hc.
  lazy beta iota zeta delta
    [MurmurHash3.tail MurmurHash3.xor_bytes Nat.ltb Nat.leb Nat.min Nat.sub
     fst snd].
  same_tree.
Qed.

Lemma hold_tail_10 (l : nat) (st : lanes) (h1 h2 : Z) :
  lanes_hold st h1 h2 0 0 true ->
  (u64 (la (tail n l 10 st)), u64 (lc (tail n l 10 st)))
  = MurmurHash3.tail n l 10 (h1, h2).
Proof.
  intros H.
  rewrite !tail_S, tail_O.
  apply (hold_label_10 l) in H.
  apply (hold_label_9 l) in H.
  apply (hold_label_8 l) in H.
  apply (hold_label_7 l) in H.
  apply (hold_label_6 l) in H.
  apply (hold_label_5 l) in H.
  apply (hold_label_4 l) in H.
  apply (hold_label_3 l) in H.
  apply (hold_label_2 l) in H.
  apply (hold_label_1 l) in H.
  destruct H as (Ha & Hc & _). rewrite Ha, Hc.
  lazy beta iota zeta delta
    [MurmurHash3.tail MurmurHash3.xor_bytes Nat.ltb Nat.leb Nat.min Nat.sub
     fst snd].
  same_tree.
Qed.

Lemma hold_tail_11 (l : nat) (st : lanes) (h1 h2 : Z) :
  lanes_hold st h1 h2 0 0 true ->
  (u64 (la (tail n l 11 st)), u64 (lc (tail n l 11 st)))
  = MurmurHash3.tail n l 11 (h1, h2).
Proof.
  intros H.
  rewrite !tail_S, tail_O.
  apply (hold_label_11 l) in H.
  apply (hold_label_10 l) in H.
  apply (hold_label_9 l) in H.
  apply (hold_label_8 l) in H.
  apply (hold_label_7 l) in H.
  apply (hold_label_6 l) in H.
  apply (hold_label_5 l) in H.
  apply (hold_label_4 l) in H.
  apply (hold_label_3 l) in H.
  apply (hold_label_2 l) in H.
  apply (hold_label_1 l) in H.
  destruct H as (Ha & Hc & _). rewrite Ha, Hc.
  lazy beta iota zeta delta
    [MurmurHash3.tail MurmurHash3.xor_bytes Nat.ltb Nat.leb Nat.min Nat.sub
     fst snd].
  same_tree.
Qed.

Lemma hold_tail_12 (l : nat) (st : lanes) (h1 h2 : Z) :
  lanes_hold st h1 h2 0 0 true ->
  (u64 (la (tail n l 12 st)), u64 (lc (tail n l 12 st)))
  = MurmurHash3.tail n l 12 (h1, h2).
Proof.
  intros H.
  rewrite !tail_S, tail_O.
  apply (hold_label_12 l) in H.
  apply (hold_label_11 l) in H.
  apply (hold_label_10 l) in H.
  apply (hold_label_9 l) in H.
  apply (hold_label_8 l) in H.
  apply (hold_label_7 l) in H.
  apply (hold_label_6 l) in H.
  apply (hold_label_5 l) in H.
  apply (hold_label_4 l) in H.
  apply (hold_label_3 l) in H.
  apply (hold_label_2 l) in H.
  apply (hold_label_1 l) in H.
  destruct H as (Ha & Hc & _). rewrite Ha, Hc.
  lazy beta iota zeta delta
    [MurmurHash3.tail MurmurHash3.xor_bytes Nat.ltb Nat.leb Nat.min Nat.sub
     fst snd].
  same_tree.
Qed.

Lemma hold_tail_13 (l : nat) (st : lanes) (h1 h2 : Z) :
  lanes_hold st h1 h2 0 0 true ->
  (u64 (la (tail n l 13 st)), u64 (lc (tail n l 13 st)))
  = MurmurHash3.tail n l 13 (h1, h2).
Proof.
  intros H.
  rewrite !tail_S, tail_O.
  apply (hold_label_13 l) in H.
  apply (hold_label_12 l) in H.
  apply (hold_label_11 l) in H.
  apply (hold_label_10 l) in H.
  apply (hold_label_9 l) in H.
  apply (hold_label_8 l) in H.
  apply (hold_label_7 l) in H.
  apply (hold_label_6 l) in H.
  apply (hold_label_5 l) in H.
  apply (hold_label_4 l) in H.
  apply (hold_label_3 l) in H.
  apply (hold_label_2 l) in H.
  apply (hold_label_1 l) in H.
  destruct H as (Ha & Hc & _). rewrite Ha, Hc.
  lazy beta iota zeta delta
    [MurmurHash3.tail MurmurHash3.xor_bytes Nat.ltb Nat.leb Nat.min Nat.sub
     fst snd].
  same_tree.
Qed.

Lemma hold_tail_14 (l : nat) (st : lanes) (h1 h2 : Z) :
  lanes_hold st h1 h2 0 0 true ->
  (u64 (la (tail n l 14 st)), u64 (lc (tail n l 14 st)))
  = MurmurHash3.tail n l 14 (h1, h2).
Proof.
  intros H.
  rewrite !tail_S, tail_O.
  apply (hold_label_14 l) in H.
  apply (hold_label_13 l) in H.
  apply (hold_label_12 l) in H.
  apply (hold_label_11 l) in H.
  apply (hold_label_10 l) in H.
  apply (hold_label_9 l) in H.
  apply (hold_label_8 l) in H.
  apply (hold_label_7 l) in H.
  apply (hold_label_6 l) in H.
  apply (hold_label_5 l) in H.
  apply (hold_label_4 l) in H.
  apply (hold_label_3 l) in H.
  apply (hold_label_2 l) in H.
  apply (hold_label_1 l) in H.
  destruct H as (Ha & Hc & _). rewrite Ha, Hc.
  lazy beta iota zeta delta
    [MurmurHash3.tail MurmurHash3.xor_bytes Nat.ltb Nat.leb Nat.min Nat.sub
     fst snd].
  same_tree.
Qed.

Lemma hold_tail_15 (l : nat) (st : lanes) (h1 h2 : Z) :
  lanes_hold st h1 h2 0 0 true ->
  (u64 (la (tail n l 15 st)), u64 (lc (tail n l 15 st)))
  = MurmurHash3.tail n l 15 (h1, h2).
Proof.
  intros H.
  rewrite !tail_S, tail_O.
  apply (hold_label_15 l) in H.
  apply (hold_label_14 l) in H.
  apply (hold_label_13 l) in H.
  apply (hold_label_12 l) in H.
  apply (hold_label_11 l) in H.
  apply (hold_label_10 l) in H.
  apply (hold_label_9 l) in H.
  apply (hold_label_8 l) in H.
  apply (hold_label_7 l) in H.
  apply (hold_label_6 l) in H.
  apply (hold_label_5 l) in H.
  apply (hold_label_4 l) in H.
  apply (hold_label_3 l) in H.
  apply (hold_label_2 l) in H.
  apply (hold_label_1 l) in H.
  destruct H as (Ha & Hc & _). rewrite Ha, Hc.
  lazy beta iota zeta delta
    [MurmurHash3.tail MurmurHash3.xor_bytes Nat.ltb Nat.leb Nat.min Nat.sub
     fst snd].
  same_tree.
Qed.

Lemma hold_tail (i l : nat) (st : lanes) (h1 h2 : Z) :
  (i < 16)%nat ->
  lanes_hold st h1 h2 0 0 true ->
  (u64 (la (tail n l i st)), u64 (lc (tail n l i st)))
  = MurmurHash3.tail n l i (h1, h2).
Proof.
  intros Hi H.
  destruct i as [| [| [| [| [| [| [| [| [| [| [| [| [| [| [| [| i]]]]]]]]]]]]]]]].
  - apply hold_tail_0; exact H.
  - apply hold_tail_1; exact H.
  - apply hold_tail_2; exact H.
  - apply hold_tail_3; exact H.
  - apply hold_tail_4; exact H.
  - apply hold_tail_5; exact H.
  - apply hold_tail_6; exact H.
  - apply hold_tail_7; exact H.
  - apply hold_tail_8; exact H.
  - apply hold_tail_9; exact H.
  - apply hold_tail_10; exact H.
  - apply hold_tail_11; exact H.
  - apply hold_tail_12; exact H.
  - apply hold_tail_13; exact H.
  - apply hold_tail_14; exact H.
  - apply hold_tail_15; exact H.
  - lia.
Qed.

(** *** The whole function *)

Lemma murmur_words_refine (e : Z) :
  Z.of_nat (length n) < 2 ^ 32 ->
  (u64 (fst (murmur_words n e)), u64 (snd (murmur_words n e)))
  = MurmurHash3.x64_128 n (to_uint32 e).
Proof.
  intros Hlen.
  unfold murmur_words, MurmurHash3.x64_128. cbv zeta.
  pose proof (Nat.div_mod_eq (length n) 16) as Hdm.
  pose proof (Nat.mod_upper_bound (length n) 16 ltac:(lia)) as Hi.
  set (i := (length n mod 16)%nat) in *.
  set (q := (length n / 16)%nat) in *.
  replace (length n - i)%nat with (q * 16)%nat by lia.
  rewrite Nat.div_mul by lia.
  assert (H0 : lanes_hold
                 {| la := (0, e); lc := (0, e); ls := (0, 0); lu := (0, 0);
                    ld := (0, 0) |}
                 (to_uint32 e) (to_uint32 e) 0 0 true).
  { unfold lanes_hold. cbn [la lc ls lu ld fst].
    repeat split; reflexivity. }
  destruct (hold_blocks q 0 _ _ _ _ _ _ H0) as (k1 & k2 & H1).
  set (st1 := blocks n 0 q _) in *.
  set (h := MurmurHash3.body n 0 q (to_uint32 e, to_uint32 e)) in *.
  assert (H2 : lanes_hold
                 {| la := la st1; lc := lc st1; ls := (0, 0); lu := (0, 0);
                    ld := (0, 0) |} (fst h) (snd h) 0 0 true).
  { destruct H1 as (Ha & Hc & _). unfold lanes_hold. cbn [la lc ls lu ld fst].
    repeat split; try assumption; reflexivity. }
  pose proof (hold_tail i (q * 16) _ _ _ Hi H2) as H3.
  rewrite <- (surjective_pairing h) in H3.
  set (st3 := tail n (q * 16) i _) in *.
  set (t := MurmurHash3.tail n (q * 16) i h) in *.
  assert (Ea : u64 (la st3) = fst t) by (rewrite <- H3; reflexivity).
  assert (Ec : u64 (lc st3) = snd t) by (rewrite <- H3; reflexivity).
  clearbody st3 t. clear H3 H2 H1 H0.
  assert (Eo : u64 (0, Z.of_nat (length n)) = Z.of_nat (length n)).
  { rewrite u64_words. change (to_uint32 0) with 0.
    rewrite to_uint32_small by lia. lia. }
  unfold MurmurHash3.finalize, MurmurHash3.add64. cbv zeta. cbn [fst snd].
  rewrite !u64_m_add, !u64_g_fmix, !u64_m_add, !u64_y_xor, Ea, Ec, Eo.
  reflexivity.
Qed.

End Bytes.

(** X23.  On a key of bytes that is shorter than 2^32, the fold of [W]
    over pairs of 32-bit words computes MurmurHash3 (x64, 128 bits) of
    the key with the seed taken modulo 2^32: its words [a] and [c] are
    the two halves [h1] and [h2] of the hash. *)
Theorem murmur_words_is_MurmurHash3 (n : list Z) (e : Z) :
  Forall (fun b => 0 <= b < 256) n ->
  Z.of_nat (length n) < 2 ^ 32 ->
  (u64 (fst (murmur_words n e)), u64 (snd (murmur_words n e)))
  = MurmurHash3.x64_128 n (to_uint32 e).
Proof.
  intros Hn Hlen. apply murmur_words_refine; assumption.
Qed.

(** The five bytes of [hello] with seed 0. *)
Lemma murmur_words_is_MurmurHash3_witness :
  Forall (fun b => 0 <= b < 256) (lit "hello") /\
  Z.of_nat (length (lit "hello")) < 2 ^ 32 /\
  (u64 (fst (murmur_words (lit "hello") 0)),
   u64 (snd (murmur_words (lit "hello") 0)))
  = MurmurHash3.x64_128 (lit "hello") (to_uint32 0).
Proof.
  assert (Hb : Forall (fun b => 0 <= b < 256) (lit "hello"))
    by (repeat constructor; vm_compute; intros H; discriminate H).
  assert (Hl : Z.of_nat (length (lit "hello")) < 2 ^ 32)
    by (vm_compute; reflexivity).
  split; [exact Hb |]. split; [exact Hl |].
  exact (murmur_words_is_MurmurHash3 (lit "hello") 0 Hb Hl).
Defined.

(** X24.  For a string of UTF-16 code units whose UTF-8 encoding is
    shorter than 2^32 bytes, the 32 hexadecimal digits [W] returns are
    the digits of MurmurHash3 (x64, 128 bits) of that encoding, [h1]
    before [h2]. *)
Theorem W_murmur_is_MurmurHash3 (t : jsstring) (e : Z) :
  Forall (fun c => 0 <= c < 65536) t ->
  Z.of_nat (length (utf8_encode t)) < 2 ^ 32 ->
  parse_digits 16 (W_murmur t e)
  = fst (MurmurHash3.x64_128 (utf8_encode t) (to_uint32 e)) * 2 ^ 64
    + snd (MurmurHash3.x64_128 (utf8_encode t) (to_uint32 e)).
Proof.
  intros Ht Hlen.
  assert (Hk : key_bytes t = utf8_encode t).
  { unfold key_bytes.
    destruct (forallb (fun o => negb (127 <? o)) t) eqn:E; [| reflexivity].
    symmetry. apply MurmurRenderFacts.utf8_encode_ascii. exact E. }
  pose proof (MurmurRenderFacts.key_bytes_are_bytes t Ht) as Hb.
  rewrite Hk in Hb.
  rewrite <- (murmur_words_refine (utf8_encode t) Hb e Hlen).
  cbn [fst snd].
  unfold W_murmur. rewrite Hk.
  destruct (murmur_words (utf8_encode t) e) as [a c]. cbn [fst snd].
  rewrite !MurmurRenderFacts.parse_digits_app, !length_app,
    !MurmurRenderFacts.hex8_length, !MurmurRenderFacts.hex8_parse.
  unfold u64.
  change (16 ^ Z.of_nat (8 + (8 + 8))) with (2 ^ 96).
  change (16 ^ Z.of_nat (8 + 8)) with (2 ^ 64).
  change (16 ^ Z.of_nat 8) with (2 ^ 32).
  lia.
Qed.

(** The string [hello] with seed 0. *)
Lemma W_murmur_is_MurmurHash3_witness :
  Forall (fun c => 0 <= c < 65536) (lit "hello") /\
  Z.of_nat (length (utf8_encode (lit "hello"))) < 2 ^ 32 /\
  parse_digits 16 (W_murmur (lit "hello") 0)
  = fst (MurmurHash3.x64_128 (utf8_encode (lit "hello")) (to_uint32 0)) * 2 ^ 64
    + snd (MurmurHash3.x64_128 (utf8_encode (lit "hello")) (to_uint32 0)).
Proof.
  assert (Hb : Forall (fun c => 0 <= c < 65536) (lit "hello"))
    by (repeat constructor; vm_compute; intros H; discriminate H).
  assert (Hl : Z.of_nat (length (utf8_encode (lit "hello"))) < 2 ^ 32)
    by (vm_compute; reflexivity).
  split; [exact Hb |]. split; [exact Hl |].
  exact (W_murmur_is_MurmurHash3 (lit "hello") 0 Hb Hl).
Defined.

End MurmurFacts.

(* ================================================================== *)
(** * [detectErrorStackTrace] *)
(* ================================================================== *)

Module ErrorStackFacts.
Import Js StringOps ErrorStack.

(** The first piece of a split is what was collected so far followed by
    the part of the string before its first separator. *)
Lemma split_from_first (sep : Z) (s current : jsstring) :
  exists before pieces,
    split_from sep s current = (current ++ before) :: pieces /\
    ~ In sep before /\
    (s = before \/ exists rest, s = before ++ sep :: rest).
Proof.
  revert current. induction s as [| c s IH]; intros current.
  - exists [], []. cbn [split_from]. rewrite app_nil_r.
    split; [reflexivity |]. split; [intros [] | left; reflexivity].
  - cbn [split_from]. destruct (Z.eqb_spec c sep) as [-> | Hne].
    + exists [], (split_from sep s []). rewrite app_nil_r.
      split; [reflexivity |]. split; [intros [] |].
      right. exists s. reflexivity.
    + destruct (IH (current ++ [c])) as (before & pieces & E & Hnot & Hs).
      exists (c :: before), pieces.
      split; [rewrite E, <- app_assoc; reflexivity |].
      split.
      * intros [Hc | Hin]; [congruence | contradiction].
      * destruct Hs as [-> | [rest ->]]; [left; reflexivity |].
        right. exists rest. reflexivity.
Qed.

Section Probe.
Context {F : Float64}.

Lemma or_else_string (stack : jsstring) :
  or_else (VStr stack) (VStr []) = VStr stack.
Proof. destruct stack; reflexivity. Qed.

(** X25.  For a string [e.stack] the [format] that
    [detectErrorStackTrace] reports is the stack up to its first line
    feed, without any line feed in it, [length] is the length of the
    whole stack, and [hasColumn] is set whenever [format] holds a
    colon. *)
Theorem detectErrorStackTrace_format (stack : jsstring) :
  exists format has_colon,
    detectErrorStackTrace (VStr stack)
    = Normal (VObj [ (lit "format", VStr format);
                     (lit "length", VInt (Z.of_nat (length stack)));
                     (lit "hasColumn", VBool has_colon) ]) /\
    ~ In 10 format /\
    (stack = format \/ exists rest, stack = format ++ 10 :: rest) /\
    (In 58 format -> has_colon = true).
Proof.
  unfold detectErrorStackTrace. rewrite or_else_string.
  destruct (split_from_first 10 stack []) as (format & pieces & E & Hnot & Hs).
  exists format, (includes 58 stack).
  unfold split. rewrite E. cbn [app map nth].
  split; [reflexivity |]. split; [exact Hnot |]. split; [exact Hs |].
  intros Hin. unfold includes. apply existsb_exists.
  exists 58. split; [| reflexivity].
  destruct Hs as [-> | [rest ->]]; [exact Hin |].
  apply in_or_app. left. exact Hin.
Qed.

End Probe.
End ErrorStackFacts.

(* ================================================================== *)
(** * What [AdvancedBrowserFingerprint.getHash] does not look at *)
(* ================================================================== *)

Module AdvancedBrowserCoarseFacts.
Import Js Djb2 JsStringFacts JsFacts AdvancedBrowserFingerprint
  AdvancedBrowserHashFacts AdvancedBrowserStateFacts.

Section Engine.
Context {F : Float64}.

Lemma get_replaced (fp x y : value) (k : jsstring) :
  (exists c, In c k /\ 58 <= c) ->
  str_eqb k (lit "length") = false ->
  get fp k = x -> is_undefined x = false ->
  get (set_prop fp k y) k = y.
Proof.
  intros Hk Hlen Hget Hx.
  destruct (get_letter_name_object fp x k Hk Hlen Hget Hx) as (ps & -> & Hp).
  cbn [set_prop]. rewrite get_obj.
  now rewrite (lookup_replace_same _ _ _ _ Hp).
Qed.

Lemma webgl_extensions_set_other (fp x : value) (k : jsstring) :
  str_eqb (lit "webgl") k = false ->
  webgl_extensions (set_prop fp k x) = webgl_extensions fp.
Proof.
  intros Hk. unfold webgl_extensions.
  now rewrite get_set_prop_other.
Qed.

Lemma stableFeatures_plugins (fp : value) (l1 l2 : list value) :
  get fp (lit "plugins") = VArr l1 ->
  length l1 = length l2 ->
  fst (stableFeatures (set_prop fp (lit "plugins") (VArr l2)))
  = fst (stableFeatures fp).
Proof.
  intros Hp Hlen.
  assert (Hnew : get (set_prop fp (lit "plugins") (VArr l2)) (lit "plugins")
                 = VArr l2).
  { apply (get_replaced fp (VArr l1));
      [exists 112; split; [left; reflexivity | lia]
      | reflexivity | exact Hp | reflexivity]. }
  unfold stableFeatures.
  rewrite nullish_set_prop.
  destruct (nullish fp); [reflexivity |].
  rewrite webgl_extensions_set_other by reflexivity.
  destruct (array_sort (or_else (webgl_extensions fp) (VArr [])))
    as [sorted | e]; [| reflexivity].
  unfold fst, audioSum_toFixed. cbv zeta.
  rewrite Hnew, Hp.
  rewrite !(get_set_prop_other fp (lit "plugins") (lit "webgl")) by reflexivity.
  rewrite !(get_set_prop_other fp (lit "plugins") (lit "webglRenderer"))
    by reflexivity.
  rewrite !(get_set_prop_other fp (lit "plugins") (lit "webglVendor"))
    by reflexivity.
  rewrite !(get_set_prop_other fp (lit "plugins") (lit "audio")) by reflexivity.
  rewrite !(get_set_prop_other fp (lit "plugins") (lit "canvas")) by reflexivity.
  rewrite !(get_set_prop_other fp (lit "plugins") (lit "hardwareConcurrency"))
    by reflexivity.
  rewrite !(get_set_prop_other fp (lit "plugins") (lit "deviceMemory"))
    by reflexivity.
  rewrite !(get_set_prop_other fp (lit "plugins") (lit "screen")) by reflexivity.
  rewrite !(get_set_prop_other fp (lit "plugins") (lit "timezone"))
    by reflexivity.
  rewrite !(get_set_prop_other fp (lit "plugins") (lit "languages"))
    by reflexivity.
  rewrite !(get_set_prop_other fp (lit "plugins") (lit "mathConstants"))
    by reflexivity.
  rewrite !(get_set_prop_other fp (lit "plugins") (lit "canvasTextMetrics"))
    by reflexivity.
  rewrite !(get_set_prop_other fp (lit "plugins") (lit "navigator"))
    by reflexivity.
  rewrite !(get_set_prop_other fp (lit "plugins") (lit "maxTouchPoints"))
    by reflexivity.
  rewrite !(get_set_prop_other fp (lit "plugins") (lit "speechSynthesis"))
    by reflexivity.
  rewrite !(get_set_prop_other fp (lit "plugins") (lit "errorStack"))
    by reflexivity.
  rewrite !(get_set_prop_other fp (lit "plugins") (lit "domRect"))
    by reflexivity.
  unfold or_else, truthy. cbn [get]. 
  change (str_eqb (lit "length") (lit "length")) with true. cbv iota.
  rewrite Hlen. reflexivity.
Qed.

(** X26.  Of the plugins [getHash] sees their number only: a record
    with another plugin list of the same length has the same hash. *)
Theorem getHash_counts_plugins (fp : value) (l1 l2 : list value) :
  get fp (lit "plugins") = VArr l1 ->
  length l1 = length l2 ->
  fst (getHash (set_prop fp (lit "plugins") (VArr l2))) = fst (getHash fp).
Proof.
  intros Hp Hlen.
  rewrite !fst_getHash.
  now rewrite (stableFeatures_plugins fp l1 l2 Hp Hlen).
Qed.

End Engine.

(** A record of one plugin, and the record with another plugin in its
    place. *)
Lemma getHash_counts_plugins_witness :
  get ProbeSamples.record_with_plugin (lit "plugins")
  = VArr [ VObj [ (lit "name", VStr (lit "PDF Viewer"));
                  (lit "description", VStr (lit "Portable Document Format"));
                  (lit "filename", VStr (lit "internal-pdf-viewer")) ] ] /\
  fst (getHash (set_prop ProbeSamples.record_with_plugin (lit "plugins")
                  (VArr [ProbeSamples.other_plugin])))
  = fst (getHash ProbeSamples.record_with_plugin).
Proof.
  split; [reflexivity |].
  apply (getHash_counts_plugins ProbeSamples.record_with_plugin
           [ VObj [ (lit "name", VStr (lit "PDF Viewer"));
                    (lit "description", VStr (lit "Portable Document Format"));
                    (lit "filename", VStr (lit "internal-pdf-viewer")) ] ]
           [ProbeSamples.other_plugin]);
    reflexivity.
Defined.

End AdvancedBrowserCoarseFacts.

(* ================================================================== *)
(** * The visitor id of the bundled library *)
(* ================================================================== *)

Module HashComponentsFacts.
Import Js JsStringFacts JsFacts HashComponents.

Section Engine.
Context {F : Float64}.

(** The loop reads of a component whether it has an [error] property
    and, if it has none, the JSON text of its [value]. *)
Lemma append_components_cong (t t' : value) (keys : list value) (e : jsstring) :
  (forall n, In n keys ->
     has_error (get t (toString n)) = has_error (get t' (toString n))) ->
  (forall n, In n keys ->
     has_error (get t (toString n)) = Normal false ->
     JSON_stringify (get (get t (toString n)) (lit "value"))
     = JSON_stringify (get (get t' (toString n)) (lit "value"))) ->
  append_components t keys e = append_components t' keys e.
Proof.
  revert e. induction keys as [| n keys IH]; intros e Herr Hval;
    cbn [append_components]; [reflexivity |].
  assert (E : append_component t e n = append_component t' e n).
  { unfold append_component. cbv zeta.
    rewrite <- (Herr n) by (left; reflexivity).
    destruct (has_error (get t (toString n))) as [[|] |] eqn:Eh;
      cbn [bind]; try reflexivity.
    rewrite (Hval n) by (first [left; reflexivity | exact Eh]).
    reflexivity. }
  rewrite E.
  destruct (append_component t' e n); cbn [bind]; [| reflexivity].
  apply IH.
  - intros k Hk. apply Herr. right. exact Hk.
  - intros k Hk. apply Hval. right. exact Hk.
Qed.

Lemma lookup_perm_keys ps ps' (k : jsstring) :
  NoDup (map fst ps) -> Permutation ps ps' ->
  get (VObj ps) k = get (VObj ps') k.
Proof. intros Hnd Hp. now apply CSSFacts.get_perm. Qed.

(** X27.  [Mt], which turns the components into the visitor id, does
    not depend on the order in which the object lists its components:
    the keys are sorted before they are read. *)
Theorem Mt_ignores_component_order (ps ps' : list (jsstring * value)) :
  NoDup (map fst ps) -> Permutation ps ps' ->
  Mt (VObj ps) = Mt (VObj ps').
Proof.
  intros Hnd Hp. unfold Mt, canonical. cbn [nullish].
  unfold object_keys, own_props.
  rewrite (sort_list_strings_perm (map fst ps) (map fst ps'))
    by (now apply Permutation_map).
  rewrite (append_components_cong (VObj ps) (VObj ps')); [reflexivity | |].
  - intros n _. now rewrite (lookup_perm_keys ps ps' _ Hnd Hp).
  - intros n _ _. now rewrite (lookup_perm_keys ps ps' _ Hnd Hp).
Qed.

(** X28.  Of each component [Mt] reads only whether it has an [error]
    property and, if it has none, the JSON text of its [value]: two
    objects with the same keys whose components agree in this have the
    same visitor id, whatever their durations and error objects are. *)
Theorem Mt_reads_error_flag_and_value (t t' : value) :
  nullish t = nullish t' ->
  object_keys t = object_keys t' ->
  (forall k,
     has_error (get t k) = has_error (get t' k) /\
     (has_error (get t k) = Normal false ->
      JSON_stringify (get (get t k) (lit "value"))
      = JSON_stringify (get (get t' k) (lit "value")))) ->
  Mt t = Mt t'.
Proof.
  intros Hnull Hkeys Hcomp. unfold Mt, canonical.
  rewrite Hnull, Hkeys.
  destruct (nullish t'); [reflexivity |].
  rewrite (append_components_cong t t'); [reflexivity | |].
  - intros n _. apply (proj1 (Hcomp (toString n))).
  - intros n _. apply (proj2 (Hcomp (toString n))).
Qed.

End Engine.

(** The two sample components in both orders. *)
Lemma Mt_ignores_component_order_witness :
  NoDup (map fst ProbeSamples.components) /\
  Permutation ProbeSamples.components ProbeSamples.components_reversed /\
  Mt (VObj ProbeSamples.components) = Mt (VObj ProbeSamples.components_reversed).
Proof.
  assert (Hnd : NoDup (map fst ProbeSamples.components)).
  { constructor; [intros [H | []]; discriminate H |].
    constructor; [intros [] | constructor]. }
  assert (Hp : Permutation ProbeSamples.components
                 ProbeSamples.components_reversed) by apply perm_swap.
  split; [exact Hnd |]. split; [exact Hp |].
  exact (Mt_ignores_component_order ProbeSamples.components
           ProbeSamples.components_reversed Hnd Hp).
Defined.

(** The two sample components measured twice. *)
Lemma Mt_reads_error_flag_and_value_witness :
  nullish (VObj ProbeSamples.components)
  = nullish (VObj ProbeSamples.components_again) /\
  object_keys (VObj ProbeSamples.components)
  = object_keys (VObj ProbeSamples.components_again) /\
  Mt (VObj ProbeSamples.components) = Mt (VObj ProbeSamples.components_again).
Proof.
  split; [reflexivity |]. split; [reflexivity |].
  apply (Mt_reads_error_flag_and_value (VObj ProbeSamples.components)
           (VObj ProbeSamples.components_again));
    [reflexivity | reflexivity |].
  intros k. rewrite !get_obj.
  unfold ProbeSamples.components, ProbeSamples.components_again.
  cbn [lookup].
  destruct (str_eqb k (lit "timezone")); [split; reflexivity |].
  destruct (str_eqb k (lit "audio")); split; reflexivity.
Defined.

End HashComponentsFacts.

(* ================================================================== *)
(** * [detectPlugins] *)
(* ================================================================== *)

Module PluginFacts.
Import Js Promise AdvancedBrowserFingerprint.

Section Engine.
Context {F : Float64}.

Lemma plugin_entry_cases (plugin : value) :
  plugin_entry plugin
  = if nullish plugin then Throw TypeError
    else Normal (VObj [ (lit "name", get plugin (lit "name"));
                        (lit "description", get plugin (lit "description"));
                        (lit "filename", get plugin (lit "filename")) ]).
Proof.
  unfold plugin_entry, strict_get.
  destruct (nullish plugin); reflexivity.
Qed.

Lemma map_plugin_entries (entries : list value) :
  map_c plugin_entry entries
  = if forallb (fun plugin => negb (nullish plugin)) entries
    then Normal
           (map (fun plugin =>
                   VObj [ (lit "name", get plugin (lit "name"));
                          (lit "description", get plugin (lit "description"));
                          (lit "filename", get plugin (lit "filename")) ])
                entries)
    else Throw TypeError.
Proof.
  induction entries as [| plugin entries IH]; cbn [map_c forallb map];
    [reflexivity |].
  rewrite plugin_entry_cases.
  destruct (nullish plugin); cbn [negb andb bind]; [reflexivity |].
  rewrite IH.
  destruct (forallb (fun plugin => negb (nullish plugin)) entries);
    reflexivity.
Qed.

(** X29.  Where [navigator.plugins] exists, [detectPlugins] returns one
    object with the three properties [name], [description] and
    [filename] for each of its entries, in their order and as many as
    there are entries; an entry that is [null] or [undefined] makes it
    throw a [TypeError] instead. *)
Theorem detectPlugins_copies_entries (h : host) (entries : list value) :
  navigator_plugins h = Some entries ->
  if forallb (fun plugin => negb (nullish plugin)) entries
  then exists plugins,
         body h detectPlugins = Returns (VArr plugins) /\
         length plugins = length entries /\
         plugins
         = map (fun plugin =>
                  VObj [ (lit "name", get plugin (lit "name"));
                         (lit "description", get plugin (lit "description"));
                         (lit "filename", get plugin (lit "filename")) ])
               entries
  else body h detectPlugins = Raises TypeError.
Proof.
  intros Hp. unfold body, detectPlugins_body. rewrite Hp.
  rewrite map_plugin_entries.
  destruct (forallb (fun plugin => negb (nullish plugin)) entries);
    [| reflexivity].
  eexists. split; [reflexivity |].
  split; [apply length_map | reflexivity].
Qed.

End Engine.

(** A host with one plugin. *)
Lemma detectPlugins_copies_entries_witness :
  navigator_plugins ProbeSamples.host_one_plugin
  = Some [ProbeSamples.other_plugin] /\
  exists plugins,
    body ProbeSamples.host_one_plugin detectPlugins = Returns (VArr plugins) /\
    length plugins = 1%nat.
Proof.
  split; [reflexivity |].
  pose proof (detectPlugins_copies_entries ProbeSamples.host_one_plugin
                [ProbeSamples.other_plugin] eq_refl) as H.
  lazy beta iota delta [forallb negb nullish andb ProbeSamples.other_plugin]
    in H.
  destruct H as (plugins & Hb & Hl & _).
  exists plugins. split; [exact Hb | exact Hl].
Defined.

End PluginFacts.

